(** * Group-savings ledger: a shallow embedding of the backend controllers

    The development follows the four controllers of [backend/src/controllers]
    (borrowing, the standalone group controller, admin, savings).  The
    relational tables become fields of a record [Db]; every handler runs its
    queries in a small state-and-error monad [Tx] and is wrapped by
    [transaction], which commits on success and restores the database that
    was current at [beginTransaction] when the handler rolls back.

    Conventions of the embedding:
    - an amount of money is a rational ([Q]): a DECIMAL column holds a whole
      number of cents and the arithmetic of the database is exact.  A
      JavaScript [number] is a binary64 value, and where a handler multiplies
      an amount by a rate before rounding (the interest and the personal
      limit of [borrow], the compounding of the two sweeps) the product is
      the binary64 product [fmul], because at half a cent its error decides
      the cent the handler stores.  Sums and differences of cent amounts and
      the product of a unit count and a price are within a rounding error of
      a whole number of cents, which [toFixed(2)] removes, so they are taken
      exactly; the quotient of [getShare] is taken exactly as well.  The
      conversion [+(x).toFixed(2)] is [round2], and a column stores the
      number it is given;
    - a calendar date (the string [YYYY-MM-DD]) is its day number, a
      [Date] is its millisecond count, both in [Z];
    - [group_pool] and [daily_summary] are keyed by their natural keys
      (pool type, person and date); [borrowing] keeps its rows in insertion
      order with an auto-increment [id], and a [SELECT] returns the rows in
      that order. *)

From Stdlib Require Import QArith Qround Qpower Qabs ZArith Lia Lqa.
From stdpp Require Import gmap strings list.

Open Scope Q_scope.

(** ** Numbers *)

(** [x > y] and [x <= y] on numbers, as booleans. *)
Definition Qgtb (x y : Q) : bool := negb (Qle_bool x y).

(** [n.toFixed(2)] of a non-negative number: the integer [n] with [n / 100]
    closest to [x], the larger one on a tie. *)
Definition toFixed2_nonneg (x : Q) : Q := Qfloor (x * 100 + 0.5) # 100.

(** [+(x).toFixed(2)]: a negative number is formatted as the sign followed by
    the digits of its absolute value. *)
Definition round2 (x : Q) : Q :=
  if Qle_bool 0 x then toFixed2_nonneg x else - toFixed2_nonneg (- x).

(** ** Binary floating point

    The binary64 arithmetic of a JavaScript [number], on the rationals: a
    number stands for itself, an operation computes the exact result and
    rounds it to the nearest binary64 number.  Overflow to [Infinity] is
    left out: it needs amounts beyond [1e308]. *)

(** The integer nearest to [x]; of two nearest integers, the even one. *)
Definition nearest_even (x : Q) : Z :=
  let f := Qfloor x in
  match Qcompare (x - inject_Z f) (1 # 2) with
  | Lt => f
  | Gt => (f + 1)%Z
  | Eq => if Z.even f then f else (f + 1)%Z
  end.

(** The binary exponent [e] of a positive number: [2 ^ e <= a < 2 ^ (e + 1)]. *)
Definition exponent (a : Q) : Z :=
  let e := (Z.log2 (Qnum a) - Z.log2 (Zpos (Qden a)))%Z in
  if Qle_bool (2 ^ e) a then e else (e - 1)%Z.

(** The binary64 number nearest to [x], ties to the even significand: a
    multiple of [2 ^ q], where [q] leaves 53 bits to the significand and is
    at least -1074, the exponent of the smallest subnormal number. *)
Definition fl (x : Q) : Q :=
  let a := Qabs (Qred x) in
  if Qle_bool a 0 then 0
  else
    let q := Z.max (exponent a - 52) (-1074) in
    let y := inject_Z (nearest_even (a / 2 ^ q)) * 2 ^ q in
    if Qle_bool 0 x then y else - y.

(** [a * b] and [a + b] on numbers: the operands are the binary64 numbers
    their literals or columns denote. *)
Definition fmul (a b : Q) : Q := fl (fl a * fl b).
Definition fadd (a b : Q) : Q := fl (fl a + fl b).

(** [Math.pow(a, n)] for an integer [n], taken as correctly rounded: the
    binary64 number nearest to the power of the binary64 number [a].  An
    engine may return a neighbour of it, which changes a cent only when the
    product with the power lies within that distance of half a cent. *)
Definition Math_pow (a : Q) (n : Z) : Q := fl (fl a ^ n).

(** ** Constants of the borrowing controller *)

Definition BORROW_INTEREST_PCT : Q := 0.10.
Definition MAIN_PERIOD_DAYS : Z := 30.
Definition VALIDITY_PERIOD_DAYS : Z := 7.
Definition msPerDay : Z := 24 * 3600 * 1000.

(** [dateAddDays] on day numbers. *)
Definition dateAddDays (date days : Z) : Z := (date + days)%Z.

(** [new Date().toISOString().slice(0, 10)]: the UTC day of an instant. *)
Definition today_of (now : Z) : Z := (now / msPerDay)%Z.

(** ** Environment *)

Record Config := mkConfig {
  ENV_ADMIN_PASSWORD : string;   (* process.env.ADMIN_PASSWORD, empty when unset *)
  UNIT_PRICE : Q;
  VALIDITY_FEE : Q;
  FINE_AMOUNT : Q;
  tz_offset_ms : Z               (* offset of the server's local time zone *)
}.

(** ** Tables *)

Inductive PoolType := MAIN | VALIDITY.
Inductive Status := OPEN | PAID.
Inductive PaymentType := P_UNIT | P_VALIDITY | P_FINE | P_DEBT_PAYMENT.
Inductive TxType :=
  T_BORROW | T_REPAYMENT | T_PENALTY | T_SAVING | T_FINE
| T_GROUP_ADJUST | T_ADMIN_DELETE_MEMBER | T_ADMIN_RESET.

#[global] Instance PoolType_eq_dec : EqDecision PoolType.
Proof. solve_decision. Defined.
#[global] Instance Status_eq_dec : EqDecision Status.
Proof. solve_decision. Defined.
#[global] Instance PaymentType_eq_dec : EqDecision PaymentType.
Proof. solve_decision. Defined.

Record PersonalBalance := mkPersonal {
  main_savings_balance : Q;
  validity_savings_balance : Q
}.

Record Borrowing := mkBorrowing {
  id : Z;
  person_id : Z;
  pool_type : PoolType;
  principal : Q;
  initial_profit_amount : Q;
  outstanding_amount : Q;
  status : Status;
  due_date : Z;
  last_payment_at : option Z;
  last_penalty_applied_at : option Z
}.

Record Payment := mkPayment {
  pay_person_id : Z;
  pay_type : PaymentType;
  pay_amount : Q;
  effective_date : option Z;
  applied_to_borrowing_id : option Z
}.

Record DailySummary := mkDaily {
  validity_paid : bool;
  units_count : Z;
  fine_amount : Q
}.

(** The JSON payload of a log row. *)
Inductive Details :=
| D_borrow (poolType : PoolType) (principal profit : Q) (borrowingId : Z) (adminOverride : bool)
| D_partial (borrowingId : Z) (partialPayment : Q)
| D_full (borrowingId : Z)
| D_penalty (borrowingId : Z) (periods : Z)
| D_saving (date : Z) (appliedUnits : Z) (appliedValidity : Q)
| D_retro (date : Z) (appliedUnits : Z) (appliedUnitsAmount appliedValidityAmount fineToCharge : Q)
| D_fine (date : Z)
| D_member_created
| D_deleted (deleted_person_id : Z)
| D_reset.

Record LogEntry := mkLog {
  log_person_id : option Z;
  transaction_type : TxType;
  details : Details;
  amount : Q;
  resulting_person_main_balance : option Q;
  resulting_person_validity_balance : option Q;
  resulting_group_main_balance : option Q;
  resulting_group_validity_balance : option Q
}.

Record Db := mkDb {
  person : gmap Z string;
  next_person_id : Z;
  personal_balance : gmap Z PersonalBalance;
  group_main : option Q;          (* the MAIN row of group_pool, if seeded *)
  group_validity : option Q;      (* the VALIDITY row of group_pool, if seeded *)
  borrowing : list Borrowing;
  next_borrowing_id : Z;
  payment : list Payment;
  daily_summary : gmap (Z * Z) DailySummary;
  transaction_log : list LogEntry
}.

(** The database before any request: [group_pool] is seeded with its two rows. *)
Definition init_db : Db :=
  {| person := ∅; next_person_id := 1; personal_balance := ∅;
     group_main := Some 0; group_validity := Some 0;
     borrowing := []; next_borrowing_id := 1; payment := [];
     daily_summary := ∅; transaction_log := [] |}.

(** Field updates. *)
Definition set_person (f : gmap Z string → gmap Z string) (g : Z → Z) (db : Db) : Db :=
  {| person := f (person db); next_person_id := g (next_person_id db);
     personal_balance := personal_balance db;
     group_main := group_main db; group_validity := group_validity db;
     borrowing := borrowing db; next_borrowing_id := next_borrowing_id db;
     payment := payment db; daily_summary := daily_summary db;
     transaction_log := transaction_log db |}.

Definition set_personal_balance
    (f : gmap Z PersonalBalance → gmap Z PersonalBalance) (db : Db) : Db :=
  {| person := person db; next_person_id := next_person_id db;
     personal_balance := f (personal_balance db);
     group_main := group_main db; group_validity := group_validity db;
     borrowing := borrowing db; next_borrowing_id := next_borrowing_id db;
     payment := payment db; daily_summary := daily_summary db;
     transaction_log := transaction_log db |}.

Definition set_group (fm fv : option Q → option Q) (db : Db) : Db :=
  {| person := person db; next_person_id := next_person_id db;
     personal_balance := personal_balance db;
     group_main := fm (group_main db); group_validity := fv (group_validity db);
     borrowing := borrowing db; next_borrowing_id := next_borrowing_id db;
     payment := payment db; daily_summary := daily_summary db;
     transaction_log := transaction_log db |}.

Definition set_borrowing (f : list Borrowing → list Borrowing) (g : Z → Z) (db : Db) : Db :=
  {| person := person db; next_person_id := next_person_id db;
     personal_balance := personal_balance db;
     group_main := group_main db; group_validity := group_validity db;
     borrowing := f (borrowing db); next_borrowing_id := g (next_borrowing_id db);
     payment := payment db; daily_summary := daily_summary db;
     transaction_log := transaction_log db |}.

Definition set_payment (f : list Payment → list Payment) (db : Db) : Db :=
  {| person := person db; next_person_id := next_person_id db;
     personal_balance := personal_balance db;
     group_main := group_main db; group_validity := group_validity db;
     borrowing := borrowing db; next_borrowing_id := next_borrowing_id db;
     payment := f (payment db); daily_summary := daily_summary db;
     transaction_log := transaction_log db |}.

Definition set_daily_summary
    (f : gmap (Z * Z) DailySummary → gmap (Z * Z) DailySummary) (db : Db) : Db :=
  {| person := person db; next_person_id := next_person_id db;
     personal_balance := personal_balance db;
     group_main := group_main db; group_validity := group_validity db;
     borrowing := borrowing db; next_borrowing_id := next_borrowing_id db;
     payment := payment db; daily_summary := f (daily_summary db);
     transaction_log := transaction_log db |}.

Definition set_transaction_log (f : list LogEntry → list LogEntry) (db : Db) : Db :=
  {| person := person db; next_person_id := next_person_id db;
     personal_balance := personal_balance db;
     group_main := group_main db; group_validity := group_validity db;
     borrowing := borrowing db; next_borrowing_id := next_borrowing_id db;
     payment := payment db; daily_summary := daily_summary db;
     transaction_log := f (transaction_log db) |}.

(** ** Failure kinds

    One constructor per early [return res.status(...)] of the handlers, named
    after the failure kinds of the interface table; a constructor carries the
    fields the response reports. *)
Inductive Err :=
| INVALID_POOL_TYPE
| INVALID_AMOUNT
| NO_PERSONAL_BALANCE
| GROUP_POOL_NOT_INITIALIZED
| BAD_CREDENTIAL
| INSUFFICIENT_SAVED_COUNT (savedCount : Z)
| OPEN_DEBT_EXISTS
| LIMIT_EXCEEDED (allowedLimit : Q)
| INSUFFICIENT_GROUP_FUNDS (available : Q)
| NOT_FOUND
| NOT_OWNER
| NOT_OPEN
| OVERPAYMENT (outstandingAmount : Q)
| UNITS_OUT_OF_RANGE
| DAILY_CAP_EXCEEDED
| UNITS_CAP_EXCEEDED
| DATE_REQUIRED
| DATE_NOT_PAST
| NO_CHANGE_REQUESTED
| NAME_REQUIRED
| MISSING_ID.

(** ** Transactions *)

(** A handler body between [beginTransaction] and [commit]: it reads and
    writes the connection's view of the database and may stop with a
    rejection. *)
Definition Tx (A : Type) : Type := Db → Err + (A * Db).

Definition ret {A} (a : A) : Tx A := λ db, inr (a, db).

Definition bind {A B} (m : Tx A) (k : A → Tx B) : Tx B :=
  λ db, match m db with
        | inl e => inl e
        | inr (a, db') => k a db'
        end.

(** [await conn.rollback(); return res.status(...)]. *)
Definition reject {A} (e : Err) : Tx A := λ _, inl e.

(** A [SELECT]. *)
Definition query {A} (f : Db → A) : Tx A := λ db, inr (f db, db).

(** An [INSERT], [UPDATE] or [DELETE]. *)
Definition exec (f : Db → Db) : Tx unit := λ db, inr (tt, f db).

Definition when (b : bool) (m : Tx unit) : Tx unit := if b then m else ret tt.

Declare Scope tx_scope.
Delimit Scope tx_scope with tx.
Notation "x <~ m ;; k" := (bind m (λ x, k))
  (at level 100, m at next level, right associativity) : tx_scope.
Notation "m ;;; k" := (bind m (λ _, k))
  (at level 100, right associativity) : tx_scope.

(** The outcome of a request: the response and the database after it. *)
Definition Outcome (A : Type) : Type := (Err + A) * Db.

(** [beginTransaction ... commit], with [rollback] on every rejection. *)
Definition transaction {A} (m : Tx A) (db : Db) : Outcome A :=
  match m db with
  | inl e => (inl e, db)
  | inr (a, db') => (inr a, db')
  end.

(** A rejection before the connection is opened. *)
Definition refuse {A} (e : Err) (db : Db) : Outcome A := (inl e, db).

(** ** Queries shared by the controllers *)

(** [['MAIN', 'VALIDITY'].includes(poolType)]. *)
Definition parse_pool (s : string) : option PoolType :=
  if String.eqb s "MAIN" then Some MAIN
  else if String.eqb s "VALIDITY" then Some VALIDITY
  else None.

(** [SELECT balance FROM group_pool WHERE pool_type = ?]. *)
Definition group_balance (pt : PoolType) (db : Db) : option Q :=
  match pt with
  | MAIN => group_main db
  | VALIDITY => group_validity db
  end.

(** The effect of an [UPDATE group_pool ... WHERE pool_type = pt] on the row
    of pool [here]; a pool that was never seeded has no row to touch. *)
Definition on_pool (pt here : PoolType) (f : Q → Q) (row : option Q) : option Q :=
  if bool_decide (pt = here) then f <$> row else row.

(** [UPDATE group_pool SET balance = balance + ? WHERE pool_type = ?]. *)
Definition add_group (pt : PoolType) (x : Q) : Db → Db :=
  set_group (on_pool pt MAIN (λ b, b + x)) (on_pool pt VALIDITY (λ b, b + x)).

(** [UPDATE group_pool SET balance = balance - ? WHERE id = ?], for the id of
    the row selected by pool type. *)
Definition sub_group (pt : PoolType) (x : Q) : Db → Db :=
  set_group (on_pool pt MAIN (λ b, b - x)) (on_pool pt VALIDITY (λ b, b - x)).

(** [SELECT COUNT( * ) FROM payment WHERE person_id = ? AND type = "UNIT"]. *)
Definition count_unit_payments (personId : Z) (db : Db) : Z :=
  Z.of_nat (length (List.filter
    (λ p, bool_decide (pay_person_id p = personId) && bool_decide (pay_type p = P_UNIT))
    (payment db))).

Definition is_open_of (personId : Z) (poolType : PoolType) (b : Borrowing) : bool :=
  bool_decide (person_id b = personId) && bool_decide (status b = OPEN)
  && bool_decide (pool_type b = poolType).

(** [SELECT * FROM borrowing WHERE person_id = ? AND pool_type = ? AND status = "OPEN"]. *)
Definition open_borrowings (personId : Z) (poolType : PoolType) (db : Db) : list Borrowing :=
  List.filter (is_open_of personId poolType) (borrowing db).

(** [SELECT * FROM borrowing WHERE id = ?], first row. *)
Definition borrowing_by_id (borrowingId : Z) (db : Db) : option Borrowing :=
  List.find (λ b, bool_decide (id b = borrowingId)) (borrowing db).

(** The effect of [UPDATE borrowing SET ... WHERE id = ?] on one row. *)
Definition touch (borrowingId : Z) (f : Borrowing → Borrowing) (b : Borrowing) : Borrowing :=
  if bool_decide (id b = borrowingId) then f b else b.

(** [UPDATE borrowing SET ... WHERE id = ?]. *)
Definition update_borrowing (borrowingId : Z) (f : Borrowing → Borrowing) : Db → Db :=
  set_borrowing (List.map (touch borrowingId f)) (λ n, n).

(** [INSERT INTO borrowing (...)]: the row gets the next auto-increment id,
    status OPEN and no timestamps; the result is [insertId]. *)
Definition insert_borrowing (personId : Z) (poolType : PoolType)
    (amt profit outstanding : Q) (dueDate : Z) : Tx Z :=
  λ db,
    let insertId := next_borrowing_id db in
    let row := {| id := insertId; person_id := personId; pool_type := poolType;
                  principal := amt; initial_profit_amount := profit;
                  outstanding_amount := outstanding; status := OPEN;
                  due_date := dueDate; last_payment_at := None;
                  last_penalty_applied_at := None |} in
    inr (insertId, set_borrowing (λ rows, rows ++ [row]) (λ n, (n + 1)%Z) db).

Definition insert_payment (p : Payment) : Db → Db := set_payment (λ rows, rows ++ [p]).

Definition insert_log (l : LogEntry) : Db → Db := set_transaction_log (λ rows, rows ++ [l]).

(** A value that JavaScript treats as false where a password is expected:
    a missing field or the empty string. *)
Definition falsy (s : option string) : bool :=
  match s with
  | None => true
  | Some s => bool_decide (s = "")
  end.

Definition when_pool (pt here : PoolType) (x : option Q) : option Q :=
  if bool_decide (pt = here) then x else None.

Definition person_pool_balance (poolType : PoolType) (personal : PersonalBalance) : Q :=
  match poolType with
  | MAIN => main_savings_balance personal
  | VALIDITY => validity_savings_balance personal
  end.

Definition period_days (poolType : PoolType) : Z :=
  match poolType with
  | MAIN => MAIN_PERIOD_DAYS
  | VALIDITY => VALIDITY_PERIOD_DAYS
  end.

(** ** borrowingController.js *)

Record BorrowReq := mkBorrowReq {
  br_personId : Z;
  br_poolType : string;
  br_amount : Q;
  br_adminOverride : bool;
  br_adminPassword : option string
}.

Record BorrowOk := mkBorrowOk {
  bo_borrowingId : Z;
  bo_outstanding : Q;
  bo_dueDate : Z;
  bo_adminOverride : bool
}.

Open Scope tx_scope.

(** The password gate of [borrow]: [isAdminOverride]. *)
Definition check_override (cfg : Config) (req : BorrowReq) : Tx bool :=
  if br_adminOverride req then
    let ADMIN_PW := ENV_ADMIN_PASSWORD cfg in
    if falsy (br_adminPassword req)
       || negb (bool_decide (br_adminPassword req = Some ADMIN_PW))
    then reject BAD_CREDENTIAL
    else ret true
  else ret false.

(** [POST /api/people/:id/borrow]. *)
Definition borrow (cfg : Config) (now : Z) (req : BorrowReq) : Db → Outcome BorrowOk :=
  let personId := br_personId req in
  let amt := br_amount req in
  match parse_pool (br_poolType req) with
  | None => refuse INVALID_POOL_TYPE
  | Some poolType =>
    if Qle_bool amt 0 then refuse INVALID_AMOUNT
    else transaction (
      personalRows <~ query (λ db, personal_balance db !! personId) ;;
      match personalRows with
      | None => reject NO_PERSONAL_BALANCE
      | Some personal =>
        groupRows <~ query (group_balance poolType) ;;
        match groupRows with
        | None => reject GROUP_POOL_NOT_INITIALIZED
        | Some group =>
          isAdminOverride <~ check_override cfg req ;;
          (when (negb isAdminOverride) (
             savedCount <~ query (count_unit_payments personId) ;;
             if (savedCount <? 3)%Z then reject (INSUFFICIENT_SAVED_COUNT savedCount)
             else ret tt)) ;;;
          (when (negb isAdminOverride) (
             openBorrowings <~ query (open_borrowings personId poolType) ;;
             if (Z.of_nat (length openBorrowings) >? 0)%Z then reject OPEN_DEBT_EXISTS
             else ret tt)) ;;;
          let personPoolBalance := person_pool_balance poolType personal in
          let allowedLimit := round2 (fmul personPoolBalance 1.30) in
          if negb isAdminOverride && Qgtb amt allowedLimit
          then reject (LIMIT_EXCEEDED allowedLimit)
          else
            let groupBalance := group in
            if Qgtb amt groupBalance
            then reject (INSUFFICIENT_GROUP_FUNDS groupBalance)
            else
              let profit := round2 (fmul amt BORROW_INTEREST_PCT) in
              let outstanding := round2 (amt + profit) in
              let periodDays := period_days poolType in
              let today := today_of now in
              let dueDate := dateAddDays today periodDays in
              insertId <~ insert_borrowing personId poolType amt profit outstanding dueDate ;;
              (exec (sub_group poolType amt)) ;;;
              resultGroupBalance <~ query (group_balance poolType) ;;
              (exec (insert_log
                 {| log_person_id := Some personId; transaction_type := T_BORROW;
                    details := D_borrow poolType amt profit insertId isAdminOverride;
                    amount := amt;
                    resulting_person_main_balance := None;
                    resulting_person_validity_balance := None;
                    resulting_group_main_balance := when_pool poolType MAIN resultGroupBalance;
                    resulting_group_validity_balance :=
                      when_pool poolType VALIDITY resultGroupBalance |})) ;;;
              ret {| bo_borrowingId := insertId; bo_outstanding := outstanding;
                     bo_dueDate := dueDate; bo_adminOverride := isAdminOverride |}
        end
      end)
  end.

Record RepayReq := mkRepayReq {
  rp_personId : Z;
  rp_borrowingId : Z;
  rp_amount : Q
}.

Record RepayOk := mkRepayOk {
  ro_newOutstanding : Q;
  ro_status : Status
}.

Definition settle (newOutstanding : Q) (newStatus : Status) (now : Z) (b : Borrowing) : Borrowing :=
  {| id := id b; person_id := person_id b; pool_type := pool_type b;
     principal := principal b; initial_profit_amount := initial_profit_amount b;
     outstanding_amount := newOutstanding; status := newStatus;
     due_date := due_date b; last_payment_at := Some now;
     last_penalty_applied_at := last_penalty_applied_at b |}.

(** [POST /api/people/:id/repay]. *)
Definition repay (now : Z) (req : RepayReq) : Db → Outcome RepayOk :=
  let personId := rp_personId req in
  let borrowingId := rp_borrowingId req in
  let amt := rp_amount req in
  if Qle_bool amt 0 then refuse INVALID_AMOUNT
  else transaction (
    borrowRows <~ query (borrowing_by_id borrowingId) ;;
    match borrowRows with
    | None => reject NOT_FOUND
    | Some borrow =>
      if negb (bool_decide (person_id borrow = personId)) then reject NOT_OWNER
      else if negb (bool_decide (status borrow = OPEN)) then reject NOT_OPEN
      else
        let outstanding := outstanding_amount borrow in
        if Qgtb amt outstanding then reject (OVERPAYMENT outstanding)
        else
          let newOutstanding := round2 (outstanding - amt) in
          let newStatus := if Qeq_bool newOutstanding 0 then PAID else OPEN in
          (exec (update_borrowing borrowingId (settle newOutstanding newStatus now))) ;;;
          (exec (add_group (pool_type borrow) amt)) ;;;
          (exec (insert_payment
             {| pay_person_id := personId; pay_type := P_DEBT_PAYMENT; pay_amount := amt;
                effective_date := None; applied_to_borrowing_id := Some borrowingId |})) ;;;
          gpBalance <~ query (group_balance (pool_type borrow)) ;;
          (exec (insert_log
             {| log_person_id := Some personId; transaction_type := T_REPAYMENT;
                details := D_partial borrowingId amt; amount := amt;
                resulting_person_main_balance := None;
                resulting_person_validity_balance := None;
                resulting_group_main_balance := when_pool (pool_type borrow) MAIN gpBalance;
                resulting_group_validity_balance :=
                  when_pool (pool_type borrow) VALIDITY gpBalance |})) ;;;
          ret {| ro_newOutstanding := newOutstanding; ro_status := newStatus |}
    end).

Record PayFullReq := mkPayFullReq {
  pf_personId : Z;
  pf_poolType : string
}.

Record PayFullOk := mkPayFullOk {
  po_borrowingId : Z;
  po_paidAmount : Q
}.

(** [POST /api/people/:id/pay_full]. *)
Definition payFull (now : Z) (req : PayFullReq) : Db → Outcome PayFullOk :=
  let personId := pf_personId req in
  match parse_pool (pf_poolType req) with
  | None => refuse INVALID_POOL_TYPE
  | Some poolType =>
    transaction (
      rows <~ query (open_borrowings personId poolType) ;;
      match rows with
      | [] => reject NOT_FOUND
      | b :: _ =>
        let outstanding := outstanding_amount b in
        (exec (update_borrowing (id b) (settle 0 PAID now))) ;;;
        (exec (add_group poolType outstanding)) ;;;
        (exec (insert_payment
           {| pay_person_id := personId; pay_type := P_DEBT_PAYMENT;
              pay_amount := outstanding; effective_date := None;
              applied_to_borrowing_id := Some (id b) |})) ;;;
        gpBalance <~ query (group_balance poolType) ;;
        (exec (insert_log
           {| log_person_id := Some personId; transaction_type := T_REPAYMENT;
              details := D_full (id b); amount := outstanding;
              resulting_person_main_balance := None;
              resulting_person_validity_balance := None;
              resulting_group_main_balance := when_pool poolType MAIN gpBalance;
              resulting_group_validity_balance := when_pool poolType VALIDITY gpBalance |})) ;;;
        ret {| po_borrowingId := id b; po_paidAmount := outstanding |}
      end)
  end.

(** ** The standalone group controller: the documented penalty sweep *)

Definition penalize (newOutstanding : Q) (stamp : Z) (b : Borrowing) : Borrowing :=
  {| id := id b; person_id := person_id b; pool_type := pool_type b;
     principal := principal b; initial_profit_amount := initial_profit_amount b;
     outstanding_amount := newOutstanding; status := status b;
     due_date := due_date b; last_payment_at := last_payment_at b;
     last_penalty_applied_at := Some stamp |}.

(** [SELECT * FROM borrowing WHERE status = "OPEN"]. *)
Definition all_open (db : Db) : list Borrowing :=
  List.filter (λ b, bool_decide (status b = OPEN)) (borrowing db).

(** [for (const b of openRows) { ... }], over the rows selected before the loop. *)
Fixpoint for_each {A} (body : A → Tx unit) (rows : list A) : Tx unit :=
  match rows with
  | [] => ret tt
  | b :: rest => (body b) ;;; for_each body rest
  end.

Definition penalty_log (b : Borrowing) (periods : Z) (delta : Q) : LogEntry :=
  {| log_person_id := Some (person_id b); transaction_type := T_PENALTY;
     details := D_penalty (id b) periods; amount := delta;
     resulting_person_main_balance := None; resulting_person_validity_balance := None;
     resulting_group_main_balance := None; resulting_group_validity_balance := None |}.

(** The periods the standalone sweep charges for a row: [None] when the row
    is skipped ([continue]). [due] is midnight UTC of the due date. *)
Definition fullPeriods_of (now : Z) (b : Borrowing) : option Z :=
  let due := (due_date b * msPerDay)%Z in
  if (now <=? due)%Z then None
  else
    let periodDays := match pool_type b with MAIN => 30 | VALIDITY => 7 end%Z in
    let lastApplied := default due (last_penalty_applied_at b) in
    let daysSince := ((now - lastApplied) / msPerDay)%Z in
    let fullPeriods := (daysSince / periodDays)%Z in
    if (fullPeriods <=? 0)%Z then None else Some fullPeriods.

(** [NOW()] as [last_penalty_applied_at] keeps it and the next sweep reads it
    back: a DATETIME column holds whole seconds.  The clock of the database
    is the clock of the server, in the same time zone. *)
Definition sql_now (now : Z) : Z := (now / 1000 * 1000)%Z.

(** [+(origOutstanding * Math.pow(1.10, fullPeriods)).toFixed(2)]. *)
Definition compound_once (origOutstanding : Q) (fullPeriods : Z) : Q :=
  let factor := Math_pow 1.10 fullPeriods in
  round2 (fmul origOutstanding factor).

(** The body of the loop of the standalone [runPenalties]. *)
Definition penalty_body (now : Z) (b : Borrowing) : Tx unit :=
  match fullPeriods_of now b with
  | None => ret tt
  | Some fullPeriods =>
    let origOutstanding := outstanding_amount b in
    let newOutstanding := compound_once origOutstanding fullPeriods in
    (exec (update_borrowing (id b) (penalize newOutstanding (sql_now now)))) ;;;
    exec (insert_log (penalty_log b fullPeriods (round2 (newOutstanding - origOutstanding))))
  end.

(** [runPenalties] of the group controller. *)
Definition runPenalties (now : Z) : Db → Outcome unit :=
  transaction (
    openRows <~ query all_open ;;
    for_each (penalty_body now) openRows).

(** ** adminController.js *)

(** [process.env.ADMIN_PASSWORD || 'admin']. *)
Definition ADMIN_PASSWORD (cfg : Config) : string :=
  if bool_decide (ENV_ADMIN_PASSWORD cfg = "") then "admin" else ENV_ADMIN_PASSWORD cfg.

(** The periods the admin sweep charges for a row. [due] is midnight of the
    due date in the server's local time zone; the period is 30 days for
    every pool. *)
Definition admin_periods_of (cfg : Config) (now : Z) (b : Borrowing) : option Z :=
  let due := (due_date b * msPerDay - tz_offset_ms cfg)%Z in
  if (now <=? due)%Z then None
  else
    let periodDays := 30%Z in
    let lastApplied := default due (last_penalty_applied_at b) in
    let elapsedDays := ((now - lastApplied) / msPerDay)%Z in
    let periods := (elapsedDays / periodDays)%Z in
    if (periods <=? 0)%Z then None else Some periods.

(** [for (let i = 0; i < periods; i++) newOutstanding = +(newOutstanding * (1 + PENALTY_PCT)).toFixed(2)]. *)
Definition compound_each (originalOutstanding : Q) (periods : Z) : Q :=
  let PENALTY_PCT := 0.10 in
  Nat.iter (Z.to_nat periods)
    (λ newOutstanding, round2 (fmul newOutstanding (fadd 1 PENALTY_PCT)))
    originalOutstanding.

(** [new Date().toISOString().slice(0, 19)] written to a DATETIME column and read
    back in the server's local time zone. *)
Definition admin_stamp (cfg : Config) (now : Z) : Z :=
  (now / 1000 * 1000 - tz_offset_ms cfg)%Z.

(** The body of the loop of the admin [runPenalties]. *)
Definition admin_penalty_body (cfg : Config) (now : Z) (b : Borrowing) : Tx unit :=
  match admin_periods_of cfg now b with
  | None => ret tt
  | Some periods =>
    let originalOutstanding := outstanding_amount b in
    let newOutstanding := compound_each originalOutstanding periods in
    let penaltyApplied := round2 (newOutstanding - originalOutstanding) in
    (exec (update_borrowing (id b) (penalize newOutstanding (admin_stamp cfg now)))) ;;;
    exec (insert_log (penalty_log b periods penaltyApplied))
  end.

(** [runPenalties] of the admin controller, the one routed at
    [POST /admin/penalties/run]. *)
Definition admin_runPenalties (cfg : Config) (now : Z) : Db → Outcome unit :=
  transaction (
    openRows <~ query all_open ;;
    for_each (admin_penalty_body cfg now) openRows).

Definition system_log (t : TxType) (d : Details) : LogEntry :=
  {| log_person_id := None; transaction_type := t; details := d; amount := 0;
     resulting_person_main_balance := None; resulting_person_validity_balance := None;
     resulting_group_main_balance := None; resulting_group_validity_balance := None |}.

Record DeleteReq := mkDeleteReq {
  dm_person_id : option Z;
  dm_password : option string
}.

(** The five [DELETE FROM tbl WHERE person_id = ?] of [deleteMember]. *)
Definition delete_dependents (pid : Z) (db : Db) : Db :=
  let keep_log l := negb (bool_decide (log_person_id l = Some pid)) in
  let keep_pay p := negb (bool_decide (pay_person_id p = pid)) in
  let keep_bor b := negb (bool_decide (person_id b = pid)) in
  set_personal_balance (delete pid)
    (set_daily_summary (filter (λ kv, fst (fst kv) ≠ pid))
       (set_borrowing (List.filter keep_bor) (λ n, n)
          (set_payment (List.filter keep_pay)
             (set_transaction_log (List.filter keep_log) db)))).

(** [POST /admin/delete-member]. *)
Definition deleteMember (cfg : Config) (req : DeleteReq) : Db → Outcome unit :=
  if falsy (dm_password req)
     || negb (bool_decide (dm_password req = Some (ADMIN_PASSWORD cfg)))
  then refuse BAD_CREDENTIAL
  else
    match dm_person_id req with
    | None => refuse MISSING_ID
    | Some pid =>
      if bool_decide (pid = 0%Z) then refuse MISSING_ID
      else transaction (
        personRows <~ query (λ db, person db !! pid) ;;
        match personRows with
        | None => reject NOT_FOUND
        | Some _ =>
          (exec (delete_dependents pid)) ;;;
          (exec (set_person (delete pid) (λ n, n))) ;;;
          exec (insert_log (system_log T_ADMIN_DELETE_MEMBER (D_deleted pid)))
        end)
    end.

(** The [TRUNCATE]s and the two blanket [UPDATE]s of [resetAll]; truncating
    restarts the auto-increment of [borrowing]. *)
Definition reset_tables (db : Db) : Db :=
  let zero_personal (_ : PersonalBalance) := mkPersonal 0 0 in
  set_group (fmap (λ _, 0)) (fmap (λ _, 0))
    (set_personal_balance (fmap zero_personal)
       (set_daily_summary (λ _, ∅)
          (set_payment (λ _, [])
             (set_borrowing (λ _, []) (λ _, 1%Z)
                (set_transaction_log (λ _, []) db))))).

(** [POST /admin/reset]. *)
Definition resetAll (cfg : Config) (password : option string) : Db → Outcome unit :=
  if falsy password || negb (bool_decide (password = Some (ADMIN_PASSWORD cfg)))
  then refuse BAD_CREDENTIAL
  else transaction (
    (exec reset_tables) ;;;
    exec (insert_log (system_log T_ADMIN_RESET D_reset))).

(** ** savingsController.js *)

Record CreateReq := mkCreateReq {
  cm_name : string;
  cm_adminPassword : option string
}.

(** [POST /api/people]. *)
Definition createMember (cfg : Config) (req : CreateReq) : Db → Outcome Z :=
  if bool_decide (cm_name req = "") then refuse NAME_REQUIRED
  else
    let ADMIN_PW := ENV_ADMIN_PASSWORD cfg in
    if falsy (cm_adminPassword req)
       || negb (bool_decide (cm_adminPassword req = Some ADMIN_PW))
    then refuse BAD_CREDENTIAL
    else transaction (
      personId <~ query next_person_id ;;
      (exec (set_person (insert personId (cm_name req)) (λ n, (n + 1)%Z))) ;;;
      (exec (set_personal_balance (insert personId (mkPersonal 0.00 0.00)))) ;;;
      (exec (insert_log
         {| log_person_id := Some personId; transaction_type := T_GROUP_ADJUST;
            details := D_member_created; amount := 0;
            resulting_person_main_balance := None;
            resulting_person_validity_balance := None;
            resulting_group_main_balance := None;
            resulting_group_validity_balance := None |})) ;;;
      ret personId).

Record SaveReq := mkSaveReq {
  sv_personId : Z;
  sv_units : Z;
  sv_payValidity : bool;
  sv_effectiveDate : option Z
}.

Record Applied := mkApplied {
  appliedUnits : Z;
  appliedUnitsAmount : Q;
  appliedValidityAmount : Q
}.

Record SaveOk := mkSaveOk {
  applied : Applied;
  newBalances : PersonalBalance;
  groupPools_MAIN : Q;
  groupPools_VALIDITY : Q
}.

Definition add_main (x : Q) (p : PersonalBalance) : PersonalBalance :=
  mkPersonal (main_savings_balance p + x) (validity_savings_balance p).

Definition add_validity (x : Q) (p : PersonalBalance) : PersonalBalance :=
  mkPersonal (main_savings_balance p) (validity_savings_balance p + x).

(** [SELECT] the personal row [FOR UPDATE] and [INSERT] a zero row when there is none. *)
Definition ensure_personal (personId : Z) : Tx unit :=
  personalRows <~ query (λ db, personal_balance db !! personId) ;;
  match personalRows with
  | Some _ => ret tt
  | None => exec (set_personal_balance (insert personId (mkPersonal 0.00 0.00)))
  end.

(** The three statements that book a validity fee. *)
Definition apply_validity (personId date : Z) (fee : Q) : Tx unit :=
  (exec (set_personal_balance (alter (add_validity fee) personId))) ;;;
  (exec (insert_payment
     {| pay_person_id := personId; pay_type := P_VALIDITY; pay_amount := fee;
        effective_date := Some date; applied_to_borrowing_id := None |})) ;;;
  exec (add_group VALIDITY fee).

(** The three statements that book a purchase of units. *)
Definition apply_units (personId date : Z) (unitsAmount : Q) : Tx unit :=
  (exec (set_personal_balance (alter (add_main unitsAmount) personId))) ;;;
  (exec (insert_payment
     {| pay_person_id := personId; pay_type := P_UNIT; pay_amount := unitsAmount;
        effective_date := Some date; applied_to_borrowing_id := None |})) ;;;
  exec (add_group MAIN unitsAmount).

Definition mark_validity_paid (d : DailySummary) : DailySummary :=
  mkDaily true (units_count d) (fine_amount d).

Definition add_units (units : Z) (fine : Q) (d : DailySummary) : DailySummary :=
  mkDaily (validity_paid d) (units_count d + units)%Z (fine_amount d + fine).

(** The balances read back for the log and the response. *)
Definition fetch_balances (personId : Z) : Tx (PersonalBalance * Q * Q) :=
  balRows <~ query (λ db, personal_balance db !! personId) ;;
  let personBal := default (mkPersonal 0 0) balRows in
  groupMainRows <~ query (group_balance MAIN) ;;
  let groupMain := default 0 groupMainRows in
  groupValidityRows <~ query (group_balance VALIDITY) ;;
  let groupValidity := default 0 groupValidityRows in
  ret (personBal, groupMain, groupValidity).

Definition saving_log (personId : Z) (d : Details) (amt : Q)
    (personBal : PersonalBalance) (groupMain groupValidity : Q) : LogEntry :=
  {| log_person_id := Some personId; transaction_type := T_SAVING; details := d;
     amount := amt;
     resulting_person_main_balance := Some (main_savings_balance personBal);
     resulting_person_validity_balance := Some (validity_savings_balance personBal);
     resulting_group_main_balance := Some groupMain;
     resulting_group_validity_balance := Some groupValidity |}.

(** The branches of [saveUnitsAndValidity] on the day's summary row; the
    result is [(appliedUnits, appliedValidity)]. *)
Definition save_apply (cfg : Config) (personId date units : Z) (payValidity : bool)
    (existingDaily : option DailySummary) : Tx (Z * Q) :=
  match existingDaily with
  | None =>
    let validityPaidFlag := payValidity in
    let unitsCount := units in
    (exec (set_daily_summary (insert (personId, date) (mkDaily validityPaidFlag unitsCount 0)))) ;;;
    appliedValidity <~
      (if payValidity
       then (apply_validity personId date (VALIDITY_FEE cfg)) ;;; ret (VALIDITY_FEE cfg)
       else ret 0) ;;
    appliedUnits <~
      (if (units >? 0)%Z
       then (apply_units personId date (round2 (inject_Z units * UNIT_PRICE cfg))) ;;; ret units
       else ret 0%Z) ;;
    ret (appliedUnits, appliedValidity)
  | Some daily =>
    appliedValidity <~
      (if payValidity && validity_paid daily then ret 0
       else if payValidity && negb (validity_paid daily)
       then (exec (set_daily_summary (alter mark_validity_paid (personId, date)))) ;;;
            (apply_validity personId date (VALIDITY_FEE cfg)) ;;;
            ret (VALIDITY_FEE cfg)
       else ret 0) ;;
    let newUnits := (units_count daily + units)%Z in
    if (newUnits >? 4)%Z then reject DAILY_CAP_EXCEEDED
    else
      appliedUnits <~
        (if (units >? 0)%Z
         then (exec (set_daily_summary (alter (add_units units 0) (personId, date)))) ;;;
              (apply_units personId date (round2 (inject_Z units * UNIT_PRICE cfg))) ;;;
              ret units
         else ret 0%Z) ;;
      ret (appliedUnits, appliedValidity)
  end.

(** [POST /api/people/:id/save]. *)
Definition saveUnitsAndValidity (cfg : Config) (now : Z) (req : SaveReq) : Db → Outcome SaveOk :=
  let personId := sv_personId req in
  let units := sv_units req in
  let payValidity := sv_payValidity req in
  let date := default (today_of now) (sv_effectiveDate req) in
  if (units <? 0)%Z || (units >? 4)%Z then refuse UNITS_OUT_OF_RANGE
  else transaction (
    (ensure_personal personId) ;;;
    existingDaily <~ query (λ db, daily_summary db !! (personId, date)) ;;
    r <~ save_apply cfg personId date units payValidity existingDaily ;;
    let '(appliedUnits, appliedValidity) := r in
    r <~ fetch_balances personId ;;
    let '(personBal, groupMain, groupValidity) := r in
    let appliedUnitsAmount := round2 (inject_Z appliedUnits * UNIT_PRICE cfg) in
    let appliedValidityAmount := appliedValidity in
    let savedAmount := round2 (appliedUnitsAmount + appliedValidityAmount) in
    (when (Qgtb savedAmount 0)
       (exec (insert_log (saving_log personId
          (D_saving date appliedUnits appliedValidityAmount) savedAmount
          personBal groupMain groupValidity)))) ;;;
    ret {| applied := mkApplied appliedUnits appliedUnitsAmount appliedValidityAmount;
           newBalances := personBal;
           groupPools_MAIN := groupMain; groupPools_VALIDITY := groupValidity |}).

Record RetroReq := mkRetroReq {
  rf_personId : Z;
  rf_date : option Z;
  rf_addUnits : Z;
  rf_payValidityIfMissing : bool
}.

Record RetroApplied := mkRetroApplied {
  rf_appliedUnits : Z;
  rf_appliedUnitsAmount : Q;
  rf_appliedValidityAmount : Q;
  fineApplied : Q
}.

Record RetroOk := mkRetroOk {
  rf_applied : RetroApplied;
  rf_newBalances : PersonalBalance;
  rf_groupPools_MAIN : Q;
  rf_groupPools_VALIDITY : Q
}.

(** The branches of [retroactiveFill] on the day's summary row; the result
    is [(appliedUnits, appliedUnitsAmount, appliedValidityAmount, fineToCharge)]. *)
Definition retro_apply (cfg : Config) (personId date addUnits : Z)
    (payValidityIfMissing : bool) (daily : option DailySummary) : Tx (Z * Q * Q * Q) :=
  match daily with
  | None =>
    let fineToCharge := if (addUnits >? 0)%Z then FINE_AMOUNT cfg else 0 in
    let validityPaid := payValidityIfMissing in
    (exec (set_daily_summary
       (insert (personId, date) (mkDaily validityPaid addUnits fineToCharge)))) ;;;
    appliedValidityAmount <~
      (if payValidityIfMissing
       then (apply_validity personId date (VALIDITY_FEE cfg)) ;;; ret (VALIDITY_FEE cfg)
       else ret 0) ;;
    r <~ (if (addUnits >? 0)%Z
       then let a := round2 (inject_Z addUnits * UNIT_PRICE cfg) in
            (apply_units personId date a) ;;; ret (addUnits, a)
       else ret (0%Z, 0)) ;;
    let '(appliedUnits, appliedUnitsAmount) := r in
    ret (appliedUnits, appliedUnitsAmount, appliedValidityAmount, fineToCharge)
  | Some daily =>
    let targetUnits := (units_count daily + addUnits)%Z in
    if (targetUnits >? 4)%Z then reject UNITS_CAP_EXCEEDED
    else
      let fineToCharge := if (addUnits >? 0)%Z then FINE_AMOUNT cfg else 0 in
      (exec (set_daily_summary (alter (add_units addUnits fineToCharge) (personId, date)))) ;;;
      appliedValidityAmount <~
        (if payValidityIfMissing && negb (validity_paid daily)
         then (exec (set_daily_summary (alter mark_validity_paid (personId, date)))) ;;;
              (apply_validity personId date (VALIDITY_FEE cfg)) ;;;
              ret (VALIDITY_FEE cfg)
         else ret 0) ;;
      r <~ (if (addUnits >? 0)%Z
         then let a := round2 (inject_Z addUnits * UNIT_PRICE cfg) in
              (apply_units personId date a) ;;; ret (addUnits, a)
         else ret (0%Z, 0)) ;;
      let '(appliedUnits, appliedUnitsAmount) := r in
      ret (appliedUnits, appliedUnitsAmount, appliedValidityAmount, fineToCharge)
  end.

(** The fine of a retroactive fill: credited to the MAIN pool, with its own
    payment and log rows. *)
Definition charge_fine (personId date : Z) (fineToCharge : Q) : Tx unit :=
  (exec (add_group MAIN fineToCharge)) ;;;
  (exec (insert_payment
     {| pay_person_id := personId; pay_type := P_FINE; pay_amount := fineToCharge;
        effective_date := Some date; applied_to_borrowing_id := None |})) ;;;
  gmainBal <~ query (group_balance MAIN) ;;
  exec (insert_log
    {| log_person_id := Some personId; transaction_type := T_FINE; details := D_fine date;
       amount := fineToCharge;
       resulting_person_main_balance := None; resulting_person_validity_balance := None;
       resulting_group_main_balance := gmainBal;
       resulting_group_validity_balance := None |}).

(** [POST /api/people/:id/retroactive]. *)
Definition retroactiveFill (cfg : Config) (now : Z) (req : RetroReq) : Db → Outcome RetroOk :=
  let personId := rf_personId req in
  let addUnits := rf_addUnits req in
  let payValidityIfMissing := rf_payValidityIfMissing req in
  match rf_date req with
  | None => refuse DATE_REQUIRED
  | Some date =>
    let today := today_of now in
    if (date >=? today)%Z then refuse DATE_NOT_PAST
    else if (addUnits <? 0)%Z || (addUnits >? 4)%Z then refuse UNITS_OUT_OF_RANGE
    else if bool_decide (addUnits = 0%Z) && negb payValidityIfMissing
    then refuse NO_CHANGE_REQUESTED
    else transaction (
      (ensure_personal personId) ;;;
      daily <~ query (λ db, daily_summary db !! (personId, date)) ;;
      r <~ retro_apply cfg personId date addUnits payValidityIfMissing daily ;;
      let '(appliedUnits, appliedUnitsAmount, appliedValidityAmount, fineToCharge) := r in
      (when (Qgtb fineToCharge 0) (charge_fine personId date fineToCharge)) ;;;
      let totalApplied := round2 (appliedUnitsAmount + appliedValidityAmount + fineToCharge) in
      r <~ fetch_balances personId ;;
      let '(personBal, groupMain, groupValidity) := r in
      (when (Qgtb totalApplied 0)
         (exec (insert_log (saving_log personId
            (D_retro date appliedUnits appliedUnitsAmount appliedValidityAmount fineToCharge)
            totalApplied personBal groupMain groupValidity)))) ;;;
      ret {| rf_applied := mkRetroApplied appliedUnits appliedUnitsAmount
                             appliedValidityAmount fineToCharge;
             rf_newBalances := personBal;
             rf_groupPools_MAIN := groupMain; rf_groupPools_VALIDITY := groupValidity |})
  end.

(** ** Requests and runs *)

Inductive Op :=
| Borrow (now : Z) (req : BorrowReq)
| Repay (now : Z) (req : RepayReq)
| PayFull (now : Z) (req : PayFullReq)
| RunPenalties (now : Z)
| AdminRunPenalties (now : Z)
| DeleteMember (req : DeleteReq)
| ResetAll (password : option string)
| CreateMember (req : CreateReq)
| Save (now : Z) (req : SaveReq)
| RetroactiveFill (now : Z) (req : RetroReq).

(** The database after a request. *)
Definition step (cfg : Config) (op : Op) (db : Db) : Db :=
  match op with
  | Borrow now req => snd (borrow cfg now req db)
  | Repay now req => snd (repay now req db)
  | PayFull now req => snd (payFull now req db)
  | RunPenalties now => snd (runPenalties now db)
  | AdminRunPenalties now => snd (admin_runPenalties cfg now db)
  | DeleteMember req => snd (deleteMember cfg req db)
  | ResetAll password => snd (resetAll cfg password db)
  | CreateMember req => snd (createMember cfg req db)
  | Save now req => snd (saveUnitsAndValidity cfg now req db)
  | RetroactiveFill now req => snd (retroactiveFill cfg now req db)
  end.

(** The database after a sequence of requests, oldest first. *)
Definition run (cfg : Config) (ops : list Op) (db : Db) : Db :=
  fold_left (λ d op, step cfg op d) ops db.


(** ** The sweeps, row by row *)

(** The row the standalone sweep leaves for a row [r] of the table. *)
Definition swept (now : Z) (r : Borrowing) : Borrowing :=
  if bool_decide (status r = OPEN) then
    match fullPeriods_of now r with
    | Some fullPeriods =>
      penalize (compound_once (outstanding_amount r) fullPeriods) (sql_now now) r
    | None => r
    end
  else r.

(** The row the admin sweep leaves for a row [r] of the table. *)
Definition admin_swept (cfg : Config) (now : Z) (r : Borrowing) : Borrowing :=
  if bool_decide (status r = OPEN) then
    match admin_periods_of cfg now r with
    | Some periods =>
      penalize (compound_each (outstanding_amount r) periods) (admin_stamp cfg now) r
    | None => r
    end
  else r.

(** ** Properties of a database *)

(** No daily summary counts more than four units. *)
Definition units_capped (db : Db) : Prop :=
  ∀ k d, daily_summary db !! k = Some d → (units_count d ≤ 4)%Z.

(** No person has two OPEN borrowings in one pool. *)
Definition at_most_one_open (db : Db) : Prop :=
  ∀ personId poolType, (length (open_borrowings personId poolType db) ≤ 1)%nat.

(** The ids of [borrowing] are a primary key handed out by the
    auto-increment counter. *)
Definition ids_fresh (db : Db) : Prop :=
  List.NoDup (List.map id (borrowing db))
  ∧ Forall (λ i, (i < next_borrowing_id db)%Z) (List.map id (borrowing db)).

(** What identifies a borrowing for the selections of the handlers. *)
Definition row_key (b : Borrowing) : Z * Z * PoolType * Status :=
  (id b, person_id b, pool_type b, status b).

(** [db'] differs from [db] at most in amounts and timestamps of borrowings
    and in the log. *)
Definition penalized_from (db db' : Db) : Prop :=
  List.map row_key (borrowing db') = List.map row_key (borrowing db)
  ∧ next_borrowing_id db' = next_borrowing_id db
  ∧ daily_summary db' = daily_summary db
  ∧ personal_balance db' = personal_balance db
  ∧ group_main db' = group_main db
  ∧ group_validity db' = group_validity db.

(** The request is a borrow whose admin override is granted: the flag is set
    and the password is the configured, non-empty one. *)
Definition override_granted (cfg : Config) (op : Op) : bool :=
  match op with
  | Borrow _ req =>
    br_adminOverride req && negb (falsy (br_adminPassword req))
    && bool_decide (br_adminPassword req = Some (ENV_ADMIN_PASSWORD cfg))
  | _ => false
  end.

(** The request is a save or a retroactive fill. *)
Definition is_saving (op : Op) : bool :=
  match op with
  | Save _ _ | RetroactiveFill _ _ => true
  | _ => false
  end.

(** ** Example runs *)

Definition secret : option string := Some "secret".
Definition cfg250 : Config := mkConfig "secret" 250 100 500 0.
Definition cfg500 : Config := mkConfig "secret" 500 100 500 0.
Definition day0 : Z := 20000.
Definition noon0 : Z := (day0 * msPerDay + 12 * 3600 * 1000)%Z.

(** Two members, ann (id 1) and bob (id 2). *)
Definition two_members : list Op :=
  [CreateMember (mkCreateReq "ann" secret); CreateMember (mkCreateReq "bob" secret)].

(** At a unit price of 250: ann buys 1, 1 and 2 units on one day (three UNIT
    payments, balance 1000.00) and bob buys 4 units on each of four days,
    which brings the MAIN pool to 5000.00. *)
Definition ops_at_limit : list Op :=
  two_members ++
  [Save noon0 (mkSaveReq 1 1 false None);
   Save noon0 (mkSaveReq 1 1 false None);
   Save noon0 (mkSaveReq 1 2 false None);
   Save noon0 (mkSaveReq 2 4 false (Some (day0 - 3)%Z));
   Save noon0 (mkSaveReq 2 4 false (Some (day0 - 2)%Z));
   Save noon0 (mkSaveReq 2 4 false (Some (day0 - 1)%Z));
   Save noon0 (mkSaveReq 2 4 false None)].

Definition db_at_limit : Db := run cfg250 ops_at_limit init_db.

Definition borrow_1300 : BorrowReq := mkBorrowReq 1 "MAIN" 1300 false None.

(** At a unit price of 500: ann buys 2 units in one request (one UNIT payment,
    balance 1000.00) and bob buys 4 units (MAIN pool 3000.00). *)
Definition ops_one_payment : list Op :=
  two_members ++
  [Save noon0 (mkSaveReq 1 2 false None);
   Save noon0 (mkSaveReq 2 4 false None)].

Definition db_one_payment : Db := run cfg500 ops_one_payment init_db.

Definition borrow_1301 : BorrowReq := mkBorrowReq 1 "MAIN" 1301 false None.

(** Requests with the admin override and the right password. *)
Definition override_100 : BorrowReq := mkBorrowReq 1 "MAIN" 100 true secret.
Definition override_9000 : BorrowReq := mkBorrowReq 1 "MAIN" 9000 true secret.

(** ann's loan of 1300.00 (borrowing 1, outstanding 1430.00) and its repayment
    in full. *)
Definition db_borrowed : Db := step cfg250 (Borrow noon0 borrow_1300) db_at_limit.
Definition repay_1430 : RepayReq := mkRepayReq 1 1 1430.

(** Two borrowings of 100.00 from MAIN for ann, both under admin override. *)
Definition ops_two_open : list Op :=
  ops_one_payment ++ [Borrow noon0 override_100; Borrow noon0 override_100].

Definition db_two_open : Db := run cfg500 ops_two_open init_db.
Definition pay_full_main : PayFullReq := mkPayFullReq 1 "MAIN".

(** A fifth unit for ann on the day she already bought four, and two saves
    that ask for the validity fee on one day. *)
Definition save_fifth : SaveReq := mkSaveReq 1 1 false None.
Definition save_validity : SaveReq := mkSaveReq 2 0 true (Some (day0 + 1)%Z).

(** ann pays the validity fee for two days and bob for one (VALIDITY pool
    300.00, ann's validity balance 200.00); ann then borrows 909.13 from MAIN
    (borrowing 1, outstanding 1000.04, due on day0 + 30) and 100.00 from
    VALIDITY (borrowing 2, outstanding 110.00, due on day0 + 7). *)
Definition ops_debts : list Op :=
  ops_at_limit ++
  [Save noon0 (mkSaveReq 1 0 true (Some (day0 - 1)%Z));
   Save noon0 (mkSaveReq 1 0 true None);
   Save noon0 (mkSaveReq 2 0 true None);
   Borrow noon0 (mkBorrowReq 1 "MAIN" 909.13 false None);
   Borrow noon0 (mkBorrowReq 1 "VALIDITY" 100 false None)].

Definition db_debts : Db := run cfg250 ops_debts init_db.

(** One hour into the day that lies 14 days after the due date of the
    VALIDITY borrowing, and one hour into the day 60 days after the due date
    of the MAIN borrowing. *)
Definition overdue_14_days : Z := ((day0 + 7 + 14) * msPerDay + 3600 * 1000)%Z.
Definition overdue_60_days : Z := ((day0 + 30 + 60) * msPerDay + 3600 * 1000)%Z.

(** The outstanding amount of a borrowing. *)
Definition outstanding_of (borrowingId : Z) (db : Db) : option Q :=
  outstanding_amount <$> borrowing_by_id borrowingId db.

(** A late unit for bob on the eve of [day0], a day on which he bought four. *)
Definition fill_fifth : RetroReq := mkRetroReq 2 (Some (day0 - 1)%Z) 1 false.


(** A request for more than the MAIN pool holds, without override. *)
Definition borrow_9000 : BorrowReq := mkBorrowReq 1 "MAIN" 9000 false None.

(** At a unit price of 1.05: ann buys one unit three times (three UNIT
    payments, balance 3.15) and bob buys 4 units (MAIN pool 7.35).  1.30
    times 3.15 is 4.095, half a cent above 4.09. *)
Definition cfg105 : Config := mkConfig "secret" 1.05 100 500 0.

Definition ops_half_cent : list Op :=
  two_members ++
  [Save noon0 (mkSaveReq 1 1 false None);
   Save noon0 (mkSaveReq 1 1 false None);
   Save noon0 (mkSaveReq 1 1 false None);
   Save noon0 (mkSaveReq 2 4 false None)].

Definition db_half_cent : Db := run cfg105 ops_half_cent init_db.

Definition borrow_4_10 : BorrowReq := mkBorrowReq 1 "MAIN" 4.10 false None.
Definition borrow_4_09 : BorrowReq := mkBorrowReq 1 "MAIN" 4.09 false None.

(** ** Read-only handlers *)

(** [SELECT pool_type, balance FROM group_pool], the response of
    [getGroupPools]. *)
Definition getGroupPools (db : Db) : list (PoolType * Q) :=
  from_option (λ b, [(MAIN, b)]) [] (group_main db)
  ++ from_option (λ b, [(VALIDITY, b)]) [] (group_validity db).

(** [SELECT SUM(units_count) AS total_units FROM daily_summary]: NULL on an
    empty table. *)
Definition sum_units (db : Db) : option Z :=
  if bool_decide (daily_summary db = ∅) then None
  else Some (map_fold (λ _ d acc, (units_count d + acc)%Z) 0%Z (daily_summary db)).

Record ShareOk := mkShareOk {
  total_savings : Q;
  total_units : Z;
  share_per_unit : Q
}.

(** [GET /api/admin/share]. *)
Definition getShare (db : Db) : ShareOk :=
  let pools := getGroupPools db in
  let total_savings := fold_left (λ acc p, acc + snd p) pools 0 in
  let total_units := default 0%Z (sum_units db) in
  let share_per_unit :=
    if bool_decide (total_units = 0%Z) then 0 else total_savings / inject_Z total_units in
  {| total_savings := round2 total_savings; total_units := total_units;
     share_per_unit := round2 share_per_unit |}.

(** [GET /api/people/:id/meta]: [savedCount]. *)
Definition getPersonMeta (personId : Z) (db : Db) : Z := count_unit_payments personId db.

Record BalanceOk := mkBalanceOk {
  bal_person : PersonalBalance;
  bal_openBorrowings : list Borrowing;
  bal_groupPools : list (PoolType * Q)
}.

(** [GET /api/people/:id/balance]. *)
Definition getPersonBalance (personId : Z) (db : Db) : BalanceOk :=
  let personal := default (mkPersonal 0 0) (personal_balance db !! personId) in
  let borrowings :=
    List.filter (λ b, bool_decide (person_id b = personId) && bool_decide (status b = OPEN))
      (borrowing db) in
  {| bal_person := personal; bal_openBorrowings := borrowings;
     bal_groupPools := getGroupPools db |}.

(** ** More properties of a database and of a handler body *)

(** Every state change a handler body can commit is within [R]. *)
Definition tx_rel {A} (R : Db → Db → Prop) (m : Tx A) : Prop :=
  ∀ db a db', m db = inr (a, db') → R db db'.

(** [db'] has the log and the payments of [db], followed by new rows. *)
Definition appended (db db' : Db) : Prop :=
  (∃ l, transaction_log db' = transaction_log db ++ l)
  ∧ (∃ p, payment db' = payment db ++ p).

(** [db'] has the members of [db] and the same auto-increment counter. *)
Definition same_people (db db' : Db) : Prop :=
  person db' = person db ∧ next_person_id db' = next_person_id db.

(** The request is one of the two admin clean-ups. *)
Definition is_admin_wipe (op : Op) : bool :=
  match op with
  | DeleteMember _ | ResetAll _ => true
  | _ => false
  end.

(** No borrowing owes a negative amount. *)
Definition debts_nonneg (db : Db) : Prop :=
  Forall (λ b, 0 <= outstanding_amount b) (borrowing db).

(** The members' ids were handed out by the auto-increment counter. *)
Definition person_ids_fresh (db : Db) : Prop :=
  ∀ k, is_Some (person db !! k) → (k < next_person_id db)%Z.

(** [SELECT SUM(units_count)] as a number. *)
Definition units_sold (db : Db) : Z := default 0%Z (sum_units db).

(** [db'] has the payments and the members of [db], and its log followed by
    PENALTY rows. *)
Definition penalty_logged (db db' : Db) : Prop :=
  payment db' = payment db ∧ person db' = person db
  ∧ ∃ l, transaction_log db' = transaction_log db ++ l
         ∧ Forall (λ e, transaction_type e = T_PENALTY) l.

(** [db'] has the daily summaries of [db]. *)
Definition same_days (db db' : Db) : Prop := daily_summary db' = daily_summary db.

(** No daily summary counts a negative number of units. *)
Definition units_nonneg (db : Db) : Prop :=
  ∀ k d, daily_summary db !! k = Some d → (0 ≤ units_count d)%Z.

(** ** The ledger as a whole *)

Definition Qsum (l : list Q) : Q := fold_right Qplus 0 l.

(** The amounts of all payments, the principals of all borrowings and the
    balances of the two pools. *)
Definition paid_in (db : Db) : Q := Qsum (List.map pay_amount (payment db)).
Definition lent_out (db : Db) : Q := Qsum (List.map principal (borrowing db)).
Definition pools_total (db : Db) : Q :=
  default 0 (group_main db) + default 0 (group_validity db).

(** Both pools are seeded and hold, together, what was paid in minus what
    was lent out. *)
Definition balanced (db : Db) : Prop :=
  is_Some (group_main db) ∧ is_Some (group_validity db)
  ∧ pools_total db == paid_in db - lent_out db.

(** [db'] has the payments, the pools and the principals of [db]. *)
Definition same_ledger (db db' : Db) : Prop :=
  payment db' = payment db
  ∧ group_main db' = group_main db ∧ group_validity db' = group_validity db
  ∧ List.map principal (borrowing db') = List.map principal (borrowing db).

Definition is_delete (op : Op) : bool :=
  match op with
  | DeleteMember _ => true
  | _ => false
  end.
(** * Properties *)

Close Scope tx_scope.

(** ** Rounding *)

Lemma Qgtb_true (x y : Q) : Qgtb x y = true ↔ y < x.
Proof.
  unfold Qgtb. rewrite negb_true_iff, <- not_true_iff_false, Qle_bool_iff.
  split; [apply Qnot_le_lt | apply Qlt_not_le].
Qed.

Lemma Qgtb_false (x y : Q) : Qgtb x y = false ↔ x <= y.
Proof. unfold Qgtb. rewrite negb_false_iff. apply Qle_bool_iff. Qed.

(** Rounding only looks at the value of a number, not at its representation. *)
Lemma round2_comp (x y : Q) : x == y → round2 x = round2 y.
Proof.
  intros E. unfold round2, toFixed2_nonneg.
  assert (Qle_bool 0 x = Qle_bool 0 y) as -> by (rewrite E; reflexivity).
  assert (Qfloor (x * 100 + 0.5) = Qfloor (y * 100 + 0.5)) as -> by (rewrite E; reflexivity).
  assert (Qfloor (- x * 100 + 0.5) = Qfloor (- y * 100 + 0.5)) as -> by (rewrite E; reflexivity).
  reflexivity.
Qed.

Lemma round2_zero (x : Q) : x == 0 → round2 x = 0 # 100.
Proof. intros E. rewrite (round2_comp x 0 E). reflexivity. Qed.

Lemma round2_cents (x : Q) : ∃ n : Z, round2 x = n # 100 ∨ round2 x = - (n # 100).
Proof. unfold round2, toFixed2_nonneg. destruct (Qle_bool 0 x); eauto. Qed.

Lemma round2_nonneg (x : Q) : 0 <= x → 0 <= round2 x.
Proof.
  intros Hx. unfold round2. rewrite (proj2 (Qle_bool_iff 0 x) Hx).
  unfold toFixed2_nonneg.
  assert (H : (0 <= Qfloor (x * 100 + 0.5))%Z).
  { change 0%Z with (Qfloor 0). apply Qfloor_resp_le. lra. }
  unfold Qle. cbn [Qnum Qden]. lia.
Qed.

(** Rounding to cents moves a number by at most half a cent. *)
Lemma round2_close (x : Q) : x - 0.005 <= round2 x <= x + 0.005.
Proof.
  assert (H : ∀ y, y - 0.005 <= toFixed2_nonneg y <= y + 0.005).
  { intros y. unfold toFixed2_nonneg.
    pose proof (Qfloor_le (y * 100 + 0.5)) as H1.
    pose proof (Qlt_floor (y * 100 + 0.5)) as H2.
    rewrite inject_Z_plus in H2.
    assert (E : (Qfloor (y * 100 + 0.5) # 100) * 100 == inject_Z (Qfloor (y * 100 + 0.5))).
    { unfold Qeq, inject_Z. cbn [Qnum Qden Qmult]. lia. }
    change (inject_Z 1) with 1 in H2.
    split; lra. }
  unfold round2. destruct (Qle_bool 0 x); [apply H|].
  specialize (H (- x)). split; lra.
Qed.

(** ** Binary floating point *)

(** Rounding to binary64 only looks at the value of a number. *)
Lemma fl_comp (x y : Q) : x == y → fl x = fl y.
Proof.
  intros E. unfold fl. rewrite (Qred_complete x y E).
  assert (Qle_bool 0 x = Qle_bool 0 y) as -> by (rewrite E; reflexivity).
  reflexivity.
Qed.

Lemma fmul_comp (a a' b : Q) : a == a' → fmul a b = fmul a' b.
Proof. intros E. unfold fmul. rewrite (fl_comp a a' E). reflexivity. Qed.

Lemma Qfloor_unique (x : Q) (k : Z) :
  inject_Z k <= x → x < inject_Z (k + 1) → Qfloor x = k.
Proof.
  intros H1 H2.
  pose proof (Qfloor_le x) as F1. pose proof (Qlt_floor x) as F2.
  assert (Qfloor x < k + 1)%Z by (rewrite Zlt_Qlt; eapply Qle_lt_trans; eassumption).
  assert (k < Qfloor x + 1)%Z by (rewrite Zlt_Qlt; eapply Qle_lt_trans; eassumption).
  lia.
Qed.

Lemma nearest_even_close (x : Q) : Qabs (inject_Z (nearest_even x) - x) <= 1 # 2.
Proof.
  unfold nearest_even.
  pose proof (Qfloor_le x) as F1. pose proof (Qlt_floor x) as F2.
  rewrite inject_Z_plus in F2. change (inject_Z 1) with 1 in F2.
  destruct (Qcompare_spec (x - inject_Z (Qfloor x)) (1 # 2)) as [E|E|E];
    [destruct (Z.even (Qfloor x))| |];
    rewrite ?inject_Z_plus; change (inject_Z 1) with 1;
    apply Qabs_case; intros _; lra.
Qed.

Lemma nearest_even_nonneg (x : Q) : 0 <= x → (0 <= nearest_even x)%Z.
Proof.
  intros Hx. assert (0 <= Qfloor x)%Z.
  { change 0%Z with (Qfloor 0). apply Qfloor_resp_le, Hx. }
  unfold nearest_even. repeat case_match; lia.
Qed.

Lemma pow2_pos (q : Z) : 0 < 2 ^ q.
Proof. apply Qpower_0_lt. reflexivity. Qed.

Lemma exponent_le (a : Q) : 0 < a → 2 ^ exponent a <= a.
Proof.
  intros Ha. unfold exponent.
  set (ln := Z.log2 (Qnum a)). set (ld := Z.log2 (Zpos (Qden a))).
  destruct (Qle_bool (2 ^ (ln - ld)) a) eqn:E; [apply Qle_bool_iff, E|].
  assert (Hn : (0 < Qnum a)%Z).
  { destruct a as [n d]. unfold Qlt in Ha. cbn in Ha |- *. lia. }
  destruct (Z.log2_spec (Qnum a) Hn) as [Hn1 _].
  destruct (Z.log2_spec (Zpos (Qden a)) ltac:(lia)) as [_ Hd2].
  fold ln in Hn1. fold ld in Hd2.
  assert (Hln : (0 <= ln)%Z) by apply Z.log2_nonneg.
  assert (Hld : (0 <= ld)%Z) by apply Z.log2_nonneg.
  replace (ln - ld - 1)%Z with (ln - (ld + 1))%Z by lia.
  rewrite Qpower_minus by discriminate.
  change 2 with (inject_Z 2).
  rewrite <- !Zpower_Qpower by lia.
  rewrite Z.add_1_r.
  apply Qle_shift_div_r.
  { change 0 with (inject_Z 0). rewrite <- Zlt_Qlt. apply Z.pow_pos_nonneg; lia. }
  destruct a as [n d]. cbn [Qnum Qden] in *.
  unfold Qle, Qmult, inject_Z. cbn [Qnum Qden].
  rewrite Z.mul_1_r, Pos.mul_1_r.
  nia.
Qed.

Lemma exponent_lt (a : Q) : 0 < a → a < 2 ^ (exponent a + 1).
Proof.
  intros Ha. unfold exponent.
  set (ln := Z.log2 (Qnum a)). set (ld := Z.log2 (Zpos (Qden a))).
  destruct (Qle_bool (2 ^ (ln - ld)) a) eqn:E.
  - assert (Hn : (0 < Qnum a)%Z).
    { destruct a as [n d]. unfold Qlt in Ha. cbn in Ha |- *. lia. }
    destruct (Z.log2_spec (Qnum a) Hn) as [_ Hn2].
    destruct (Z.log2_spec (Zpos (Qden a)) ltac:(lia)) as [Hd1 _].
    fold ln in Hn2. fold ld in Hd1.
    assert (Hln : (0 <= ln)%Z) by apply Z.log2_nonneg.
    assert (Hld : (0 <= ld)%Z) by apply Z.log2_nonneg.
    replace (ln - ld + 1)%Z with (Z.succ ln - ld)%Z by lia.
    rewrite Qpower_minus by discriminate.
    change 2 with (inject_Z 2).
    rewrite <- !Zpower_Qpower by lia.
    assert (Hp : (0 < 2 ^ ld)%Z) by (apply Z.pow_pos_nonneg; lia).
    apply Qlt_shift_div_l.
    { change 0 with (inject_Z 0). rewrite <- Zlt_Qlt. exact Hp. }
    destruct a as [n d]. cbn [Qnum Qden] in *.
    unfold Qlt, Qmult, inject_Z. cbn [Qnum Qden].
    rewrite Z.mul_1_r, Pos.mul_1_r.
    nia.
  - replace (ln - ld - 1 + 1)%Z with (ln - ld)%Z by lia.
    apply Qnot_le_lt. intros H. apply Qle_bool_iff in H. congruence.
Qed.

Lemma fl_nonneg (x : Q) : 0 <= x → 0 <= fl x.
Proof.
  intros Hx. unfold fl.
  destruct (Qle_bool (Qabs (Qred x)) 0); [apply Qle_refl|].
  rewrite (proj2 (Qle_bool_iff 0 x) Hx).
  apply Qmult_le_0_compat; [|apply Qlt_le_weak, pow2_pos].
  change 0 with (inject_Z 0). rewrite <- Zle_Qle.
  apply nearest_even_nonneg, Qle_shift_div_l; [apply pow2_pos|].
  rewrite Qmult_0_l. apply Qabs_nonneg.
Qed.

Lemma nearest_even_le (x : Q) (k : Z) : x <= inject_Z k → (nearest_even x <= k)%Z.
Proof.
  intros Hx. unfold nearest_even.
  pose proof (Qfloor_le x) as F1.
  assert (Hf : (Qfloor x <= k)%Z) by (rewrite Zle_Qle; eapply Qle_trans; eassumption).
  destruct (Z.eq_dec (Qfloor x) k) as [E|E].
  - rewrite E in F1 |- *.
    destruct (Qcompare_spec (x - inject_Z k) (1 # 2)) as [H|H|H]; try lra; lia.
  - repeat case_match; lia.
Qed.

(** The value of [fl] is a binary64 number: a significand of at most 53
    bits times a power of two not below [2 ^ -1074]. *)
Lemma fl_binary64 (x : Q) :
  ∃ m q : Z, Qabs (fl x) == inject_Z m * 2 ^ q ∧ (0 <= m <= 2 ^ 53)%Z ∧ (-1074 <= q)%Z.
Proof.
  unfold fl.
  destruct (Qle_bool (Qabs (Qred x)) 0) eqn:E0.
  { exists 0%Z, 0%Z. split; [reflexivity|]. split; lia. }
  assert (Hpos : 0 < Qabs (Qred x)).
  { apply Qnot_le_lt. intros H. apply Qle_bool_iff in H. congruence. }
  pose proof (exponent_lt _ Hpos) as He.
  set (a := Qabs (Qred x)) in *. set (e := exponent a) in *.
  set (q := Z.max (e - 52) (-1074)).
  pose proof (pow2_pos q) as Hq.
  assert (Ht : 0 <= a / 2 ^ q).
  { apply Qle_shift_div_l; [exact Hq|]. rewrite Qmult_0_l. apply Qlt_le_weak, Hpos. }
  pose proof (nearest_even_nonneg _ Ht) as Hm0.
  assert (Hm : (nearest_even (a / 2 ^ q) <= 2 ^ 53)%Z).
  { apply nearest_even_le. apply Qle_shift_div_r; [exact Hq|].
    apply Qlt_le_weak. eapply Qlt_le_trans; [exact He|].
    assert (2 ^ (e + 1) == inject_Z (2 ^ 53) * 2 ^ (e - 52)) as ->.
    { replace (e + 1)%Z with (53 + (e - 52))%Z by lia.
      rewrite Qpower_plus by discriminate. reflexivity. }
    apply Qmult_le_l; [reflexivity|].
    apply Qpower_le_compat_l; [apply Z.le_max_l | discriminate]. }
  exists (nearest_even (a / 2 ^ q)), q.
  split; [|split; [split; assumption | apply Z.le_max_r]].
  assert (Hy : 0 <= inject_Z (nearest_even (a / 2 ^ q)) * 2 ^ q).
  { apply Qmult_le_0_compat; [|apply Qlt_le_weak, Hq].
    change 0 with (inject_Z 0). rewrite <- Zle_Qle. exact Hm0. }
  destruct (Qle_bool 0 x); [apply Qabs_pos, Hy|].
  rewrite Qabs_opp. apply Qabs_pos, Hy.
Qed.

(** The relative error of a rounding is at most [2 ^ -53], down to the
    subnormal numbers, where the error is at most [2 ^ -1075]. *)
Lemma fl_close (x : Q) : 0 <= x → Qabs (fl x - x) <= x * 2 ^ (-53) + 2 ^ (-1075).
Proof.
  intros Hx. unfold fl.
  assert (Ea : Qabs (Qred x) == x) by (rewrite Qred_correct; apply Qabs_pos, Hx).
  destruct (Qle_bool (Qabs (Qred x)) 0) eqn:E0.
  { apply Qle_bool_iff in E0. rewrite Ea in E0.
    assert (x == 0) as -> by lra. vm_compute. discriminate. }
  assert (Hpos : 0 < Qabs (Qred x)).
  { apply Qnot_le_lt. intros H. apply Qle_bool_iff in H. congruence. }
  rewrite (proj2 (Qle_bool_iff 0 x) Hx).
  pose proof (exponent_le _ Hpos) as He.
  set (a := Qabs (Qred x)) in *. set (e := exponent a) in *.
  set (q := Z.max (e - 52) (-1074)).
  pose proof (nearest_even_close (a / 2 ^ q)) as Hm.
  set (m := inject_Z (nearest_even (a / 2 ^ q))) in *.
  pose proof (pow2_pos q) as Hq.
  assert (Hy : Qabs (m * 2 ^ q - x) <= 2 ^ q * (1 # 2)).
  { assert (E : m * 2 ^ q - x == (m - a / 2 ^ q) * 2 ^ q).
    { rewrite <- Ea. field. apply Qnot_eq_sym, Qlt_not_eq, Hq. }
    rewrite E, Qabs_Qmult, (Qabs_pos (2 ^ q)) by apply Qlt_le_weak, Hq.
    rewrite (Qmult_comm (2 ^ q)). apply Qmult_le_compat_r; [exact Hm | apply Qlt_le_weak, Hq]. }
  eapply Qle_trans; [exact Hy|].
  assert (H53 : 2 ^ (e - 52) * (1 # 2) == 2 ^ e * 2 ^ (-53)).
  { replace (e - 52)%Z with (e + -52)%Z by lia.
    rewrite Qpower_plus by discriminate. 
    assert (2 ^ (-52) == 2 ^ (-53) * 2) as -> by reflexivity. ring. }
  assert (Hx53 : 0 <= x * 2 ^ (-53)).
  { apply Qmult_le_0_compat; [exact Hx | apply Qlt_le_weak, pow2_pos]. }
  assert (H1075 : 0 <= 2 ^ (-1075)) by apply Qlt_le_weak, pow2_pos.
  destruct (Z.max_spec (e - 52) (-1074)) as [[_ Hmax]|[_ Hmax]]; fold q in Hmax; rewrite Hmax.
  - assert (2 ^ (-1074) == 2 ^ (-1075) * 2) as -> by reflexivity.
    set (u := 2 ^ (-1075)) in *. set (v := x * 2 ^ (-53)) in *. lra.
  - rewrite H53. rewrite <- Ea. fold a.
    assert (2 ^ e * 2 ^ (-53) <= a * 2 ^ (-53)).
    { apply Qmult_le_compat_r; [exact He | apply Qlt_le_weak, pow2_pos]. }
    set (u := 2 ^ (-1075)) in *. set (v := a * 2 ^ (-53)) in *. set (w := 2 ^ e * 2 ^ (-53)) in *.
    lra.
Qed.

(** In round figures. *)
Lemma fl_near (x : Q) : 0 <= x → Qabs (fl x - x) <= (x + 1) * (1 # 1000000000000000).
Proof.
  intros Hx. eapply Qle_trans; [apply fl_close, Hx|].
  assert (H1 : x * 2 ^ (-53) <= x * (1 # 1000000000000000)).
  { rewrite !(Qmult_comm x). apply Qmult_le_compat_r; [|exact Hx]. vm_compute. discriminate. }
  assert (H2 : 2 ^ (-1075) <= 1 # 1000000000000000) by (vm_compute; discriminate).
  set (u := 2 ^ (-1075)) in *. set (v := x * 2 ^ (-53)) in *. lra.
Qed.

Lemma fmul_nonneg (a r : Q) : 0 <= a → 0 <= r → 0 <= fmul a r.
Proof. intros Ha Hr. apply fl_nonneg, Qmult_le_0_compat; apply fl_nonneg; assumption. Qed.

(** The binary64 product of an amount up to [10^9] and a rate up to 2 is
    within a thousandth of a cent of the exact product. *)
Lemma fmul_close (a r : Q) :
  0 <= a → a <= 1000000000 → 0 <= r → r <= 2 →
  Qabs (fmul a r - a * r) <= 1 # 100000.
Proof.
  intros Ha Ha' Hr Hr'. unfold fmul.
  pose proof (fl_near a Ha) as Ea. pose proof (fl_near r Hr) as Er.
  pose proof (fl_nonneg a Ha) as Na. pose proof (fl_nonneg r Hr) as Nr.
  pose proof (fl_near (fl a * fl r) (Qmult_le_0_compat _ _ Na Nr)) as Ep.
  set (x := fl a) in *. set (y := fl r) in *. set (p := fl (x * y)) in *.
  apply Qabs_Qle_condition in Ea, Er, Ep. apply Qabs_Qle_condition.
  destruct Ea as [Ea1 Ea2], Er as [Er1 Er2], Ep as [Ep1 Ep2].
  assert (Hx : x <= 1000000001) by lra.
  assert (Hy : y <= 3) by lra.
  set (d := y - r). set (c := x - a).
  assert (D1 : - (3 # 1000000000000000) <= d <= 3 # 1000000000000000) by (unfold d; split; lra).
  assert (D2 : - (11 # 10000000) <= c <= 11 # 10000000) by (unfold c; split; lra).
  assert (Hxy : x * y - a * r == x * d + r * c) by (unfold d, c; ring).
  assert (P1 : - (31 # 10000000) <= x * d <= 31 # 10000000) by (split; nra).
  assert (P2 : - (22 # 10000000) <= r * c <= 22 # 10000000) by (split; nra).
  assert (Har : a * r <= 2000000000) by nra.
  set (xy := x * y) in *. set (ar := a * r) in *. set (xd := x * d) in *. set (rc := r * c) in *.
  split; lra.
Qed.

Lemma round2_of_nonneg (x : Q) : 0 <= x → round2 x = Qfloor (x * 100 + 0.5) # 100.
Proof. intros H. unfold round2. rewrite (proj2 (Qle_bool_iff 0 x) H). reflexivity. Qed.

(** Away from half a cent the cent does not depend on the rounding error of
    the product: when the exact product is a whole number [n] of thousandths
    that does not end in 5, the handler's [+(a * r).toFixed(2)] is the exact
    product rounded to the cent. *)
Lemma round2_fmul (a r : Q) (n : Z) :
  0 <= a → a <= 1000000000 → 0 <= r → r <= 2 →
  a * r * 1000 == inject_Z n → (n mod 10 ≠ 5)%Z →
  round2 (fmul a r) = round2 (a * r).
Proof.
  intros Ha Ha' Hr Hr' Hn Hmod.
  pose proof (fmul_close a r Ha Ha' Hr Hr') as Hc. apply Qabs_Qle_condition in Hc.
  rewrite !round2_of_nonneg by (apply fmul_nonneg || apply Qmult_le_0_compat; assumption).
  set (k := ((n + 5) / 10)%Z). set (m := ((n + 5) mod 10)%Z).
  assert (Hk : (n + 5 = 10 * k + m)%Z) by (apply Z.div_mod; lia).
  assert (Hm : (1 <= m <= 9)%Z).
  { pose proof (Z.mod_pos_bound (n + 5) 10 ltac:(lia)) as B. fold m in B.
    assert (m ≠ 0)%Z; [|lia]. intros E. apply Hmod.
    pose proof (Z.div_mod n 10 ltac:(lia)). pose proof (Z.mod_pos_bound n 10 ltac:(lia)). lia. }
  assert (Qk : inject_Z n + 5 == 10 * inject_Z k + inject_Z m).
  { change 5 with (inject_Z 5). change 10 with (inject_Z 10).
    rewrite <- inject_Z_mult, <- !inject_Z_plus, Hk. reflexivity. }
  assert (Qm : 1 <= inject_Z m <= 9).
  { change 1 with (inject_Z 1). change 9 with (inject_Z 9). rewrite <- !Zle_Qle. exact Hm. }
  set (p := fmul a r) in *. set (e := a * r) in *.
  set (kk := inject_Z k) in *. set (mm := inject_Z m) in *. set (nn := inject_Z n) in *.
  assert (E1 : Qfloor (p * 100 + 0.5) = k).
  { apply Qfloor_unique; rewrite ?inject_Z_plus; change (inject_Z 1) with 1; fold kk; lra. }
  assert (E2 : Qfloor (e * 100 + 0.5) = k).
  { apply Qfloor_unique; rewrite ?inject_Z_plus; change (inject_Z 1) with 1; fold kk; lra. }
  rewrite E1, E2. reflexivity.
Qed.

(** ** Transactions *)

Lemma transaction_rollback {A} (m : Tx A) (db db' : Db) (e : Err) :
  transaction m db = (inl e, db') → db' = db.
Proof. unfold transaction. destruct (m db) as [|[]]; congruence. Qed.

Ltac db_simpl :=
  cbn [person next_person_id personal_balance group_main group_validity borrowing
       next_borrowing_id payment daily_summary transaction_log
       set_person set_personal_balance set_group set_borrowing set_payment
       set_daily_summary set_transaction_log
       add_group sub_group insert_log insert_payment update_borrowing] in *.

Lemma group_balance_on_pool (pt pt' : PoolType) (f : Q → Q) (db : Db) :
  group_balance pt' (set_group (on_pool pt MAIN f) (on_pool pt VALIDITY f) db)
  = if bool_decide (pt = pt') then f <$> group_balance pt' db else group_balance pt' db.
Proof. destruct pt, pt'; reflexivity. Qed.

Lemma group_balance_add (pt pt' : PoolType) (x : Q) (db : Db) :
  group_balance pt' (add_group pt x db)
  = if bool_decide (pt = pt') then (λ b, b + x) <$> group_balance pt' db
    else group_balance pt' db.
Proof. apply group_balance_on_pool. Qed.

Lemma group_balance_sub (pt pt' : PoolType) (x : Q) (db : Db) :
  group_balance pt' (sub_group pt x db)
  = if bool_decide (pt = pt') then (λ b, b - x) <$> group_balance pt' db
    else group_balance pt' db.
Proof. apply group_balance_on_pool. Qed.

Lemma group_balance_frame (pt : PoolType) (db db' : Db) :
  group_main db' = group_main db → group_validity db' = group_validity db →
  group_balance pt db' = group_balance pt db.
Proof. intros E1 E2. destruct pt; assumption. Qed.

(** ** borrow *)

Lemma check_override_state (cfg : Config) (req : BorrowReq) (db : Db) (b : bool) (db' : Db) :
  check_override cfg req db = inr (b, db') → db' = db.
Proof. unfold check_override, ret, reject. repeat case_match; congruence. Qed.

(** What a successful [borrow] did. *)
Lemma borrow_success_inv cfg now req db ok db' :
  borrow cfg now req db = (inr ok, db') →
  ∃ P personal g isAdm,
    parse_pool (br_poolType req) = Some P ∧
    Qle_bool (br_amount req) 0 = false ∧
    personal_balance db !! br_personId req = Some personal ∧
    group_balance P db = Some g ∧
    check_override cfg req db = inr (isAdm, db) ∧
    (isAdm = false →
       (count_unit_payments (br_personId req) db <? 3)%Z = false ∧
       open_borrowings (br_personId req) P db = [] ∧
       Qgtb (br_amount req) (round2 (fmul (person_pool_balance P personal) 1.30)) = false) ∧
    Qgtb (br_amount req) g = false ∧
    let A := br_amount req in
    let profit := round2 (fmul A BORROW_INTEREST_PCT) in
    let outstanding := round2 (A + profit) in
    let dueDate := dateAddDays (today_of now) (period_days P) in
    let row := mkBorrowing (next_borrowing_id db) (br_personId req) P A profit outstanding
                 OPEN dueDate None None in
    ok = mkBorrowOk (next_borrowing_id db) outstanding dueDate isAdm ∧
    borrowing db' = borrowing db ++ [row] ∧
    next_borrowing_id db' = (next_borrowing_id db + 1)%Z ∧
    group_balance P db' = Some (g - A) ∧
    (∀ P', P' ≠ P → group_balance P' db' = group_balance P' db) ∧
    personal_balance db' = personal_balance db ∧
    payment db' = payment db ∧
    daily_summary db' = daily_summary db ∧
    person db' = person db.
Proof.
  unfold borrow. intros H.
  destruct (parse_pool (br_poolType req)) as [P|] eqn:HP; [|discriminate].
  destruct (Qle_bool (br_amount req) 0) eqn:Hamt; [discriminate|].
  unfold transaction, bind, query in H.
  destruct (personal_balance db !! br_personId req) as [personal|] eqn:Hper; [|discriminate].
  destruct (group_balance P db) as [g|] eqn:Hg; [|discriminate].
  destruct (check_override cfg req db) as [e|[isAdm db0]] eqn:Hov; [discriminate|].
  assert (db0 = db) as -> by (eapply check_override_state; eassumption).
  exists P, personal, g, isAdm.
  unfold when, reject, ret, exec, insert_borrowing in H.
  destruct isAdm; cbn [negb andb] in H.
  - destruct (Qgtb (br_amount req) g) eqn:Hgf; [discriminate|].
    injection H as <- <-.
    repeat split; try done; db_simpl; try reflexivity.
    + rewrite group_balance_frame with (db := sub_group P (br_amount req) db) by reflexivity.
      rewrite group_balance_sub, bool_decide_eq_true_2, Hg; reflexivity.
    + intros P' HP'.
      rewrite group_balance_frame with (db := sub_group P (br_amount req) db) by reflexivity.
      rewrite group_balance_sub, bool_decide_eq_false_2; [reflexivity | congruence].
  - destruct (count_unit_payments (br_personId req) db <? 3)%Z eqn:Hcnt; [discriminate|].
    destruct (Z.of_nat (length (open_borrowings (br_personId req) P db)) >? 0)%Z eqn:Hop;
      [discriminate|].
    destruct (Qgtb (br_amount req) (round2 (fmul (person_pool_balance P personal) 1.30))) eqn:Hlim;
      [discriminate|].
    destruct (Qgtb (br_amount req) g) eqn:Hgf; [discriminate|].
    injection H as <- <-.
    repeat split; try done; db_simpl; try reflexivity.
    + destruct (open_borrowings (br_personId req) P db); [done|]. discriminate Hop.
    + rewrite group_balance_frame with (db := sub_group P (br_amount req) db) by reflexivity.
      rewrite group_balance_sub, bool_decide_eq_true_2, Hg; reflexivity.
    + intros P' HP'.
      rewrite group_balance_frame with (db := sub_group P (br_amount req) db) by reflexivity.
      rewrite group_balance_sub, bool_decide_eq_false_2; [reflexivity | congruence].
Qed.

Lemma check_override_false cfg req db :
  br_adminOverride req = false → check_override cfg req db = inr (false, db).
Proof. unfold check_override. intros ->. reflexivity. Qed.

Lemma check_override_valid cfg req db pw :
  br_adminOverride req = true → br_adminPassword req = Some pw →
  pw ≠ "" → pw = ENV_ADMIN_PASSWORD cfg →
  check_override cfg req db = inr (true, db).
Proof.
  unfold check_override, falsy. intros -> -> Hne ->.
  rewrite bool_decide_eq_false_2 by assumption.
  rewrite bool_decide_eq_true_2 by reflexivity. reflexivity.
Qed.

(** A rejected [borrow] leaves the database as it was. *)
Lemma borrow_rejected_unchanged cfg now req db e db' :
  borrow cfg now req db = (inl e, db') → db' = db.
Proof.
  unfold borrow, refuse. repeat case_match; try congruence.
  apply transaction_rollback.
Qed.

(** The decision of [borrow] once the rows are found and the override is
    settled: the remaining checks in the order of the source. *)
Lemma borrow_checks cfg now req db P personal g isAdm :
  parse_pool (br_poolType req) = Some P →
  Qle_bool (br_amount req) 0 = false →
  personal_balance db !! br_personId req = Some personal →
  group_balance P db = Some g →
  check_override cfg req db = inr (isAdm, db) →
  let amt := br_amount req in
  let saved := count_unit_payments (br_personId req) db in
  let limit := round2 (fmul (person_pool_balance P personal) 1.30) in
  if negb isAdm && (saved <? 3)%Z
  then borrow cfg now req db = (inl (INSUFFICIENT_SAVED_COUNT saved), db)
  else if negb isAdm && negb (bool_decide (open_borrowings (br_personId req) P db = []))
  then borrow cfg now req db = (inl OPEN_DEBT_EXISTS, db)
  else if negb isAdm && Qgtb amt limit
  then borrow cfg now req db = (inl (LIMIT_EXCEEDED limit), db)
  else if Qgtb amt g
  then borrow cfg now req db = (inl (INSUFFICIENT_GROUP_FUNDS g), db)
  else ∃ ok db', borrow cfg now req db = (inr ok, db').
Proof.
  intros HP Hamt Hper Hg Hov. cbv zeta.
  unfold borrow. rewrite HP, Hamt.
  unfold transaction, bind, query. rewrite Hper, Hg, Hov.
  unfold when, reject, ret, exec, insert_borrowing.
  destruct isAdm; cbn [negb andb].
  - destruct (Qgtb (br_amount req) g); [reflexivity | eauto].
  - destruct (count_unit_payments (br_personId req) db <? 3)%Z; [reflexivity|].
    destruct (open_borrowings (br_personId req) P db) as [|b l] eqn:Hopen; cbn.
    + destruct (Qgtb (br_amount req) (round2 (fmul (person_pool_balance P personal) 1.30)));
        [reflexivity|].
      destruct (Qgtb (br_amount req) g); [reflexivity | eauto].
    + reflexivity.
Qed.




(** C7, as the code has it.  Whatever the override flag, a request for more
    than the balance of the target pool is rejected and the database stays
    as it was; no admin override lets it through.  The rejection is
    INSUFFICIENT_GROUP_FUNDS, reporting the available balance, whenever the
    request gets as far as the liquidity check, which comes last: under a
    valid admin override always (given a positive amount and a personal
    balance row), and without override when the three eligibility checks
    pass, the last of them against the limit [+(B * 1.30).toFixed(2)] as
    [borrow] computes it.  A request that an earlier check rejects is
    reported with the error of that check. *)
Theorem borrow_group_funds_hard_block cfg now req db P g :
  parse_pool (br_poolType req) = Some P →
  group_balance P db = Some g →
  g < br_amount req →
  (∃ e, borrow cfg now req db = (inl e, db)) ∧
  (0 < br_amount req → is_Some (personal_balance db !! br_personId req) →
   ∀ pw, br_adminOverride req = true → br_adminPassword req = Some pw →
         pw ≠ "" → pw = ENV_ADMIN_PASSWORD cfg →
         borrow cfg now req db = (inl (INSUFFICIENT_GROUP_FUNDS g), db)) ∧
  (0 < br_amount req →
   ∀ personal, personal_balance db !! br_personId req = Some personal →
     br_adminOverride req = false →
     (3 <= count_unit_payments (br_personId req) db)%Z →
     open_borrowings (br_personId req) P db = [] →
     br_amount req <= round2 (fmul (person_pool_balance P personal) 1.30) →
     borrow cfg now req db = (inl (INSUFFICIENT_GROUP_FUNDS g), db)).
Proof.
  intros HP Hg Hlt.
  assert (Hgt : Qgtb (br_amount req) g = true) by (apply Qgtb_true; assumption).
  split; [|split].
  - destruct (borrow cfg now req db) as [[e|ok] db'] eqn:Hb.
    + rewrite (borrow_rejected_unchanged _ _ _ _ _ _ Hb). eauto.
    + destruct (borrow_success_inv _ _ _ _ _ _ Hb)
        as (P' & personal & g' & isAdm & HP' & _ & _ & Hg' & _ & _ & Hle & _).
      rewrite HP in HP'. injection HP' as <-. rewrite Hg in Hg'. injection Hg' as <-.
      congruence.
  - intros Hpos [personal Hper] pw Hov Hpw Hne Hcfg.
    pose proof (borrow_checks cfg now req db P personal g true HP) as Hc.
    cbn [negb andb] in Hc. rewrite Hgt in Hc. apply Hc; try assumption.
    + apply not_true_iff_false. rewrite Qle_bool_iff. apply Qlt_not_le, Hpos.
    + eapply check_override_valid; eassumption.
  - intros Hpos personal Hper Hov Hcnt Hopen Hlim.
    pose proof (borrow_checks cfg now req db P personal g false HP) as Hc.
    cbn [negb andb] in Hc.
    rewrite Hopen, bool_decide_eq_true_2 in Hc by reflexivity. cbn [negb] in Hc.
    rewrite (proj2 (Z.ltb_ge _ _) Hcnt) in Hc.
    rewrite (proj2 (Qgtb_false _ _) Hlim), Hgt in Hc. apply Hc; try assumption.
    + apply not_true_iff_false. rewrite Qle_bool_iff. apply Qlt_not_le, Hpos.
    + apply check_override_false, Hov.
Qed.

Lemma borrow_group_funds_hard_block_witness :
  borrow cfg500 noon0 override_9000 db_one_payment
  = (inl (INSUFFICIENT_GROUP_FUNDS (30000000 # 10000)), db_one_payment).
Proof.
  refine (proj1 (proj2 (borrow_group_funds_hard_block cfg500 noon0 override_9000
            db_one_payment MAIN (30000000 # 10000) _ _ _)) _ _ "secret" _ _ _ _).
  - reflexivity.
  - vm_compute. reflexivity.
  - reflexivity.
  - reflexivity.
  - vm_compute. eexists. reflexivity.
  - reflexivity.
  - reflexivity.
  - discriminate.
  - reflexivity.
Defined.

(** C7 as stated fails on the error it names.  The MAIN pool holds 3000.00
    and ann, with a single UNIT payment, asks for 9000.00 without override:
    the request is rejected and nothing changes, but the saved-count check
    comes first and the error is INSUFFICIENT_SAVED_COUNT, not
    INSUFFICIENT_GROUP_FUNDS. *)
Lemma borrow_above_pool_counterexample :
  ∃ g e,
    group_balance MAIN db_one_payment = Some g ∧ g == 3000 ∧
    parse_pool (br_poolType borrow_9000) = Some MAIN ∧
    g < br_amount borrow_9000 ∧
    borrow cfg500 noon0 borrow_9000 db_one_payment = (inl e, db_one_payment) ∧
    e = INSUFFICIENT_SAVED_COUNT 1 ∧
    ∀ x, e ≠ INSUFFICIENT_GROUP_FUNDS x.
Proof.
  eexists _, _.
  split; [vm_compute; reflexivity|].
  split; [vm_compute; reflexivity|].
  split; [reflexivity|].
  split; [vm_compute; reflexivity|].
  split; [vm_compute; reflexivity|].
  split; [reflexivity | discriminate].
Qed.

(** C6, as the code has it.  The personal limit is
    [+(B * 1.30).toFixed(2)], where the product is the binary64 product: it
    is [round2 (1.30 * B)] whenever [B] is a cent amount up to [10^9] whose
    last digit is not 5 (1300.00 for a balance of 1000.00), and can be the
    cent below when 1.30 times [B] is exactly half a cent (4.09, not 4.10,
    for a balance of 3.15).  Without admin override a request above the
    limit is always rejected and leaves the database as it was; the
    rejection is LIMIT_EXCEEDED, reporting the limit, when the request
    reaches the limit check, that is when the amount is positive, the pool
    row exists, the person has at least three UNIT payments and no OPEN
    borrowing in that pool.  Under the same conditions a request of exactly
    the limit passes the check and succeeds whenever the pool holds at least
    that amount. *)
Theorem borrow_personal_limit cfg now req db P personal :
  parse_pool (br_poolType req) = Some P →
  br_adminOverride req = false →
  personal_balance db !! br_personId req = Some personal →
  let B := person_pool_balance P personal in
  let limit := round2 (fmul B 1.30) in
  (limit < br_amount req → ∃ e, borrow cfg now req db = (inl e, db)) ∧
  (0 < br_amount req →
   (3 <= count_unit_payments (br_personId req) db)%Z →
   open_borrowings (br_personId req) P db = [] →
   ∀ g, group_balance P db = Some g →
     (limit < br_amount req → borrow cfg now req db = (inl (LIMIT_EXCEEDED limit), db)) ∧
     (br_amount req == limit → br_amount req <= g →
      ∃ ok db', borrow cfg now req db = (inr ok, db'))) ∧
  (∀ c : Z, B == inject_Z c / 100 → (0 <= c)%Z → (c mod 10 ≠ 5)%Z → B <= 1000000000 →
     limit = round2 (1.30 * B)) ∧
  (0 <= B → B <= 1000000000 → Qabs (limit - 1.30 * B) <= 0.00501) ∧
  (B == 1000 → limit == 1300) ∧
  (B == 3.15 → limit == 4.09).
Proof.
  intros HP Hov Hper B limit.
  split; [|split; [|split; [|split; [|split]]]].
  - intros Hlt.
    destruct (borrow cfg now req db) as [[e|ok] db'] eqn:Hb.
    + rewrite (borrow_rejected_unchanged _ _ _ _ _ _ Hb). eauto.
    + destruct (borrow_success_inv _ _ _ _ _ _ Hb)
        as (P' & personal' & g' & isAdm & HP' & _ & Hper' & _ & Hov' & Hel & _).
      rewrite HP in HP'. injection HP' as <-.
      rewrite Hper in Hper'. injection Hper' as <-.
      rewrite (check_override_false _ _ _ Hov) in Hov'. injection Hov' as <-.
      destruct (Hel eq_refl) as (_ & _ & Hle).
      apply Qgtb_false in Hle. exfalso. exact (Qlt_not_le _ _ Hlt Hle).
  - intros Hpos Hcnt Hopen g Hg.
    pose proof (borrow_checks cfg now req db P personal g false HP) as Hc.
    cbn [negb andb] in Hc.
    rewrite Hopen, bool_decide_eq_true_2 in Hc by reflexivity. cbn [negb] in Hc.
    rewrite (proj2 (Z.ltb_ge _ _) Hcnt) in Hc.
    assert (Hamt : Qle_bool (br_amount req) 0 = false)
      by (apply not_true_iff_false; rewrite Qle_bool_iff; apply Qlt_not_le, Hpos).
    specialize (Hc Hamt Hper Hg (check_override_false _ _ _ Hov)).
    fold B in Hc. fold limit in Hc.
    split.
    + intros Hlt. rewrite (proj2 (Qgtb_true _ _) Hlt) in Hc. exact Hc.
    + intros Heq Hle.
      assert (Hle' : br_amount req <= limit) by (rewrite Heq; apply Qle_refl).
      rewrite (proj2 (Qgtb_false _ _) Hle') in Hc.
      rewrite (proj2 (Qgtb_false _ _) Hle) in Hc. exact Hc.
  - intros c Hc Hc0 Hmod Hle. unfold limit.
    assert (HB : 0 <= B).
    { rewrite Hc. apply Qle_shift_div_l; [reflexivity|]. rewrite Qmult_0_l.
      change 0 with (inject_Z 0). rewrite <- Zle_Qle. exact Hc0. }
    rewrite (round2_comp (1.30 * B) (B * 1.30)) by apply Qmult_comm.
    apply (round2_fmul _ _ (13 * c)); try assumption; try discriminate.
    + rewrite Hc, inject_Z_mult. change (inject_Z 13) with 13. field.
    + pose proof (Z.div_mod c 10 ltac:(lia)). pose proof (Z.mod_pos_bound c 10 ltac:(lia)).
      pose proof (Z.div_mod (13 * c) 10 ltac:(lia)).
      pose proof (Z.mod_pos_bound (13 * c) 10 ltac:(lia)). lia.
  - intros HB Hle. unfold limit.
    pose proof (round2_close (fmul B 1.30)) as [R1 R2].
    pose proof (fmul_close B 1.30 HB Hle ltac:(discriminate) ltac:(discriminate)) as Hc.
    apply Qabs_Qle_condition in Hc. destruct Hc as [C1 C2].
    apply Qabs_Qle_condition. split; lra.
  - intros HB. unfold limit. rewrite (fmul_comp _ 1000 _ HB). vm_compute. reflexivity.
  - intros HB. unfold limit. rewrite (fmul_comp _ 3.15 _ HB). vm_compute. reflexivity.
Qed.

Lemma borrow_personal_limit_witness :
  (∃ x, borrow cfg105 noon0 borrow_4_10 db_half_cent
         = (inl (LIMIT_EXCEEDED x), db_half_cent) ∧ x == 4.09) ∧
  (∃ ok db', borrow cfg105 noon0 borrow_4_09 db_half_cent = (inr ok, db')).
Proof.
  destruct (personal_balance db_half_cent !! 1%Z) as [p|] eqn:Hp;
    [|vm_compute in Hp; discriminate].
  destruct (group_balance MAIN db_half_cent) as [g|] eqn:Hg;
    [|vm_compute in Hg; discriminate].
  assert (H3 : (3 <= count_unit_payments 1 db_half_cent)%Z) by (vm_compute; discriminate).
  assert (Hopen : open_borrowings 1 MAIN db_half_cent = []) by (vm_compute; reflexivity).
  pose proof (borrow_personal_limit cfg105 noon0 borrow_4_10 db_half_cent MAIN p
                eq_refl eq_refl Hp) as (_ & W1 & _ & _ & _ & L1).
  pose proof (borrow_personal_limit cfg105 noon0 borrow_4_09 db_half_cent MAIN p
                eq_refl eq_refl Hp) as (_ & W2 & _).
  destruct (W1 eq_refl H3 Hopen g Hg) as [W1' _].
  destruct (W2 eq_refl H3 Hopen g Hg) as [_ W2'].
  vm_compute in Hp. injection Hp as <-. vm_compute in Hg. injection Hg as <-.
  split.
  - eexists. split; [apply W1'; vm_compute; reflexivity | apply L1; vm_compute; reflexivity].
  - apply W2'; [vm_compute; reflexivity | vm_compute; discriminate].
Defined.

(** C6 as stated fails in two ways.  On a member with fewer than three UNIT
    payments: ann holds 1000.00 after a single purchase, so her limit is
    1300.00 and the MAIN pool holds 3000.00; a request of 1301.00 is
    rejected for the saved count, not with LIMIT_EXCEEDED, and a request of
    exactly 1300.00 is rejected although the pool could fund it.  And at
    half a cent: with three UNIT payments and a balance of 3.15, 1.30 times
    the balance is 4.095 and [round2] of it 4.10, but the binary64 product
    lies below 4.095 and the limit of [borrow] is 4.09, so a request of
    exactly 4.10 is rejected with LIMIT_EXCEEDED although the pool holds
    7.35. *)
Lemma borrow_limit_counterexample :
  (∃ personal g,
    personal_balance db_one_payment !! 1%Z = Some personal ∧
    group_balance MAIN db_one_payment = Some g ∧
    round2 (1.30 * person_pool_balance MAIN personal) == 1300 ∧ g == 3000 ∧
    br_adminOverride borrow_1301 = false ∧
    round2 (1.30 * person_pool_balance MAIN personal) < br_amount borrow_1301 ∧
    borrow cfg500 noon0 borrow_1301 db_one_payment
      = (inl (INSUFFICIENT_SAVED_COUNT 1), db_one_payment) ∧
    br_adminOverride borrow_1300 = false ∧
    br_amount borrow_1300 == round2 (1.30 * person_pool_balance MAIN personal) ∧
    br_amount borrow_1300 <= g ∧
    borrow cfg500 noon0 borrow_1300 db_one_payment
      = (inl (INSUFFICIENT_SAVED_COUNT 1), db_one_payment)) ∧
  (∃ personal g x,
    personal_balance db_half_cent !! 1%Z = Some personal ∧
    group_balance MAIN db_half_cent = Some g ∧
    person_pool_balance MAIN personal == 3.15 ∧ g == 7.35 ∧
    (3 <= count_unit_payments 1 db_half_cent)%Z ∧
    open_borrowings 1 MAIN db_half_cent = [] ∧
    br_adminOverride borrow_4_10 = false ∧
    br_amount borrow_4_10 == round2 (1.30 * person_pool_balance MAIN personal) ∧
    br_amount borrow_4_10 <= g ∧
    borrow cfg105 noon0 borrow_4_10 db_half_cent
      = (inl (LIMIT_EXCEEDED x), db_half_cent) ∧
    x == 4.09).
Proof.
  split.
  - eexists _, _.
    split; [vm_compute; reflexivity|].
    split; [vm_compute; reflexivity|].
    repeat split; try (vm_compute; reflexivity); vm_compute; discriminate.
  - eexists _, _, _.
    split; [vm_compute; reflexivity|].
    split; [vm_compute; reflexivity|].
    split; [vm_compute; reflexivity|].
    split; [vm_compute; reflexivity|].
    split; [vm_compute; discriminate|].
    split; [vm_compute; reflexivity|].
    split; [reflexivity|].
    split; [vm_compute; reflexivity|].
    split; [vm_compute; discriminate|].
    split; [vm_compute; reflexivity|].
    vm_compute. reflexivity.
Qed.

(** ** repay *)

Lemma find_id_map (k : Z) (f : Borrowing → Borrowing) (rows : list Borrowing) :
  (∀ b, id (f b) = id b) →
  List.find (λ b, bool_decide (id b = k)) (List.map (touch k f) rows)
  = f <$> List.find (λ b, bool_decide (id b = k)) rows.
Proof.
  intros Hf. induction rows as [|b rows IH]; [reflexivity|].
  cbn [List.map List.find].
  assert (Hid : id (touch k f b) = id b) by (unfold touch; case_bool_decide; auto).
  rewrite Hid. destruct (bool_decide (id b = k)) eqn:E.
  - unfold touch. rewrite E. reflexivity.
  - exact IH.
Qed.

(** The rejections of [repay], in the order of the source. *)
Lemma repay_rejections now req db :
  if Qle_bool (rp_amount req) 0 then repay now req db = (inl INVALID_AMOUNT, db)
  else match borrowing_by_id (rp_borrowingId req) db with
       | None => repay now req db = (inl NOT_FOUND, db)
       | Some b =>
         if negb (bool_decide (person_id b = rp_personId req))
         then repay now req db = (inl NOT_OWNER, db)
         else if negb (bool_decide (status b = OPEN))
         then repay now req db = (inl NOT_OPEN, db)
         else if Qgtb (rp_amount req) (outstanding_amount b)
         then repay now req db = (inl (OVERPAYMENT (outstanding_amount b)), db)
         else ∃ ok db', repay now req db = (inr ok, db')
       end.
Proof.
  unfold repay, refuse, transaction, bind, query, reject, exec, ret.
  destruct (Qle_bool (rp_amount req) 0); [reflexivity|].
  destruct (borrowing_by_id (rp_borrowingId req) db) as [b|]; [|reflexivity].
  destruct (negb (bool_decide (person_id b = rp_personId req))); [reflexivity|].
  destruct (negb (bool_decide (status b = OPEN))); [reflexivity|].
  destruct (Qgtb (rp_amount req) (outstanding_amount b)); [reflexivity | eauto].
Qed.

(** What an accepted [repay] did. *)
Lemma repay_success_inv now req db ok db' :
  repay now req db = (inr ok, db') →
  ∃ b,
    borrowing_by_id (rp_borrowingId req) db = Some b ∧
    person_id b = rp_personId req ∧ status b = OPEN ∧
    Qle_bool (rp_amount req) 0 = false ∧
    Qgtb (rp_amount req) (outstanding_amount b) = false ∧
    let amt := rp_amount req in
    let newOutstanding := round2 (outstanding_amount b - amt) in
    let newStatus := if Qeq_bool newOutstanding 0 then PAID else OPEN in
    ok = mkRepayOk newOutstanding newStatus ∧
    borrowing db' =
      List.map (touch (rp_borrowingId req) (settle newOutstanding newStatus now))
        (borrowing db) ∧
    next_borrowing_id db' = next_borrowing_id db ∧
    (∀ pt, group_balance pt db' =
           if bool_decide (pool_type b = pt) then (λ g, g + amt) <$> group_balance pt db
           else group_balance pt db) ∧
    personal_balance db' = personal_balance db ∧
    daily_summary db' = daily_summary db.
Proof.
  unfold repay, refuse, transaction, bind, query, reject, exec, ret. intros H.
  destruct (Qle_bool (rp_amount req) 0) eqn:Hamt; [discriminate|].
  destruct (borrowing_by_id (rp_borrowingId req) db) as [b|] eqn:Hb; [|discriminate].
  destruct (bool_decide (person_id b = rp_personId req)) eqn:Hown; [|discriminate].
  destruct (bool_decide (status b = OPEN)) eqn:Hopen; [|discriminate].
  cbn [negb] in H.
  destruct (Qgtb (rp_amount req) (outstanding_amount b)) eqn:Hover; [discriminate|].
  injection H as <- <-.
  exists b. apply bool_decide_eq_true_1 in Hown, Hopen.
  repeat split; try done.
  intros pt. db_simpl.
  rewrite <- (group_balance_add (pool_type b) pt (rp_amount req) db).
  apply group_balance_frame; reflexivity.
Qed.

(** C5. For a repayment of a positive amount on an OPEN borrowing that the
    caller owns: an amount above the outstanding amount is rejected with
    OVERPAYMENT, which reports the outstanding amount, and the whole database
    (the borrowing, the balances, the pools) stays as it was; an amount equal
    to the outstanding amount is accepted, leaves the borrowing with an
    outstanding amount of 0 and moves it from OPEN to PAID; and every
    accepted repayment adds its full amount to the group pool of the
    borrowing's pool type. *)
Theorem repay_overpayment_and_settlement now req db b :
  borrowing_by_id (rp_borrowingId req) db = Some b →
  status b = OPEN →
  person_id b = rp_personId req →
  0 < rp_amount req →
  let amt := rp_amount req in
  let out := outstanding_amount b in
  (out < amt → repay now req db = (inl (OVERPAYMENT out), db)) ∧
  (amt == out →
   ∃ ok db' b',
     repay now req db = (inr ok, db') ∧ ro_status ok = PAID ∧ ro_newOutstanding ok == 0 ∧
     borrowing_by_id (rp_borrowingId req) db' = Some b' ∧
     outstanding_amount b' == 0 ∧ status b' = PAID) ∧
  (∀ ok db', repay now req db = (inr ok, db') →
   ∀ g, group_balance (pool_type b) db = Some g →
        group_balance (pool_type b) db' = Some (g + amt)).
Proof.
  intros Hb Hopen Hown Hpos. cbv zeta.
  assert (Hamt : Qle_bool (rp_amount req) 0 = false)
    by (apply not_true_iff_false; rewrite Qle_bool_iff; apply Qlt_not_le, Hpos).
  pose proof (repay_rejections now req db) as Hr.
  rewrite Hamt, Hb, Hown, Hopen in Hr.
  rewrite !bool_decide_eq_true_2 in Hr by reflexivity. cbn [negb] in Hr.
  split; [|split].
  - intros Hlt. rewrite (proj2 (Qgtb_true _ _) Hlt) in Hr. exact Hr.
  - intros Heq.
    assert (Hle : rp_amount req <= outstanding_amount b) by (rewrite Heq; apply Qle_refl).
    rewrite (proj2 (Qgtb_false _ _) Hle) in Hr. destruct Hr as (ok & db' & Hrepay).
    destruct (repay_success_inv _ _ _ _ _ Hrepay)
      as (b0 & Hb0 & _ & _ & _ & _ & Hok & Hrows & _).
    rewrite Hb in Hb0. injection Hb0 as <-.
    assert (Hz : round2 (outstanding_amount b - rp_amount req) = 0 # 100).
    { apply round2_zero. rewrite Heq. ring. }
    rewrite Hz in Hok, Hrows. change (Qeq_bool (0 # 100) 0) with true in Hok, Hrows.
    exists ok, db', (settle (0 # 100) PAID now b). subst ok.
    repeat split; try reflexivity; try assumption.
    unfold borrowing_by_id. rewrite Hrows, find_id_map by reflexivity.
    unfold borrowing_by_id in Hb. rewrite Hb. reflexivity.
  - intros ok db' Hrepay g Hg.
    destruct (repay_success_inv _ _ _ _ _ Hrepay)
      as (b0 & Hb0 & _ & _ & _ & _ & _ & _ & _ & Hgrp & _).
    rewrite Hb in Hb0. injection Hb0 as <-.
    rewrite Hgrp, bool_decide_eq_true_2, Hg by reflexivity. reflexivity.
Qed.

Lemma repay_overpayment_and_settlement_witness :
  ∃ ok db', repay noon0 repay_1430 db_borrowed = (inr ok, db') ∧ ro_status ok = PAID.
Proof.
  destruct (borrowing_by_id (rp_borrowingId repay_1430) db_borrowed) as [b|] eqn:Hb;
    [|vm_compute in Hb; discriminate].
  assert (Hopen : status b = OPEN) by (vm_compute in Hb; injection Hb as <-; reflexivity).
  assert (Hown : person_id b = rp_personId repay_1430)
    by (vm_compute in Hb; injection Hb as <-; reflexivity).
  assert (Heq : rp_amount repay_1430 == outstanding_amount b)
    by (vm_compute in Hb; injection Hb as <-; reflexivity).
  destruct (repay_overpayment_and_settlement noon0 repay_1430 db_borrowed b
              Hb Hopen Hown eq_refl) as (_ & W & _).
  destruct (W Heq) as (ok & db' & b' & Hrepay & Hpaid & _).
  exists ok, db'. split; assumption.
Defined.

(** ** Rows of [borrowing] and their ids *)

Lemma touch_untouched (k : Z) (f : Borrowing → Borrowing) (rows : list Borrowing) :
  (∀ r, In r rows → id r ≠ k) → List.map (touch k f) rows = rows.
Proof.
  intros H. induction rows as [|r rows IH]; [reflexivity|].
  cbn [List.map]. unfold touch at 1.
  rewrite bool_decide_eq_false_2 by (apply H; left; reflexivity).
  f_equal. apply IH. intros r' Hr'. apply H. right. exact Hr'.
Qed.

Lemma NoDup_ids_head (r : Borrowing) (rows : list Borrowing) :
  List.NoDup (List.map id (r :: rows)) → ∀ r', In r' rows → id r' ≠ id r.
Proof.
  intros Hnd r' Hin E. cbn [List.map] in Hnd. apply NoDup_cons_iff in Hnd as [Hnotin _].
  apply Hnotin. rewrite <- E. apply in_map, Hin.
Qed.

Lemma find_by_unique_id (rows : list Borrowing) (b : Borrowing) :
  List.NoDup (List.map id rows) → In b rows →
  List.find (λ r, bool_decide (id r = id b)) rows = Some b.
Proof.
  induction rows as [|r rows IH]; intros Hnd Hin; [destruct Hin|].
  cbn [List.find]. destruct Hin as [-> | Hin].
  - rewrite bool_decide_eq_true_2 by reflexivity. reflexivity.
  - rewrite bool_decide_eq_false_2.
    + apply IH; [|exact Hin]. cbn [List.map] in Hnd. apply NoDup_cons_iff in Hnd. apply Hnd.
    + intros E. exact (NoDup_ids_head _ _ Hnd b Hin (eq_sym E)).
Qed.

(** Updating the first selected row so that it leaves the selection removes
    exactly that row from the selection. *)
Lemma filter_touch_first (q : Borrowing → bool) (f : Borrowing → Borrowing)
    (rows : list Borrowing) (b : Borrowing) (rest : list Borrowing) :
  List.NoDup (List.map id rows) →
  List.filter q rows = b :: rest →
  q (f b) = false →
  List.filter q (List.map (touch (id b) f) rows) = rest.
Proof.
  induction rows as [|r rows IH]; intros Hnd Hsel Hout; [discriminate|].
  cbn [List.filter] in Hsel. cbn [List.map List.filter].
  destruct (q r) eqn:Hq.
  - injection Hsel as -> Hrest. unfold touch at 1.
    rewrite bool_decide_eq_true_2 by reflexivity. rewrite Hout.
    rewrite touch_untouched; [exact Hrest|]. apply NoDup_ids_head, Hnd.
  - assert (Hin : In b rows).
    { apply (filter_In q b rows). rewrite Hsel. left. reflexivity. }
    unfold touch at 1. rewrite bool_decide_eq_false_2.
    + rewrite Hq. apply IH; [|exact Hsel|exact Hout].
      cbn [List.map] in Hnd. apply NoDup_cons_iff in Hnd. apply Hnd.
    + intros E. exact (NoDup_ids_head _ _ Hnd b Hin (eq_sym E)).
Qed.

(** ** payFull *)

(** What an accepted [payFull] did. *)
Lemma payFull_accept now req db P b rest :
  parse_pool (pf_poolType req) = Some P →
  open_borrowings (pf_personId req) P db = b :: rest →
  ∃ db',
    payFull now req db = (inr (mkPayFullOk (id b) (outstanding_amount b)), db') ∧
    borrowing db' = List.map (touch (id b) (settle 0 PAID now)) (borrowing db) ∧
    next_borrowing_id db' = next_borrowing_id db ∧
    (∀ pt, group_balance pt db' =
           if bool_decide (P = pt)
           then (λ g, g + outstanding_amount b) <$> group_balance pt db
           else group_balance pt db) ∧
    personal_balance db' = personal_balance db ∧
    daily_summary db' = daily_summary db.
Proof.
  intros HP Hrows. unfold payFull. rewrite HP.
  unfold transaction, bind, query, reject, exec, ret. rewrite Hrows.
  eexists. split; [reflexivity|]. db_simpl.
  repeat split; try reflexivity.
  intros pt. rewrite <- (group_balance_add P pt (outstanding_amount b) db).
  apply group_balance_frame; reflexivity.
Qed.

(** C10. When the caller has several OPEN borrowings in the pool (a state that
    borrows under admin override reach, as [db_two_open] shows), [payFull]
    settles the first row of the selection and only that one: it is
    the borrowing reported, its row ends with an outstanding amount of 0 and
    the status PAID, stamped with the time of the payment and otherwise as
    it was, the pool is credited with the outstanding amount that row had
    and the other pool is not touched, and every other selected row keeps its
    place in the table as it was, OPEN with its outstanding amount.  The ids
    of the table are its primary key, which every request keeps
    ([step_ids_fresh]). *)
Theorem payFull_settles_first_only now req db P b rest :
  parse_pool (pf_poolType req) = Some P →
  List.NoDup (List.map id (borrowing db)) →
  open_borrowings (pf_personId req) P db = b :: rest →
  ∃ db' b',
    payFull now req db = (inr (mkPayFullOk (id b) (outstanding_amount b)), db') ∧
    borrowing_by_id (id b) db' = Some b' ∧
    outstanding_amount b' == 0 ∧ status b' = PAID ∧
    last_payment_at b' = Some now ∧
    person_id b' = person_id b ∧ pool_type b' = pool_type b ∧
    principal b' = principal b ∧ initial_profit_amount b' = initial_profit_amount b ∧
    due_date b' = due_date b ∧ last_penalty_applied_at b' = last_penalty_applied_at b ∧
    (∀ g, group_balance P db = Some g →
          group_balance P db' = Some (g + outstanding_amount b)) ∧
    (∀ P', P' ≠ P → group_balance P' db' = group_balance P' db) ∧
    open_borrowings (pf_personId req) P db' = rest ∧
    (∀ r, In r rest →
          borrowing_by_id (id r) db' = Some r ∧ status r = OPEN ∧
          person_id r = pf_personId req ∧ pool_type r = P ∧
          ∃ r0, borrowing_by_id (id r) db = Some r0 ∧
                outstanding_amount r = outstanding_amount r0) ∧
    List.map id (borrowing db') = List.map id (borrowing db).
Proof.
  intros HP Hnd Hrows.
  destruct (payFull_accept now req db P b rest HP Hrows)
    as (db' & Hpay & Hb' & _ & Hgrp & _).
  assert (Hin : In b (borrowing db)).
  { apply (filter_In (is_open_of (pf_personId req) P)). unfold open_borrowings in Hrows.
    rewrite Hrows. left. reflexivity. }
  assert (Hrest : open_borrowings (pf_personId req) P db' = rest).
  { unfold open_borrowings. rewrite Hb'.
    apply filter_touch_first; [exact Hnd | exact Hrows |].
    unfold is_open_of. cbn [settle status]. rewrite andb_false_r. reflexivity. }
  assert (Hids : List.map id (borrowing db') = List.map id (borrowing db)).
  { rewrite Hb', map_map. apply map_ext.
    intros a. unfold touch. destruct (bool_decide (id a = id b)); reflexivity. }
  exists db', (settle 0 PAID now b). split; [exact Hpay|].
  split.
  { unfold borrowing_by_id. rewrite Hb'.
    rewrite find_id_map by reflexivity.
    rewrite (find_by_unique_id _ _ Hnd Hin). reflexivity. }
  cbn [settle outstanding_amount status last_payment_at person_id pool_type principal
       initial_profit_amount due_date last_penalty_applied_at].
  do 9 (split; [reflexivity|]).
  split; [|split; [|split; [|split]]].
  - intros g Hg. rewrite Hgrp, bool_decide_eq_true_2, Hg by reflexivity. reflexivity.
  - intros P' HP'. rewrite Hgrp, bool_decide_eq_false_2; [reflexivity | congruence].
  - exact Hrest.
  - intros r Hr.
    assert (Hin0 : In r (borrowing db)).
    { apply (filter_In (is_open_of (pf_personId req) P)). unfold open_borrowings in Hrows.
      rewrite Hrows. right. exact Hr. }
    assert (Hsel : In r (open_borrowings (pf_personId req) P db'))
      by (rewrite Hrest; exact Hr).
    unfold open_borrowings in Hsel. apply filter_In in Hsel as [Hr' Hq].
    unfold is_open_of in Hq. apply andb_prop in Hq as [Hq Hpool].
    apply andb_prop in Hq as [Hperson Hstatus].
    apply bool_decide_eq_true_1 in Hpool, Hperson, Hstatus.
    split; [|repeat split; try assumption].
    + unfold borrowing_by_id. apply find_by_unique_id; [|exact Hr'].
      rewrite Hids. exact Hnd.
    + exists r. split; [|reflexivity].
      unfold borrowing_by_id. apply find_by_unique_id; assumption.
  - exact Hids.
Qed.

Lemma payFull_settles_first_only_witness :
  ∃ ok db' b1 b2,
    payFull noon0 pay_full_main db_two_open = (inr ok, db') ∧
    po_borrowingId ok = 1%Z ∧ po_paidAmount ok == 110 ∧
    List.map id (open_borrowings 1 MAIN db_two_open) = [1; 2]%Z ∧
    List.map id (open_borrowings 1 MAIN db') = [2]%Z ∧
    borrowing_by_id 1 db' = Some b1 ∧ outstanding_amount b1 == 0 ∧ status b1 = PAID ∧
    borrowing_by_id 2 db' = Some b2 ∧ outstanding_amount b2 == 110 ∧ status b2 = OPEN.
Proof.
  destruct (open_borrowings (pf_personId pay_full_main) MAIN db_two_open)
    as [|b rest] eqn:Hrows; [vm_compute in Hrows; discriminate|].
  assert (Hnd : List.NoDup (List.map id (borrowing db_two_open))).
  { vm_compute. repeat constructor; cbn; intuition discriminate. }
  destruct (payFull_settles_first_only noon0 pay_full_main db_two_open MAIN b rest
              eq_refl Hnd Hrows)
    as (db' & b' & Hpay & Hb' & H0 & Hpaid & _ & _ & _ & _ & _ & _ & _ & _ & _ & Hrest & Hkeep & _).
  eexists _, db', b', _.
  change (open_borrowings 1 MAIN db_two_open)
    with (open_borrowings (pf_personId pay_full_main) MAIN db_two_open).
  change (open_borrowings 1 MAIN db')
    with (open_borrowings (pf_personId pay_full_main) MAIN db').
  rewrite Hrest, Hrows.
  vm_compute in Hrows. injection Hrows as <- <-.
  split; [exact Hpay|].
  split; [reflexivity|]. split; [reflexivity|].
  split; [reflexivity|]. split; [reflexivity|].
  split; [exact Hb'|]. split; [exact H0|]. split; [exact Hpaid|].
  split; [exact (proj1 (Hkeep _ (or_introl eq_refl)))|].
  split; reflexivity.
Defined.

(** ** Savings *)

Ltac tx_unfold :=
  unfold save_apply, retro_apply, apply_validity, apply_units, ensure_personal,
    fetch_balances, charge_fine, bind, ret, reject, query, exec, when in *.

Lemma fmap_validity_alter_main (x : Q) (o : option PersonalBalance) :
  validity_savings_balance <$> (add_main x <$> o) = validity_savings_balance <$> o.
Proof. destruct o; reflexivity. Qed.

Lemma fmap_validity_alter_validity (x : Q) (o : option PersonalBalance) :
  validity_savings_balance <$> (add_validity x <$> o)
  = (λ v, v + x) <$> (validity_savings_balance <$> o).
Proof. destruct o; reflexivity. Qed.

Lemma option_fmap_id_fun {A} (o : option A) : (λ v : A, v) <$> o = o.
Proof. destruct o; reflexivity. Qed.

Ltac lookup_norm Hex :=
  rewrite ?lookup_alter, ?lookup_insert; repeat case_decide; simplify_eq;
  rewrite ?Hex, ?fmap_validity_alter_main, ?fmap_validity_alter_validity,
    ?option_fmap_id_fun;
  cbn [fmap option_fmap option_map mark_validity_paid add_units units_count
       validity_paid fine_amount from_option orb andb negb].

Ltac savings_facts Hex :=
  db_simpl;
  repeat match goal with
         | |- _ ∧ _ => split
         | |- ∀ _, _ => intro
         | |- _ → _ => intro
         end;
  match goal with
  | H : is_Some None |- _ => destruct H; discriminate
  | |- ∃ d1, _ =>
    eexists; split; [lookup_norm Hex; reflexivity | split; cbn; first [reflexivity | lia | assumption]]
  | |- _ => lookup_norm Hex; first [reflexivity | lia | congruence]
  end.

(** What the branches of [saveUnitsAndValidity] on the day's row do. *)
Lemma save_apply_spec cfg pid date units pv existing db0 :
  daily_summary db0 !! (pid, date) = existing →
  (0 ≤ units)%Z →
  let paid := from_option validity_paid false existing in
  let count := from_option units_count 0%Z existing in
  let charged := pv && negb paid in
  match save_apply cfg pid date units pv existing db0 with
  | inl e => e = DAILY_CAP_EXCEEDED ∧ is_Some existing ∧ (4 < count + units)%Z
  | inr (aU, aV, db1) =>
    (is_Some existing → (count + units ≤ 4)%Z) ∧
    aU = units ∧
    aV = (if charged then VALIDITY_FEE cfg else 0) ∧
    (∃ d1, daily_summary db1 !! (pid, date) = Some d1 ∧
           units_count d1 = (count + units)%Z ∧ validity_paid d1 = pv || paid) ∧
    (∀ k, k ≠ (pid, date) → daily_summary db1 !! k = daily_summary db0 !! k) ∧
    validity_savings_balance <$> personal_balance db1 !! pid
      = (λ v, if charged then v + VALIDITY_FEE cfg else v)
          <$> (validity_savings_balance <$> personal_balance db0 !! pid) ∧
    group_validity db1
      = (λ g, if charged then g + VALIDITY_FEE cfg else g) <$> group_validity db0 ∧
    borrowing db1 = borrowing db0 ∧
    next_borrowing_id db1 = next_borrowing_id db0 ∧
    transaction_log db1 = transaction_log db0
  end.
Proof.
  intros Hex Hunits. cbv zeta. tx_unfold.
  destruct existing as [d|]; cbn [from_option].
  - destruct pv, (validity_paid d) eqn:Hpaid; cbn [andb negb orb];
      (destruct (Z.gtb_spec (units_count d + units) 4) as [Hcap|Hcap];
       [ split; [reflexivity|]; split; [eauto|]; lia |]);
      destruct (Z.gtb_spec units 0) as [Hpos|Hpos].
    all: savings_facts Hex.
  - destruct pv; cbn [andb negb orb]; destruct (Z.gtb_spec units 0) as [Hpos|Hpos].
    all: savings_facts Hex.
Qed.

Lemma ensure_personal_spec (pid : Z) (db : Db) :
  ∃ db0, ensure_personal pid db = inr (tt, db0) ∧
    validity_savings_balance <$> personal_balance db0 !! pid
      = Some (from_option validity_savings_balance 0.00 (personal_balance db !! pid)) ∧
    daily_summary db0 = daily_summary db ∧
    group_main db0 = group_main db ∧ group_validity db0 = group_validity db ∧
    borrowing db0 = borrowing db ∧ next_borrowing_id db0 = next_borrowing_id db ∧
    transaction_log db0 = transaction_log db.
Proof.
  tx_unfold. destruct (personal_balance db !! pid) as [p|] eqn:Hp.
  - eexists. split; [reflexivity|]. rewrite Hp. repeat split.
  - eexists. split; [reflexivity|]. db_simpl. rewrite lookup_insert_eq. repeat split.
Qed.

(** What [saveUnitsAndValidity] does to the day's row, to the validity
    balance, to the VALIDITY pool and to the log. *)
Lemma save_spec cfg now req db :
  (0 ≤ sv_units req ≤ 4)%Z →
  let pid := sv_personId req in
  let date := default (today_of now) (sv_effectiveDate req) in
  let existing := daily_summary db !! (pid, date) in
  let paid := from_option validity_paid false existing in
  let count := from_option units_count 0%Z existing in
  let charged := sv_payValidity req && negb paid in
  match saveUnitsAndValidity cfg now req db with
  | (inl e, db') =>
    db' = db ∧ e = DAILY_CAP_EXCEEDED ∧ is_Some existing ∧ (4 < count + sv_units req)%Z
  | (inr ok, db') =>
    (is_Some existing → (count + sv_units req ≤ 4)%Z) ∧
    appliedUnits (applied ok) = sv_units req ∧
    appliedValidityAmount (applied ok) = (if charged then VALIDITY_FEE cfg else 0) ∧
    (∃ d1, daily_summary db' !! (pid, date) = Some d1 ∧
           units_count d1 = (count + sv_units req)%Z ∧
           validity_paid d1 = sv_payValidity req || paid) ∧
    (∀ k, k ≠ (pid, date) → daily_summary db' !! k = daily_summary db !! k) ∧
    validity_savings_balance <$> personal_balance db' !! pid
      = Some (let v := from_option validity_savings_balance 0.00 (personal_balance db !! pid) in
              if charged then v + VALIDITY_FEE cfg else v) ∧
    group_validity db'
      = (λ g, if charged then g + VALIDITY_FEE cfg else g) <$> group_validity db ∧
    borrowing db' = borrowing db ∧
    next_borrowing_id db' = next_borrowing_id db ∧
    let savedAmount :=
      round2 (appliedUnitsAmount (applied ok) + appliedValidityAmount (applied ok)) in
    let entry :=
      saving_log pid
        (D_saving date (appliedUnits (applied ok)) (appliedValidityAmount (applied ok)))
        savedAmount (newBalances ok) (groupPools_MAIN ok) (groupPools_VALIDITY ok) in
    transaction_log db' =
      transaction_log db ++ (if Qgtb savedAmount 0 then [entry] else [])
  end.
Proof.
  intros [Hlo Hhi]. cbv zeta. unfold saveUnitsAndValidity.
  destruct (Z.ltb_spec (sv_units req) 0) as [?|_]; [lia|].
  destruct (Z.gtb_spec (sv_units req) 4) as [?|_]; [lia|].
  cbn [orb]. unfold transaction. unfold bind at 1.
  destruct (ensure_personal_spec (sv_personId req) db)
    as (db0 & -> & Hval0 & Hday0 & Hgm0 & Hgv0 & Hbor0 & Hnext0 & Hlog0).
  unfold bind at 1. unfold query at 1. unfold bind at 1.
  pose proof (save_apply_spec cfg (sv_personId req)
                (default (today_of now) (sv_effectiveDate req)) (sv_units req)
                (sv_payValidity req) _ db0 eq_refl Hlo) as Hs.
  cbv zeta in Hs. rewrite Hday0 in Hs. rewrite Hday0.
  destruct (save_apply cfg _ _ _ _ _ db0) as [e|[[aU aV] db1]].
  - destruct Hs as (-> & Hsome & Hcap). repeat split; assumption.
  - destruct Hs as (Hcap & -> & HaV & Hd1 & Hoth & Hval & Hgv & Hbor & Hnext & Hlog).
    tx_unfold. cbn beta iota.
    destruct (Qgtb (round2 (round2 (inject_Z (sv_units req) * UNIT_PRICE cfg) + aV)) 0)
      eqn:Hsaved;
      cbn [applied appliedUnits appliedUnitsAmount appliedValidityAmount newBalances
           groupPools_MAIN groupPools_VALIDITY]; db_simpl;
      (split; [exact Hcap|]); (split; [reflexivity|]); (split; [exact HaV|]);
      (split; [exact Hd1|]); (split; [exact Hoth|]);
      (split; [rewrite Hval, Hval0; reflexivity|]);
      (split; [rewrite Hgv, Hgv0; reflexivity|]);
      (split; [congruence|]); (split; [congruence|]);
      cbv zeta;
      cbn [applied appliedUnits appliedUnitsAmount appliedValidityAmount newBalances
           groupPools_MAIN groupPools_VALIDITY];
      rewrite Hsaved, Hlog, Hlog0; [reflexivity | symmetry; apply app_nil_r].
Qed.

(** What the branches of [retroactiveFill] on the day's row do to the table
    of daily summaries. *)
Lemma retro_apply_spec cfg pid date addUnits pv existing db0 :
  daily_summary db0 !! (pid, date) = existing →
  (0 ≤ addUnits)%Z →
  let count := from_option units_count 0%Z existing in
  match retro_apply cfg pid date addUnits pv existing db0 with
  | inl e => e = UNITS_CAP_EXCEEDED ∧ is_Some existing ∧ (4 < count + addUnits)%Z
  | inr (_, db1) =>
    (is_Some existing → (count + addUnits ≤ 4)%Z) ∧
    (∃ d1, daily_summary db1 !! (pid, date) = Some d1 ∧
           units_count d1 = (count + addUnits)%Z) ∧
    (∀ k, k ≠ (pid, date) → daily_summary db1 !! k = daily_summary db0 !! k) ∧
    borrowing db1 = borrowing db0 ∧
    next_borrowing_id db1 = next_borrowing_id db0
  end.
Proof.
  intros Hex Hunits. cbv zeta. tx_unfold.
  destruct existing as [d|]; cbn [from_option].
  - destruct (Z.gtb_spec (units_count d + addUnits) 4) as [Hcap|Hcap];
      [ split; [reflexivity|]; split; [eauto|]; lia |].
    destruct (pv && negb (validity_paid d)); destruct (Z.gtb_spec addUnits 0) as [Hpos|Hpos].
    all: savings_facts Hex.
  - destruct pv; destruct (Z.gtb_spec addUnits 0) as [Hpos|Hpos].
    all: savings_facts Hex.
Qed.

Lemma retroactiveFill_daily cfg now req db :
  match retroactiveFill cfg now req db with
  | (inl _, db') => db' = db
  | (inr _, db') =>
    ∃ date, rf_date req = Some date ∧ (0 ≤ rf_addUnits req ≤ 4)%Z ∧
      let k := (rf_personId req, date) in
      let existing := daily_summary db !! k in
      let count := from_option units_count 0%Z existing in
      (is_Some existing → (count + rf_addUnits req ≤ 4)%Z) ∧
      (∃ d1, daily_summary db' !! k = Some d1 ∧
             units_count d1 = (count + rf_addUnits req)%Z) ∧
      (∀ k', k' ≠ k → daily_summary db' !! k' = daily_summary db !! k') ∧
      borrowing db' = borrowing db ∧
      next_borrowing_id db' = next_borrowing_id db
  end.
Proof.
  unfold retroactiveFill, refuse.
  destruct (rf_date req) as [date|]; [|reflexivity].
  destruct (date >=? today_of now)%Z; [reflexivity|].
  destruct (Z.ltb_spec (rf_addUnits req) 0) as [?|Hlo]; [reflexivity|].
  destruct (Z.gtb_spec (rf_addUnits req) 4) as [?|Hhi]; [reflexivity|].
  cbn [orb].
  destruct (bool_decide (rf_addUnits req = 0%Z) && negb (rf_payValidityIfMissing req));
    [reflexivity|].
  unfold transaction. unfold bind at 1.
  destruct (ensure_personal_spec (rf_personId req) db)
    as (db0 & -> & _ & Hday0 & _ & _ & Hbor0 & Hnext0 & _).
  unfold bind at 1. unfold query at 1. unfold bind at 1.
  pose proof (retro_apply_spec cfg (rf_personId req) date (rf_addUnits req)
                (rf_payValidityIfMissing req) _ db0 eq_refl Hlo) as Hs.
  cbv zeta in Hs. rewrite Hday0 in Hs. rewrite Hday0.
  destruct (retro_apply cfg _ _ _ _ _ db0) as [e|[[[[aU aUA] aV] fine] db1]];
    [reflexivity|].
  destruct Hs as (Hcap & Hd1 & Hoth & Hbor & Hnext).
  tx_unfold. cbn beta iota.
  destruct (Qgtb fine 0);
    destruct (Qgtb (round2 (aUA + aV + fine)) 0);
    db_simpl; exists date; (split; [reflexivity|]); (split; [lia|]); cbv zeta;
    (split; [exact Hcap|]); (split; [exact Hd1|]); (split; [exact Hoth|]);
    split; db_simpl; congruence.
Qed.

Lemma save_units_capped cfg now req db :
  units_capped db → units_capped (snd (saveUnitsAndValidity cfg now req db)).
Proof.
  intros Hcap.
  destruct (Z.ltb_spec (sv_units req) 0) as [Hneg|Hlo].
  { unfold saveUnitsAndValidity. rewrite (proj2 (Z.ltb_lt _ _) Hneg). exact Hcap. }
  destruct (Z.gtb_spec (sv_units req) 4) as [Hbig|Hhi].
  { unfold saveUnitsAndValidity. rewrite (proj2 (Z.gtb_gt _ _) (Z.lt_gt _ _ Hbig)).
    rewrite orb_true_r. exact Hcap. }
  pose proof (save_spec cfg now req db (conj Hlo Hhi)) as Hs. cbv zeta in Hs.
  destruct (saveUnitsAndValidity cfg now req db) as [[e|ok] db']; cbn [snd].
  - destruct Hs as [-> _]. exact Hcap.
  - destruct Hs as (Hle & _ & _ & (d1 & Hd1 & Hcount & _) & Hoth & _).
    intros k d Hk.
    destruct (decide (k = (sv_personId req, default (today_of now) (sv_effectiveDate req))))
      as [->|Hne].
    + rewrite Hd1 in Hk. injection Hk as <-. rewrite Hcount.
      destruct (daily_summary db !! _) as [d0|]; cbn [from_option] in *; [|lia].
      apply Hle. eauto.
    + rewrite (Hoth k Hne) in Hk. exact (Hcap k d Hk).
Qed.

Lemma retro_units_capped cfg now req db :
  units_capped db → units_capped (snd (retroactiveFill cfg now req db)).
Proof.
  intros Hcap. pose proof (retroactiveFill_daily cfg now req db) as Hs.
  destruct (retroactiveFill cfg now req db) as [[e|ok] db']; cbn [snd].
  - rewrite Hs. exact Hcap.
  - destruct Hs as (date & _ & [_ Hhi] & Hs). cbv zeta in Hs.
    destruct Hs as (Hle & (d1 & Hd1 & Hcount) & Hoth & _).
    intros k d Hk.
    destruct (decide (k = (rf_personId req, date))) as [->|Hne].
    + rewrite Hd1 in Hk. injection Hk as <-. rewrite Hcount.
      destruct (daily_summary db !! _) as [d0|]; cbn [from_option] in *; [|lia].
      apply Hle. eauto.
    + rewrite (Hoth k Hne) in Hk. exact (Hcap k d Hk).
Qed.

(** ** The penalty sweeps *)

Lemma for_each_preserves {A} (R : Db → Db → Prop) (body : A → Tx unit) (rows : list A) :
  (∀ db, R db db) →
  (∀ a b c, R a b → R b c → R a c) →
  (∀ a db, ∃ db', body a db = inr (tt, db') ∧ R db db') →
  ∀ db, ∃ db', for_each body rows db = inr (tt, db') ∧ R db db'.
Proof.
  intros Hrefl Htrans Hbody. induction rows as [|a rows IH]; intros db.
  - exists db. split; [reflexivity | apply Hrefl].
  - cbn [for_each]. unfold bind.
    destruct (Hbody a db) as (db1 & -> & H1).
    destruct (IH db1) as (db2 & -> & H2).
    exists db2. split; [reflexivity | exact (Htrans _ _ _ H1 H2)].
Qed.

Lemma penalized_from_refl (db : Db) : penalized_from db db.
Proof. repeat split. Qed.

Lemma penalized_from_trans (a b c : Db) :
  penalized_from a b → penalized_from b c → penalized_from a c.
Proof.
  intros (H1 & H2 & H3 & H4 & H5 & H6) (K1 & K2 & K3 & K4 & K5 & K6).
  repeat split; congruence.
Qed.

Lemma map_key_touch (k : Z) (f : Borrowing → Borrowing) (rows : list Borrowing) :
  (∀ b, row_key (f b) = row_key b) →
  List.map row_key (List.map (touch k f) rows) = List.map row_key rows.
Proof.
  intros Hf. rewrite map_map. apply map_ext. intros b. unfold touch.
  destruct (bool_decide (id b = k)); [apply Hf | reflexivity].
Qed.

Lemma penalize_step (k : Z) (x : Q) (stamp : Z) (l : LogEntry) (db : Db) :
  penalized_from db (insert_log l (update_borrowing k (penalize x stamp) db)).
Proof.
  unfold penalized_from. db_simpl.
  rewrite map_key_touch by reflexivity. repeat split.
Qed.

Lemma penalty_body_penalized now b db :
  ∃ db', penalty_body now b db = inr (tt, db') ∧ penalized_from db db'.
Proof.
  unfold penalty_body. destruct (fullPeriods_of now b) as [n|].
  - unfold bind, exec. eexists. split; [reflexivity | apply penalize_step].
  - exists db. split; [reflexivity | apply penalized_from_refl].
Qed.

Lemma admin_penalty_body_penalized cfg now b db :
  ∃ db', admin_penalty_body cfg now b db = inr (tt, db') ∧ penalized_from db db'.
Proof.
  unfold admin_penalty_body. destruct (admin_periods_of cfg now b) as [n|].
  - unfold bind, exec. eexists. split; [reflexivity | apply penalize_step].
  - exists db. split; [reflexivity | apply penalized_from_refl].
Qed.

(** Both sweeps always commit, and they only touch amounts, stamps and the log. *)
Lemma runPenalties_penalized now db :
  ∃ db', runPenalties now db = (inr tt, db') ∧ penalized_from db db'.
Proof.
  unfold runPenalties, transaction, bind, query.
  destruct (for_each_preserves penalized_from (penalty_body now) (all_open db)
              penalized_from_refl penalized_from_trans (penalty_body_penalized now) db)
    as (db' & -> & H).
  exists db'. split; [reflexivity | exact H].
Qed.

Lemma admin_runPenalties_penalized cfg now db :
  ∃ db', admin_runPenalties cfg now db = (inr tt, db') ∧ penalized_from db db'.
Proof.
  unfold admin_runPenalties, transaction, bind, query.
  destruct (for_each_preserves penalized_from (admin_penalty_body cfg now) (all_open db)
              penalized_from_refl penalized_from_trans
              (admin_penalty_body_penalized cfg now) db)
    as (db' & -> & H).
  exists db'. split; [reflexivity | exact H].
Qed.

(** ** The other handlers on [borrowing] and [daily_summary] *)

Lemma repay_rejected_unchanged now req db e db' :
  repay now req db = (inl e, db') → db' = db.
Proof.
  unfold repay, refuse. destruct (Qle_bool (rp_amount req) 0); [congruence|].
  apply transaction_rollback.
Qed.

Lemma payFull_outcome now req db :
  match payFull now req db with
  | (inl _, db') => db' = db
  | (inr _, db') =>
    ∃ b, borrowing db' = List.map (touch (id b) (settle 0 PAID now)) (borrowing db) ∧
         next_borrowing_id db' = next_borrowing_id db ∧
         daily_summary db' = daily_summary db
  end.
Proof.
  unfold payFull, refuse.
  destruct (parse_pool (pf_poolType req)) as [P|] eqn:HP; [|reflexivity].
  destruct (open_borrowings (pf_personId req) P db) as [|b rest] eqn:Hrows.
  - unfold transaction, bind, query, reject. rewrite Hrows. reflexivity.
  - destruct (payFull_accept now req db P b rest HP Hrows)
      as (db' & Hpay & Hb & Hn & _ & _ & Hd).
    unfold payFull in Hpay. rewrite HP in Hpay. rewrite Hpay.
    exists b. repeat split; assumption.
Qed.

Lemma deleteMember_outcome cfg req db :
  match deleteMember cfg req db with
  | (inl _, db') => db' = db
  | (inr _, db') =>
    ∃ pid, borrowing db' = List.filter (λ b, negb (bool_decide (person_id b = pid))) (borrowing db) ∧
           next_borrowing_id db' = next_borrowing_id db ∧
           daily_summary db' = filter (λ kv, fst (fst kv) ≠ pid) (daily_summary db)
  end.
Proof.
  unfold deleteMember, refuse.
  destruct (falsy (dm_password req) || _); [reflexivity|].
  destruct (dm_person_id req) as [pid|]; [|reflexivity].
  destruct (bool_decide (pid = 0%Z)); [reflexivity|].
  unfold transaction, bind, query, reject, exec.
  destruct (person db !! pid); [|reflexivity].
  exists pid. repeat split.
Qed.

Lemma resetAll_outcome cfg password db :
  match resetAll cfg password db with
  | (inl _, db') => db' = db
  | (inr _, db') =>
    borrowing db' = [] ∧ next_borrowing_id db' = 1%Z ∧ daily_summary db' = ∅
  end.
Proof.
  unfold resetAll, refuse.
  destruct (falsy password || _); [reflexivity|].
  unfold transaction, bind, exec. repeat split.
Qed.

Lemma createMember_outcome cfg req db :
  match createMember cfg req db with
  | (inl _, db') => db' = db
  | (inr _, db') =>
    borrowing db' = borrowing db ∧ next_borrowing_id db' = next_borrowing_id db ∧
    daily_summary db' = daily_summary db
  end.
Proof.
  unfold createMember, refuse.
  destruct (bool_decide (cm_name req = "")); [reflexivity|].
  destruct (falsy (cm_adminPassword req) || _); [reflexivity|].
  unfold transaction, bind, query, exec, ret. repeat split.
Qed.

Lemma save_borrowing cfg now req db :
  borrowing (snd (saveUnitsAndValidity cfg now req db)) = borrowing db
  ∧ next_borrowing_id (snd (saveUnitsAndValidity cfg now req db)) = next_borrowing_id db.
Proof.
  destruct (Z.ltb_spec (sv_units req) 0) as [Hneg|Hlo].
  { unfold saveUnitsAndValidity. rewrite (proj2 (Z.ltb_lt _ _) Hneg). split; reflexivity. }
  destruct (Z.gtb_spec (sv_units req) 4) as [Hbig|Hhi].
  { unfold saveUnitsAndValidity. rewrite (proj2 (Z.gtb_gt _ _) (Z.lt_gt _ _ Hbig)).
    rewrite orb_true_r. split; reflexivity. }
  pose proof (save_spec cfg now req db (conj Hlo Hhi)) as Hs. cbv zeta in Hs.
  destruct (saveUnitsAndValidity cfg now req db) as [[e|ok] db']; cbn [snd].
  - destruct Hs as [-> _]. split; reflexivity.
  - destruct Hs as (_ & _ & _ & _ & _ & _ & _ & Hb & Hn & _). split; assumption.
Qed.

Lemma retro_borrowing cfg now req db :
  borrowing (snd (retroactiveFill cfg now req db)) = borrowing db
  ∧ next_borrowing_id (snd (retroactiveFill cfg now req db)) = next_borrowing_id db.
Proof.
  pose proof (retroactiveFill_daily cfg now req db) as Hs.
  destruct (retroactiveFill cfg now req db) as [[e|ok] db']; cbn [snd].
  - rewrite Hs. split; reflexivity.
  - destruct Hs as (date & _ & _ & Hs). cbv zeta in Hs.
    destruct Hs as (_ & _ & _ & Hb & Hn). split; assumption.
Qed.

(** ** The daily cap along runs *)

Lemma step_units_capped cfg op db : units_capped db → units_capped (step cfg op db).
Proof.
  intros Hcap. destruct op as [now req|now req|now req|now|now|req|pw|req|now req|now req];
    cbn [step].
  - destruct (borrow cfg now req db) as [[e|ok] db'] eqn:Hb; cbn [snd].
    + rewrite (borrow_rejected_unchanged _ _ _ _ _ _ Hb). exact Hcap.
    + destruct (borrow_success_inv _ _ _ _ _ _ Hb)
        as (P & personal & g & isAdm & _ & _ & _ & _ & _ & _ & _ & _ & _ & _ & _ & _ & _ & _ & Hd & _).
      unfold units_capped. rewrite Hd. exact Hcap.
  - destruct (repay now req db) as [[e|ok] db'] eqn:Hb; cbn [snd].
    + rewrite (repay_rejected_unchanged _ _ _ _ _ Hb). exact Hcap.
    + destruct (repay_success_inv _ _ _ _ _ Hb) as (b & Hall).
      cbv zeta in Hall. destruct Hall as (_ & _ & _ & _ & _ & _ & _ & _ & _ & _ & Hd).
      unfold units_capped. rewrite Hd. exact Hcap.
  - pose proof (payFull_outcome now req db) as Ho.
    destruct (payFull now req db) as [[e|ok] db']; cbn [snd].
    + rewrite Ho. exact Hcap.
    + destruct Ho as (b & _ & _ & Hd). unfold units_capped. rewrite Hd. exact Hcap.
  - destruct (runPenalties_penalized now db) as (db' & -> & _ & _ & Hd & _).
    cbn [snd]. unfold units_capped. rewrite Hd. exact Hcap.
  - destruct (admin_runPenalties_penalized cfg now db) as (db' & -> & _ & _ & Hd & _).
    cbn [snd]. unfold units_capped. rewrite Hd. exact Hcap.
  - pose proof (deleteMember_outcome cfg req db) as Ho.
    destruct (deleteMember cfg req db) as [[e|ok] db']; cbn [snd].
    + rewrite Ho. exact Hcap.
    + destruct Ho as (pid & _ & _ & Hd). unfold units_capped. rewrite Hd.
      intros k d Hk. apply map_lookup_filter_Some in Hk as [Hk _]. exact (Hcap k d Hk).
  - pose proof (resetAll_outcome cfg pw db) as Ho.
    destruct (resetAll cfg pw db) as [[e|ok] db']; cbn [snd].
    + rewrite Ho. exact Hcap.
    + destruct Ho as (_ & _ & Hd). unfold units_capped. rewrite Hd.
      intros k d Hk. rewrite lookup_empty in Hk. discriminate.
  - pose proof (createMember_outcome cfg req db) as Ho.
    destruct (createMember cfg req db) as [[e|ok] db']; cbn [snd].
    + rewrite Ho. exact Hcap.
    + destruct Ho as (_ & _ & Hd). unfold units_capped. rewrite Hd. exact Hcap.
  - apply save_units_capped, Hcap.
  - apply retro_units_capped, Hcap.
Qed.

Lemma run_units_capped cfg ops db : units_capped db → units_capped (run cfg ops db).
Proof.
  revert db. induction ops as [|op ops IH]; intros db Hcap; [exact Hcap|].
  cbn [run fold_left]. apply IH, step_units_capped, Hcap.
Qed.

Lemma init_units_capped : units_capped init_db.
Proof. intros k d Hk. cbn in Hk. rewrite lookup_empty in Hk. discriminate. Qed.

Lemma retro_cap_rejected cfg now req db date d :
  rf_date req = Some date → (date < today_of now)%Z →
  (0 ≤ rf_addUnits req ≤ 4)%Z →
  daily_summary db !! (rf_personId req, date) = Some d →
  (units_count d ≤ 4)%Z →
  (4 < units_count d + rf_addUnits req)%Z →
  retroactiveFill cfg now req db = (inl UNITS_CAP_EXCEEDED, db).
Proof.
  intros Hdate Hpast [Hlo Hhi] Hd Hold Hover.
  unfold retroactiveFill, refuse. rewrite Hdate.
  destruct (Z.geb_spec date (today_of now)) as [?|_]; [lia|].
  destruct (Z.ltb_spec (rf_addUnits req) 0) as [?|_]; [lia|].
  destruct (Z.gtb_spec (rf_addUnits req) 4) as [?|_]; [lia|].
  cbn [orb].
  rewrite (bool_decide_eq_false_2 (rf_addUnits req = 0%Z)) by lia. cbn [andb].
  unfold transaction. unfold bind at 1.
  destruct (ensure_personal_spec (rf_personId req) db)
    as (db0 & -> & _ & Hday0 & _).
  unfold bind at 1. unfold query at 1. unfold bind at 1.
  pose proof (retro_apply_spec cfg (rf_personId req) date (rf_addUnits req)
                (rf_payValidityIfMissing req) _ db0 eq_refl Hlo) as Hs.
  cbv zeta in Hs. rewrite Hday0, Hd in Hs. rewrite Hday0, Hd. cbn [from_option] in Hs.
  destruct (retro_apply cfg _ _ _ _ _ db0) as [e|[[[[aU aUA] aV] fine] db1]].
  - destruct Hs as (-> & _). reflexivity.
  - destruct Hs as (Hle & _). specialize (Hle (ltac:(eauto))). lia.
Qed.

(** C8. Along every sequence of requests the unit count of every daily
    summary stays at most 4, in particular along every sequence of saves and
    retroactive fills aimed at one person and date; and a save or retroactive
    fill (with its units between 0 and 4, and a past date for the fill)
    whose units would take the day's count from at most 4 to above 4 is
    rejected with the daily-cap error of its handler and leaves the whole
    database, hence every balance, pool and daily summary, as it was. *)
Theorem daily_cap_never_exceeded cfg :
  (∀ ops db, units_capped db → units_capped (run cfg ops db)) ∧
  (∀ ops k d, daily_summary (run cfg ops init_db) !! k = Some d → (units_count d ≤ 4)%Z) ∧
  (∀ now req db d,
     (0 ≤ sv_units req ≤ 4)%Z →
     daily_summary db !! (sv_personId req, default (today_of now) (sv_effectiveDate req))
       = Some d →
     (4 < units_count d + sv_units req)%Z →
     saveUnitsAndValidity cfg now req db = (inl DAILY_CAP_EXCEEDED, db)) ∧
  (∀ now req db date d,
     rf_date req = Some date → (date < today_of now)%Z →
     (0 ≤ rf_addUnits req ≤ 4)%Z →
     daily_summary db !! (rf_personId req, date) = Some d →
     (units_count d ≤ 4)%Z →
     (4 < units_count d + rf_addUnits req)%Z →
     retroactiveFill cfg now req db = (inl UNITS_CAP_EXCEEDED, db)).
Proof.
  split; [|split; [|split]].
  - intros ops db. apply run_units_capped.
  - intros ops k d. apply (run_units_capped cfg ops init_db init_units_capped).
  - intros now req db d Hrange Hd Hover.
    pose proof (save_spec cfg now req db Hrange) as Hs. cbv zeta in Hs.
    rewrite Hd in Hs. cbn [from_option] in Hs.
    destruct (saveUnitsAndValidity cfg now req db) as [[e|ok] db'].
    + destruct Hs as (-> & -> & _). reflexivity.
    + destruct Hs as (Hle & _). specialize (Hle (ltac:(eauto))). lia.
  - intros now req db date d. apply retro_cap_rejected.
Qed.

Lemma daily_cap_never_exceeded_witness :
  saveUnitsAndValidity cfg250 noon0 save_fifth db_at_limit
    = (inl DAILY_CAP_EXCEEDED, db_at_limit) ∧
  retroactiveFill cfg250 noon0 fill_fifth db_at_limit
    = (inl UNITS_CAP_EXCEEDED, db_at_limit) ∧
  units_capped db_at_limit.
Proof.
  destruct (daily_summary db_at_limit
              !! (sv_personId save_fifth,
                  default (today_of noon0) (sv_effectiveDate save_fifth)))
    as [d|] eqn:Hd; [|vm_compute in Hd; discriminate].
  destruct (daily_summary db_at_limit !! (rf_personId fill_fifth, (day0 - 1)%Z))
    as [d'|] eqn:Hd'; [|vm_compute in Hd'; discriminate].
  destruct (daily_cap_never_exceeded cfg250) as (Wrun & _ & Wsave & Wfill).
  split; [|split].
  - apply (Wsave noon0 save_fifth db_at_limit d); [vm_compute; split; discriminate | exact Hd |].
    vm_compute in Hd. injection Hd as <-. reflexivity.
  - apply (Wfill noon0 fill_fifth db_at_limit (day0 - 1)%Z d');
      [reflexivity | reflexivity | vm_compute; split; discriminate | exact Hd' | |];
      vm_compute in Hd'; injection Hd' as <-; [vm_compute; discriminate | reflexivity].
  - apply (Wrun ops_at_limit init_db). intros k d0 Hk. cbn in Hk.
    rewrite lookup_empty in Hk. discriminate.
Defined.

(** ** The validity fee *)

Lemma save_out_of_range cfg now req db :
  ¬ (0 ≤ sv_units req ≤ 4)%Z →
  saveUnitsAndValidity cfg now req db = (inl UNITS_OUT_OF_RANGE, db).
Proof.
  intros Hr. unfold saveUnitsAndValidity, refuse.
  destruct (Z.ltb_spec (sv_units req) 0); [reflexivity|].
  destruct (Z.gtb_spec (sv_units req) 4); [reflexivity|]. lia.
Qed.

Lemma save_success_in_range cfg now req db ok db' :
  saveUnitsAndValidity cfg now req db = (inr ok, db') → (0 ≤ sv_units req ≤ 4)%Z.
Proof.
  intros H. destruct (decide (0 ≤ sv_units req ≤ 4)%Z) as [?|Hr]; [assumption|].
  rewrite (save_out_of_range cfg now req db Hr) in H. discriminate.
Qed.

(** C9. Two saves that ask for the validity fee for one person and date
    charge it once.  If the first is accepted on a day whose fee was not yet
    paid it applies VALIDITY_FEE, to the person's validity balance and to
    the VALIDITY pool; the second then applies a validity amount of 0 and,
    accepted or not, leaves the validity balance and the VALIDITY pool as
    the first left them.  And an accepted save whose total applied amount is
    not positive adds no row to the transaction log, while one with a
    positive total adds exactly one SAVING row of that amount. *)
Theorem validity_fee_charged_once cfg :
  (∀ now1 now2 req1 req2 db ok1 db1,
     sv_payValidity req1 = true → sv_payValidity req2 = true →
     sv_personId req2 = sv_personId req1 →
     default (today_of now2) (sv_effectiveDate req2)
       = default (today_of now1) (sv_effectiveDate req1) →
     saveUnitsAndValidity cfg now1 req1 db = (inr ok1, db1) →
     let pid := sv_personId req1 in
     let date := default (today_of now1) (sv_effectiveDate req1) in
     let out2 := saveUnitsAndValidity cfg now2 req2 db1 in
     (from_option validity_paid false (daily_summary db !! (pid, date)) = false →
      appliedValidityAmount (applied ok1) = VALIDITY_FEE cfg ∧
      validity_savings_balance <$> personal_balance db1 !! pid
        = Some (from_option validity_savings_balance 0.00 (personal_balance db !! pid)
                + VALIDITY_FEE cfg) ∧
      group_validity db1 = (λ g, g + VALIDITY_FEE cfg) <$> group_validity db) ∧
     (∀ ok2, fst out2 = inr ok2 → appliedValidityAmount (applied ok2) = 0) ∧
     validity_savings_balance <$> personal_balance (snd out2) !! pid
       = validity_savings_balance <$> personal_balance db1 !! pid ∧
     group_validity (snd out2) = group_validity db1) ∧
  (∀ now req db ok db',
     saveUnitsAndValidity cfg now req db = (inr ok, db') →
     let total :=
       round2 (appliedUnitsAmount (applied ok) + appliedValidityAmount (applied ok)) in
     (total <= 0 → transaction_log db' = transaction_log db) ∧
     (0 < total →
      ∃ entry, transaction_log db' = transaction_log db ++ [entry] ∧
               transaction_type entry = T_SAVING ∧ amount entry = total)).
Proof.
  split.
  - intros now1 now2 req1 req2 db ok1 db1 Hpv1 Hpv2 Hpid Hdate H1. cbv zeta.
    pose proof (save_spec cfg now1 req1 db (save_success_in_range _ _ _ _ _ _ H1)) as S1.
    cbv zeta in S1. rewrite H1, Hpv1 in S1. cbn [orb andb] in S1.
    destruct S1 as (_ & _ & HaV1 & (d1 & Hd1 & _ & Hpaid1) & _ & Hval1 & Hgv1 & _).
    split.
    { intros Hunpaid. rewrite Hunpaid in HaV1, Hval1, Hgv1. cbn [negb] in *.
      repeat split; assumption. }
    destruct (decide (0 ≤ sv_units req2 ≤ 4)%Z) as [Hr2|Hr2].
    + pose proof (save_spec cfg now2 req2 db1 Hr2) as S2. cbv zeta in S2.
      rewrite Hpid, Hdate, Hd1, Hpv2 in S2. cbn [from_option] in S2.
      rewrite Hpaid1 in S2. cbn [andb negb orb] in S2.
      destruct (saveUnitsAndValidity cfg now2 req2 db1) as [[e|ok2] db2]; cbn [fst snd].
      * destruct S2 as (-> & _). repeat split. intros ok2 ?. discriminate.
      * destruct S2 as (_ & _ & HaV2 & _ & _ & Hval2 & Hgv2 & _).
        split; [intros ? [= <-]; exact HaV2|].
        split.
        -- rewrite Hval2.
           destruct (personal_balance db1 !! sv_personId req1) as [p|];
             [reflexivity | discriminate Hval1].
        -- rewrite Hgv2. apply option_fmap_id_fun.
    + rewrite (save_out_of_range cfg now2 req2 db1 Hr2). cbn [fst snd].
      repeat split. intros ok2 ?. discriminate.
  - intros now req db ok db' H. cbv zeta.
    pose proof (save_spec cfg now req db (save_success_in_range _ _ _ _ _ _ H)) as S.
    cbv zeta in S. rewrite H in S.
    destruct S as (_ & _ & _ & _ & _ & _ & _ & _ & _ & Hlog).
    split.
    + intros Hle. rewrite (proj2 (Qgtb_false _ _) Hle) in Hlog.
      rewrite Hlog. apply app_nil_r.
    + intros Hlt. rewrite (proj2 (Qgtb_true _ _) Hlt) in Hlog.
      eexists. split; [exact Hlog|]. split; reflexivity.
Qed.

Lemma validity_fee_charged_once_witness :
  ∃ ok1 db1 ok2 db2,
    saveUnitsAndValidity cfg500 noon0 save_validity db_one_payment = (inr ok1, db1) ∧
    saveUnitsAndValidity cfg500 noon0 save_validity db1 = (inr ok2, db2) ∧
    appliedValidityAmount (applied ok1) = VALIDITY_FEE cfg500 ∧
    appliedValidityAmount (applied ok2) = 0 ∧
    group_validity db2 = group_validity db1 ∧
    transaction_log db2 = transaction_log db1.
Proof.
  destruct (saveUnitsAndValidity cfg500 noon0 save_validity db_one_payment)
    as [[e|ok1] db1] eqn:H1; [vm_compute in H1; discriminate|].
  destruct (validity_fee_charged_once cfg500) as [Wtwice Wlog].
  destruct (Wtwice noon0 noon0 save_validity save_validity db_one_payment ok1 db1
              eq_refl eq_refl eq_refl eq_refl H1)
    as (Wa & Wb & _ & Wd).
  destruct (Wa ltac:(vm_compute; reflexivity)) as [Wfee _].
  vm_compute in H1. injection H1 as <- <-.
  match type of Wd with
  | context [saveUnitsAndValidity ?c ?n ?r ?d] =>
    destruct (saveUnitsAndValidity c n r d) as [[e|ok2] db2] eqn:H2;
      [vm_compute in H2; discriminate|]
  end.
  cbn [fst snd] in Wb, Wd.
  destruct (Wlog _ _ _ _ _ H2) as [Wnone _].
  eexists _, _, ok2, db2.
  split; [reflexivity|]. split; [exact H2|].
  split; [exact Wfee|]. split; [exact (Wb ok2 eq_refl)|]. split; [exact Wd|].
  apply Wnone. vm_compute in H2. injection H2 as <- _. vm_compute. discriminate.
Defined.

(** ** The primary key of [borrowing] along runs *)

Lemma map_id_touch (k : Z) (f : Borrowing → Borrowing) (rows : list Borrowing) :
  (∀ b, id (f b) = id b) →
  List.map id (List.map (touch k f) rows) = List.map id rows.
Proof.
  intros Hf. rewrite map_map. apply map_ext. intros b. unfold touch.
  destruct (bool_decide (id b = k)); [apply Hf | reflexivity].
Qed.

Lemma map_id_keys (rows rows' : list Borrowing) :
  List.map row_key rows' = List.map row_key rows → List.map id rows' = List.map id rows.
Proof.
  intros H. apply (f_equal (List.map (λ k : Z * Z * PoolType * Status, fst (fst (fst k))))) in H.
  rewrite !map_map in H. exact H.
Qed.

Lemma NoDup_map_filter {A B} (f : A → B) (q : A → bool) (l : list A) :
  List.NoDup (List.map f l) → List.NoDup (List.map f (List.filter q l)).
Proof.
  induction l as [|a l IH]; intros Hnd; [exact Hnd|].
  cbn [List.map] in Hnd. apply NoDup_cons_iff in Hnd as [Hnotin Hnd].
  cbn [List.filter]. destruct (q a); [|exact (IH Hnd)].
  cbn [List.map]. apply List.NoDup_cons; [|exact (IH Hnd)].
  intros Hin. apply Hnotin. apply in_map_iff in Hin as (x & Hx & Hin).
  apply in_map_iff. exists x. split; [exact Hx|]. apply filter_In in Hin. apply Hin.
Qed.

Lemma Forall_map_filter {A B} (P : B → Prop) (f : A → B) (q : A → bool) (l : list A) :
  Forall P (List.map f l) → Forall P (List.map f (List.filter q l)).
Proof.
  rewrite !List.Forall_forall. intros H x Hin. apply H.
  apply in_map_iff in Hin as (a & Ha & Hin). apply in_map_iff. exists a.
  split; [exact Ha|]. apply filter_In in Hin. apply Hin.
Qed.

Lemma ids_fresh_same (db db' : Db) :
  List.map id (borrowing db') = List.map id (borrowing db) →
  next_borrowing_id db' = next_borrowing_id db →
  ids_fresh db → ids_fresh db'.
Proof. unfold ids_fresh. intros -> ->. tauto. Qed.

Lemma ids_fresh_insert (db db' : Db) (row : Borrowing) :
  borrowing db' = borrowing db ++ [row] →
  id row = next_borrowing_id db →
  next_borrowing_id db' = (next_borrowing_id db + 1)%Z →
  ids_fresh db → ids_fresh db'.
Proof.
  unfold ids_fresh. intros -> Hid -> [Hnd Hlt]. rewrite map_app. cbn [List.map].
  split.
  - apply List.NoDup_app; [exact Hnd | constructor; [intros [] | constructor] |].
    intros a Hin [<-|[]]. rewrite List.Forall_forall in Hlt. specialize (Hlt _ Hin). lia.
  - apply List.Forall_app. split.
    + eapply List.Forall_impl; [|exact Hlt]. cbn. intros; lia.
    + constructor; [lia | constructor].
Qed.

Lemma step_ids_fresh cfg op db : ids_fresh db → ids_fresh (step cfg op db).
Proof.
  intros Hids. destruct op as [now req|now req|now req|now|now|req|pw|req|now req|now req];
    cbn [step].
  - destruct (borrow cfg now req db) as [[e|ok] db'] eqn:Hb; cbn [snd].
    + rewrite (borrow_rejected_unchanged _ _ _ _ _ _ Hb). exact Hids.
    + destruct (borrow_success_inv _ _ _ _ _ _ Hb)
        as (P & personal & g & isAdm & _ & _ & _ & _ & _ & _ & _ & Hall).
      cbv zeta in Hall. destruct Hall as (_ & Hrows & Hnext & _).
      exact (ids_fresh_insert db db' _ Hrows eq_refl Hnext Hids).
  - destruct (repay now req db) as [[e|ok] db'] eqn:Hb; cbn [snd].
    + rewrite (repay_rejected_unchanged _ _ _ _ _ Hb). exact Hids.
    + destruct (repay_success_inv _ _ _ _ _ Hb) as (b & Hall).
      cbv zeta in Hall. destruct Hall as (_ & _ & _ & _ & _ & _ & Hrows & Hnext & _).
      apply (ids_fresh_same db db'); [|exact Hnext|exact Hids].
      rewrite Hrows. apply map_id_touch. reflexivity.
  - pose proof (payFull_outcome now req db) as Ho.
    destruct (payFull now req db) as [[e|ok] db']; cbn [snd].
    + rewrite Ho. exact Hids.
    + destruct Ho as (b & Hrows & Hnext & _).
      apply (ids_fresh_same db db'); [|exact Hnext|exact Hids].
      rewrite Hrows. apply map_id_touch. reflexivity.
  - destruct (runPenalties_penalized now db) as (db' & -> & Hk & Hnext & _).
    cbn [snd]. apply (ids_fresh_same db db'); [|exact Hnext|exact Hids].
    apply map_id_keys, Hk.
  - destruct (admin_runPenalties_penalized cfg now db) as (db' & -> & Hk & Hnext & _).
    cbn [snd]. apply (ids_fresh_same db db'); [|exact Hnext|exact Hids].
    apply map_id_keys, Hk.
  - pose proof (deleteMember_outcome cfg req db) as Ho.
    destruct (deleteMember cfg req db) as [[e|ok] db']; cbn [snd].
    + rewrite Ho. exact Hids.
    + destruct Ho as (pid & Hrows & Hnext & _). destruct Hids as [Hnd Hlt].
      unfold ids_fresh. rewrite Hrows, Hnext. split.
      * apply NoDup_map_filter, Hnd.
      * apply Forall_map_filter, Hlt.
  - pose proof (resetAll_outcome cfg pw db) as Ho.
    destruct (resetAll cfg pw db) as [[e|ok] db']; cbn [snd].
    + rewrite Ho. exact Hids.
    + destruct Ho as (Hrows & Hnext & _). unfold ids_fresh. rewrite Hrows.
      split; constructor.
  - pose proof (createMember_outcome cfg req db) as Ho.
    destruct (createMember cfg req db) as [[e|ok] db']; cbn [snd].
    + rewrite Ho. exact Hids.
    + destruct Ho as (Hrows & Hnext & _).
      apply (ids_fresh_same db db'); [rewrite Hrows; reflexivity|exact Hnext|exact Hids].
  - destruct (save_borrowing cfg now req db) as [Hrows Hnext].
    apply (ids_fresh_same db); [rewrite Hrows; reflexivity|exact Hnext|exact Hids].
  - destruct (retro_borrowing cfg now req db) as [Hrows Hnext].
    apply (ids_fresh_same db); [rewrite Hrows; reflexivity|exact Hnext|exact Hids].
Qed.

Lemma init_ids_fresh : ids_fresh init_db.
Proof. split; constructor. Qed.

Lemma run_ids_fresh cfg ops db : ids_fresh db → ids_fresh (run cfg ops db).
Proof.
  revert db. induction ops as [|op ops IH]; intros db H; [exact H|].
  cbn [run fold_left]. apply IH, step_ids_fresh, H.
Qed.

(** ** One OPEN borrowing per person and pool *)

Lemma is_open_of_key p pt (b b' : Borrowing) :
  row_key b = row_key b' → is_open_of p pt b = is_open_of p pt b'.
Proof. unfold row_key, is_open_of. intros [= _ -> -> ->]. reflexivity. Qed.

Lemma open_length_keys p pt (rows rows' : list Borrowing) :
  List.map row_key rows' = List.map row_key rows →
  length (List.filter (is_open_of p pt) rows') = length (List.filter (is_open_of p pt) rows).
Proof.
  revert rows. induction rows' as [|b' rows' IH]; intros [|b rows] H; try discriminate;
    [reflexivity|].
  cbn [List.map] in H.
  assert (Hk : row_key b' = row_key b) by congruence.
  assert (Ht : List.map row_key rows' = List.map row_key rows) by congruence.
  cbn [List.filter]. rewrite (is_open_of_key p pt b' b Hk).
  destruct (is_open_of p pt b); cbn [length]; rewrite (IH rows Ht); reflexivity.
Qed.

Lemma filter_length_map_le {A} (q : A → bool) (f : A → A) (l : list A) :
  (∀ a, In a l → q (f a) = true → q a = true) →
  (length (List.filter q (List.map f l)) ≤ length (List.filter q l))%nat.
Proof.
  induction l as [|a l IH]; intros H; [reflexivity|].
  cbn [List.map List.filter].
  assert (IH' := IH (λ x Hx, H x (or_intror Hx))).
  destruct (q (f a)) eqn:E.
  - rewrite (H a (or_introl eq_refl) E). cbn [length]. lia.
  - destruct (q a); cbn [length]; lia.
Qed.

Lemma filter_length_filter_le {A} (q r : A → bool) (l : list A) :
  (length (List.filter q (List.filter r l)) ≤ length (List.filter q l))%nat.
Proof.
  induction l as [|a l IH]; [reflexivity|].
  cbn [List.filter]. destruct (r a); cbn [List.filter]; destruct (q a); cbn [length]; lia.
Qed.

Lemma override_not_granted cfg now req db isAdm db' :
  override_granted cfg (Borrow now req) = false →
  check_override cfg req db = inr (isAdm, db') → isAdm = false.
Proof.
  unfold override_granted, check_override, ret, reject.
  destruct (br_adminOverride req); [|congruence]. cbn [andb].
  destruct (falsy (br_adminPassword req)); cbn [negb andb orb]; [discriminate|].
  intros ->. cbn [negb]. discriminate.
Qed.

Lemma step_one_open cfg op db :
  ids_fresh db → at_most_one_open db → override_granted cfg op = false →
  at_most_one_open (step cfg op db).
Proof.
  intros Hids Hone Hov.
  destruct op as [now req|now req|now req|now|now|req|pw|req|now req|now req]; cbn [step].
  - destruct (borrow cfg now req db) as [[e|ok] db'] eqn:Hb; cbn [snd].
    + rewrite (borrow_rejected_unchanged _ _ _ _ _ _ Hb). exact Hone.
    + destruct (borrow_success_inv _ _ _ _ _ _ Hb)
        as (P & personal & g & isAdm & _ & _ & _ & _ & Hchk & Hel & _ & Hall).
      cbv zeta in Hall. destruct Hall as (_ & Hrows & _).
      rewrite (override_not_granted _ _ _ _ _ _ Hov Hchk) in Hel.
      destruct (Hel eq_refl) as (_ & Hnone & _).
      intros p pt. unfold open_borrowings. rewrite Hrows, List.filter_app, List.length_app.
      cbn [List.filter]. unfold is_open_of at 2. cbn [person_id status pool_type].
      rewrite (bool_decide_eq_true_2 (OPEN = OPEN)) by reflexivity.
      destruct (bool_decide (br_personId req = p)) eqn:E1;
        destruct (bool_decide (P = pt)) eqn:E2; cbn [andb length];
        try (specialize (Hone p pt); unfold open_borrowings in Hone; lia).
      apply bool_decide_eq_true_1 in E1, E2. subst p pt.
      unfold open_borrowings in Hnone. rewrite Hnone. cbn [length]. lia.
  - destruct (repay now req db) as [[e|ok] db'] eqn:Hb; cbn [snd].
    + rewrite (repay_rejected_unchanged _ _ _ _ _ Hb). exact Hone.
    + destruct (repay_success_inv _ _ _ _ _ Hb) as (b & Hfind & _ & Hopen & _ & _ & Hall).
      cbv zeta in Hall. destruct Hall as (_ & Hrows & _).
      intros p pt. unfold open_borrowings. rewrite Hrows.
      etransitivity; [apply filter_length_map_le | apply Hone].
      intros r Hr. unfold touch. destruct (bool_decide (id r = rp_borrowingId req)) eqn:E;
        [|tauto].
      apply bool_decide_eq_true_1 in E.
      assert (r = b) as ->.
      { unfold borrowing_by_id in Hfind. rewrite <- E in Hfind.
        rewrite (find_by_unique_id _ r (proj1 Hids) Hr) in Hfind. congruence. }
      unfold is_open_of. cbn [settle person_id status pool_type]. rewrite Hopen.
      rewrite (bool_decide_eq_true_2 (OPEN = OPEN)) by reflexivity.
      rewrite !andb_true_iff. tauto.
  - pose proof (payFull_outcome now req db) as Ho.
    destruct (payFull now req db) as [[e|ok] db']; cbn [snd].
    + rewrite Ho. exact Hone.
    + destruct Ho as (b & Hrows & _).
      intros p pt. unfold open_borrowings. rewrite Hrows.
      etransitivity; [apply filter_length_map_le | apply Hone].
      intros r Hr. unfold touch. destruct (bool_decide (id r = id b)); [|tauto].
      unfold is_open_of. cbn [settle person_id status pool_type].
      rewrite andb_false_r. discriminate.
  - destruct (runPenalties_penalized now db) as (db' & -> & Hk & _).
    cbn [snd]. intros p pt. unfold open_borrowings.
    rewrite (open_length_keys p pt _ _ Hk). apply Hone.
  - destruct (admin_runPenalties_penalized cfg now db) as (db' & -> & Hk & _).
    cbn [snd]. intros p pt. unfold open_borrowings.
    rewrite (open_length_keys p pt _ _ Hk). apply Hone.
  - pose proof (deleteMember_outcome cfg req db) as Ho.
    destruct (deleteMember cfg req db) as [[e|ok] db']; cbn [snd].
    + rewrite Ho. exact Hone.
    + destruct Ho as (pid & Hrows & _). intros p pt. unfold open_borrowings.
      rewrite Hrows. etransitivity; [apply filter_length_filter_le | apply Hone].
  - pose proof (resetAll_outcome cfg pw db) as Ho.
    destruct (resetAll cfg pw db) as [[e|ok] db']; cbn [snd].
    + rewrite Ho. exact Hone.
    + destruct Ho as (Hrows & _). intros p pt. unfold open_borrowings.
      rewrite Hrows. cbn. lia.
  - pose proof (createMember_outcome cfg req db) as Ho.
    destruct (createMember cfg req db) as [[e|ok] db']; cbn [snd].
    + rewrite Ho. exact Hone.
    + destruct Ho as (Hrows & _). intros p pt. unfold open_borrowings.
      rewrite Hrows. apply Hone.
  - destruct (save_borrowing cfg now req db) as [Hrows _].
    intros p pt. unfold open_borrowings. rewrite Hrows. apply Hone.
  - destruct (retro_borrowing cfg now req db) as [Hrows _].
    intros p pt. unfold open_borrowings. rewrite Hrows. apply Hone.
Qed.

(** C2, as the code has it.  Every request other than a borrow whose admin
    override is granted keeps at most one OPEN borrowing per person and pool
    (on a table whose ids are a primary key, which every request keeps), so
    every state reached from the seeded database without a granted override
    has at most one OPEN borrowing per person and pool.  A borrow under a
    granted override skips the open-debt check. *)
Theorem one_open_without_override cfg :
  (∀ op db, ids_fresh db → at_most_one_open db → override_granted cfg op = false →
            ids_fresh (step cfg op db) ∧ at_most_one_open (step cfg op db)) ∧
  (∀ ops, Forall (λ op, override_granted cfg op = false) ops →
          at_most_one_open (run cfg ops init_db)).
Proof.
  split.
  - intros op db Hids Hone Hov. split; [apply step_ids_fresh, Hids|].
    apply step_one_open; assumption.
  - intros ops Hops.
    assert (H : ∀ db, ids_fresh db → at_most_one_open db →
                      at_most_one_open (run cfg ops db)).
    { induction Hops as [|op ops Hop Hops IH]; intros db Hids Hone; [exact Hone|].
      cbn [run fold_left]. apply IH; [apply step_ids_fresh, Hids|].
      apply step_one_open; assumption. }
    apply H; [apply init_ids_fresh|]. intros p pt. cbn. lia.
Qed.

Lemma one_open_without_override_witness :
  at_most_one_open (run cfg250 (ops_at_limit ++ [Borrow noon0 borrow_1300]) init_db).
Proof.
  apply (proj2 (one_open_without_override cfg250)).
  repeat constructor.
Defined.

(** C2 as stated fails: two borrows of ann from MAIN, each under a granted
    admin override, leave her with two OPEN borrowings in MAIN. *)
Lemma two_open_after_override :
  Forall (λ op, override_granted cfg500 op = true)
    [Borrow noon0 override_100; Borrow noon0 override_100] ∧
  List.map (λ b, (id b, person_id b, pool_type b, status b))
    (open_borrowings 1 MAIN (run cfg500 ops_two_open init_db))
  = [(1, 1, MAIN, OPEN); (2, 1, MAIN, OPEN)]%Z ∧
  ¬ at_most_one_open (run cfg500 ops_two_open init_db).
Proof.
  split; [repeat constructor|]. split; [vm_compute; reflexivity|].
  intros H. specialize (H 1%Z MAIN).
  assert (E : length (open_borrowings 1 MAIN (run cfg500 ops_two_open init_db)) = 2%nat)
    by (vm_compute; reflexivity).
  rewrite E in H. lia.
Qed.

(** ** What the sweeps write *)

Lemma map_touch_same (k : Z) (rows : list Borrowing) :
  List.map (touch k (λ r, r)) rows = rows.
Proof.
  induction rows as [|r rows IH]; [reflexivity|]. cbn [List.map]. rewrite IH.
  unfold touch. destruct (bool_decide (id r = k)); reflexivity.
Qed.

Lemma find_id_none (k : Z) (rows : list Borrowing) :
  ¬ In k (List.map id rows) → List.find (λ b, bool_decide (id b = k)) rows = None.
Proof.
  induction rows as [|b rows IH]; intros Hk; [reflexivity|].
  cbn [List.find]. cbn [List.map] in Hk.
  rewrite bool_decide_eq_false_2 by (intros E; apply Hk; left; exact E).
  apply IH. intros Hin. apply Hk. right. exact Hin.
Qed.

(** A loop whose body updates the row with the id of the selected row [b] by
    [g b] rewrites every row of the table by the selected row of the same id. *)
Lemma for_each_rows (body : Borrowing → Tx unit) (g : Borrowing → Borrowing → Borrowing)
    (rows : list Borrowing) :
  (∀ b db, ∃ db', body b db = inr (tt, db') ∧
                  borrowing db' = List.map (touch (id b) (g b)) (borrowing db)) →
  (∀ b r, id (g b r) = id r) →
  List.NoDup (List.map id rows) →
  ∀ db, ∃ db', for_each body rows db = inr (tt, db') ∧
    borrowing db' =
      List.map (λ r, match List.find (λ b, bool_decide (id b = id r)) rows with
                     | Some b => g b r
                     | None => r
                     end) (borrowing db).
Proof.
  intros Hbody Hg. induction rows as [|b rows IH]; intros Hnd db.
  - exists db. split; [reflexivity|]. cbn [List.find]. symmetry. apply map_id.
  - cbn [List.map] in Hnd. apply NoDup_cons_iff in Hnd as [Hnotin Hnd].
    cbn [for_each]. unfold bind.
    destruct (Hbody b db) as (db1 & -> & H1).
    destruct (IH Hnd db1) as (db2 & -> & H2).
    exists db2. split; [reflexivity|].
    rewrite H2, H1, map_map. apply map_ext. intros r.
    cbn [List.find]. unfold touch.
    destruct (bool_decide (id b = id r)) eqn:E.
    + apply bool_decide_eq_true_1 in E.
      rewrite bool_decide_eq_true_2 by (symmetry; exact E).
      rewrite Hg, <- E, (find_id_none (id b) rows Hnotin). reflexivity.
    + apply bool_decide_eq_false_1 in E.
      rewrite bool_decide_eq_false_2 by (intros E'; apply E; symmetry; exact E').
      reflexivity.
Qed.

Lemma all_open_ids (db : Db) :
  List.NoDup (List.map id (borrowing db)) → List.NoDup (List.map id (all_open db)).
Proof. apply NoDup_map_filter. Qed.

Lemma find_all_open (db : Db) (r : Borrowing) :
  List.NoDup (List.map id (borrowing db)) → In r (borrowing db) →
  List.find (λ b, bool_decide (id b = id r)) (all_open db)
  = if bool_decide (status r = OPEN) then Some r else None.
Proof.
  intros Hnd Hr. destruct (bool_decide (status r = OPEN)) eqn:E.
  - apply find_by_unique_id; [apply all_open_ids, Hnd|].
    apply filter_In. split; assumption.
  - destruct (List.find _ (all_open db)) as [b|] eqn:Hf; [|reflexivity].
    apply find_some in Hf as [Hb Hid]. apply filter_In in Hb as [Hb Hopen].
    apply bool_decide_eq_true_1 in Hid.
    assert (b = r) as ->.
    { pose proof (find_by_unique_id _ b Hnd Hb) as F1.
      pose proof (find_by_unique_id _ r Hnd Hr) as F2.
      rewrite Hid, F2 in F1. injection F1 as F1. symmetry. exact F1. }
    rewrite E in Hopen. discriminate.
Qed.


(** The standalone sweep rewrites every row of a table with unique ids by
    [swept]: an OPEN row past its due date with [fullPeriods] full periods of
    its pool (30 days for MAIN, 7 for VALIDITY) gets the amount of
    [compound_once] and the second of the sweep as its stamp, every other
    row stays. *)
Lemma runPenalties_rows now db :
  List.NoDup (List.map id (borrowing db)) →
  ∃ db', runPenalties now db = (inr tt, db') ∧
         borrowing db' = List.map (swept now) (borrowing db).
Proof.
  intros Hnd. unfold runPenalties, transaction, bind, query.
  set (g := λ b : Borrowing,
         match fullPeriods_of now b with
         | Some n => penalize (compound_once (outstanding_amount b) n) (sql_now now)
         | None => λ r, r
         end).
  destruct (for_each_rows (penalty_body now) g (all_open db)) with (db := db)
    as (db' & -> & Hrows).
  - intros b d. unfold penalty_body, g. destruct (fullPeriods_of now b) as [n|].
    + unfold bind, exec. eexists. split; reflexivity.
    + exists d. split; [reflexivity|]. symmetry. apply map_touch_same.
  - intros b r. unfold g. destruct (fullPeriods_of now b); reflexivity.
  - apply all_open_ids, Hnd.
  - exists db'. split; [reflexivity|]. rewrite Hrows. apply map_ext_in.
    intros r Hr. rewrite (find_all_open db r Hnd Hr). unfold swept, g.
    destruct (bool_decide (status r = OPEN)); [|reflexivity].
    destruct (fullPeriods_of now r); reflexivity.
Qed.

(** The admin sweep rewrites every row by [admin_swept]: the period is 30
    days whatever the pool, and the amount is rounded after each period. *)
Lemma admin_runPenalties_rows cfg now db :
  List.NoDup (List.map id (borrowing db)) →
  ∃ db', admin_runPenalties cfg now db = (inr tt, db') ∧
         borrowing db' = List.map (admin_swept cfg now) (borrowing db).
Proof.
  intros Hnd. unfold admin_runPenalties, transaction, bind, query.
  set (g := λ b : Borrowing,
         match admin_periods_of cfg now b with
         | Some n => penalize (compound_each (outstanding_amount b) n) (admin_stamp cfg now)
         | None => λ r, r
         end).
  destruct (for_each_rows (admin_penalty_body cfg now) g (all_open db)) with (db := db)
    as (db' & -> & Hrows).
  - intros b d. unfold admin_penalty_body, g. destruct (admin_periods_of cfg now b) as [n|].
    + unfold bind, exec. eexists. split; reflexivity.
    + exists d. split; [reflexivity|]. symmetry. apply map_touch_same.
  - intros b r. unfold g. destruct (admin_periods_of cfg now b); reflexivity.
  - apply all_open_ids, Hnd.
  - exists db'. split; [reflexivity|]. rewrite Hrows. apply map_ext_in.
    intros r Hr. rewrite (find_all_open db r Hnd Hr). unfold admin_swept, g.
    destruct (bool_decide (status r = OPEN)); [|reflexivity].
    destruct (admin_periods_of cfg now r); reflexivity.
Qed.

(** One period compounds to the same amount either way. *)
Lemma compound_one_period (x : Q) : compound_each x 1 = compound_once x 1.
Proof.
  unfold compound_each, compound_once, fmul.
  cbn [Z.to_nat Pos.to_nat Pos.iter_op Nat.iter nat_rect].
  rewrite (fl_comp (fadd 1 0.10) (Math_pow 1.10 1)) by (vm_compute; reflexivity).
  reflexivity.
Qed.

(** On a MAIN row, with the server clock in UTC, the sweeps count the same
    periods. *)
Lemma periods_agree_main cfg now b :
  pool_type b = MAIN → tz_offset_ms cfg = 0%Z →
  admin_periods_of cfg now b = fullPeriods_of now b.
Proof.
  intros Hp Htz. unfold admin_periods_of, fullPeriods_of. rewrite Hp, Htz, Z.sub_0_r.
  reflexivity.
Qed.

(** C1, on the sweep that is routed at [POST /admin/penalties/run].  The rule
    of the claim asks for [round2 (110.00 * 1.10 ^ 2) = 133.10] on ann's
    VALIDITY borrowing 14 days after its due date (two full periods of 7
    days) and for [round2 (1000.04 * 1.10 ^ 2) = 1210.05] on her MAIN
    borrowing 60 days after its due date; the standalone sweep writes these
    amounts, while the admin sweep leaves the VALIDITY borrowing at 110.00
    (it counts periods of 30 days for every pool) and writes 1210.04 on the
    MAIN borrowing (it rounds after each period). *)
Theorem admin_sweep_against_rule :
  (∃ b, borrowing_by_id 2 db_debts = Some b ∧ pool_type b = VALIDITY ∧ status b = OPEN ∧
        outstanding_amount b == 110 ∧ due_date b = (day0 + 7)%Z ∧
        fullPeriods_of overdue_14_days b = Some 2%Z ∧
        admin_periods_of cfg250 overdue_14_days b = None ∧
        round2 (outstanding_amount b * 1.10 ^ 2) == 133.10) ∧
  (∃ x, outstanding_of 2 (snd (runPenalties overdue_14_days db_debts)) = Some x ∧
        x == 133.10) ∧
  (∃ x, outstanding_of 2 (snd (admin_runPenalties cfg250 overdue_14_days db_debts)) = Some x ∧
        x == 110) ∧
  (∃ b, borrowing_by_id 1 db_debts = Some b ∧ pool_type b = MAIN ∧ status b = OPEN ∧
        outstanding_amount b == 1000.04 ∧ due_date b = (day0 + 30)%Z ∧
        fullPeriods_of overdue_60_days b = Some 2%Z ∧
        admin_periods_of cfg250 overdue_60_days b = Some 2%Z ∧
        round2 (outstanding_amount b * 1.10 ^ 2) == 1210.05) ∧
  (∃ x, outstanding_of 1 (snd (runPenalties overdue_60_days db_debts)) = Some x ∧
        x == 1210.05) ∧
  (∃ x, outstanding_of 1 (snd (admin_runPenalties cfg250 overdue_60_days db_debts)) = Some x ∧
        x == 1210.04).
Proof.
  repeat split; eexists; (split; [vm_compute; reflexivity|]);
    repeat split; vm_compute; reflexivity.
Qed.

(** C3.  On one database, at one instant and with the server clock in UTC,
    the two sweeps write different amounts: 133.10 against 110.00 on the
    VALIDITY borrowing 14 days after its due date (periods of 7 days against
    periods of 30 days), and 1210.05 against 1210.04 on the MAIN borrowing 60
    days after its due date (one rounding against one per period). *)
Theorem sweeps_disagree :
  tz_offset_ms cfg250 = 0%Z ∧
  (∃ x y,
     outstanding_of 2 (snd (runPenalties overdue_14_days db_debts)) = Some x ∧
     outstanding_of 2 (snd (admin_runPenalties cfg250 overdue_14_days db_debts)) = Some y ∧
     x == 133.10 ∧ y == 110 ∧ ¬ x == y) ∧
  (∃ x y,
     outstanding_of 1 (snd (runPenalties overdue_60_days db_debts)) = Some x ∧
     outstanding_of 1 (snd (admin_runPenalties cfg250 overdue_60_days db_debts)) = Some y ∧
     x == 1210.05 ∧ y == 1210.04 ∧ ¬ x == y) ∧
  compound_once 1000.04 2 == 1210.05 ∧ compound_each 1000.04 2 == 1210.04.
Proof.
  split; [reflexivity|].
  split; [|split; [|split]].
  - eexists _, _. split; [vm_compute; reflexivity|]. split; [vm_compute; reflexivity|].
    repeat split; vm_compute; congruence.
  - eexists _, _. split; [vm_compute; reflexivity|]. split; [vm_compute; reflexivity|].
    repeat split; vm_compute; congruence.
  - vm_compute. reflexivity.
  - vm_compute. reflexivity.
Qed.

(** * Further properties of the handlers *)

(** ** What a handler body can commit *)

Section tx_rel.
Context (R : Db → Db → Prop).
Hypothesis R_refl : ∀ db, R db db.
Hypothesis R_trans : ∀ a b c, R a b → R b c → R a c.

Lemma tx_rel_ret {A} (a : A) : tx_rel R (ret a).
Proof. intros db a' db' [= _ <-]. apply R_refl. Qed.

Lemma tx_rel_reject {A} (e : Err) : tx_rel R (@reject A e).
Proof. intros db a db' H. discriminate H. Qed.

Lemma tx_rel_query {A} (f : Db → A) : tx_rel R (query f).
Proof. intros db a db' [= _ <-]. apply R_refl. Qed.

Lemma tx_rel_exec (f : Db → Db) : (∀ db, R db (f db)) → tx_rel R (exec f).
Proof. intros Hf db a db' [= _ <-]. apply Hf. Qed.

Lemma tx_rel_bind {A B} (m : Tx A) (k : A → Tx B) :
  tx_rel R m → (∀ a, tx_rel R (k a)) → tx_rel R (bind m k).
Proof.
  intros Hm Hk db b db' H. unfold bind in H.
  destruct (m db) as [e|[a db1]] eqn:E; [discriminate|].
  exact (R_trans _ _ _ (Hm _ _ _ E) (Hk a _ _ _ H)).
Qed.

Lemma tx_rel_when (b : bool) (m : Tx unit) : tx_rel R m → tx_rel R (when b m).
Proof. intros Hm. destruct b; [exact Hm | apply tx_rel_ret]. Qed.

Lemma tx_rel_for_each {A} (body : A → Tx unit) (rows : list A) :
  (∀ a, tx_rel R (body a)) → tx_rel R (for_each body rows).
Proof.
  intros Hbody. induction rows as [|a rows IH]; cbn [for_each].
  - apply tx_rel_ret.
  - apply tx_rel_bind; [apply Hbody | intros _; exact IH].
Qed.

Lemma tx_rel_insert_borrowing personId poolType amt profit outstanding dueDate :
  (∀ f g db, R db (set_borrowing f g db)) →
  tx_rel R (insert_borrowing personId poolType amt profit outstanding dueDate).
Proof. intros Hf db a db' [= _ <-]. apply Hf. Qed.

Lemma tx_rel_check_override cfg req : tx_rel R (check_override cfg req).
Proof.
  intros db a db' H. rewrite (check_override_state _ _ _ _ _ H). apply R_refl.
Qed.

Lemma tx_rel_transaction {A} (m : Tx A) (db : Db) :
  tx_rel R m → R db (snd (transaction m db)).
Proof.
  intros Hm. unfold transaction. destruct (m db) as [e|[a db']] eqn:E; cbn [snd].
  - apply R_refl.
  - exact (Hm _ _ _ E).
Qed.

Lemma tx_rel_refuse {A} (e : Err) (db : Db) : R db (snd (@refuse A e db)).
Proof. apply R_refl. Qed.
End tx_rel.

(** Walks through a handler body; the goals left are the [exec] steps. *)
Ltac tx_rel_walk Hrefl Htrans :=
  repeat first
    [ apply (tx_rel_ret _ Hrefl)
    | apply tx_rel_reject
    | apply (tx_rel_query _ Hrefl)
    | apply (tx_rel_check_override _ Hrefl)
    | apply (tx_rel_when _ Hrefl)
    | apply (tx_rel_for_each _ Hrefl Htrans); intros ?
    | apply (tx_rel_bind _ Htrans); [|intros ?]
    | apply (tx_rel_refuse _ Hrefl)
    | apply (tx_rel_transaction _ Hrefl)
    | apply tx_rel_insert_borrowing; intros ? ? ?
    | apply tx_rel_exec; intros ?
    | match goal with
      | |- tx_rel _ (match ?x with _ => _ end) => destruct x
      | |- tx_rel _ (if ?x then _ else _) => destruct x
      | |- _ _ (snd (match ?x with _ => _ end _)) => destruct x
      | |- _ _ (snd ((if ?x then _ else _) _)) => destruct x
      end ].

Ltac handlers_unfold :=
  unfold borrow, repay, payFull, runPenalties, admin_runPenalties, deleteMember, resetAll,
    createMember, saveUnitsAndValidity, retroactiveFill, penalty_body, admin_penalty_body,
    save_apply, retro_apply, apply_validity, apply_units, ensure_personal, fetch_balances,
    charge_fine.

Lemma appended_refl (db : Db) : appended db db.
Proof. split; exists []; symmetry; apply app_nil_r. Qed.

Lemma appended_trans (a b c : Db) : appended a b → appended b c → appended a c.
Proof.
  intros [[l1 H1] [p1 K1]] [[l2 H2] [p2 K2]]. split.
  - exists (l1 ++ l2). rewrite H2, H1. symmetry. apply app_assoc.
  - exists (p1 ++ p2). rewrite K2, K1. symmetry. apply app_assoc.
Qed.

Ltac appended_leaf :=
  split; eexists; db_simpl; first [reflexivity | symmetry; apply app_nil_r].

Lemma step_appended cfg op db : is_admin_wipe op = false → appended db (step cfg op db).
Proof.
  intros Hop. destruct op; try discriminate Hop; cbn [step]; handlers_unfold;
    tx_rel_walk appended_refl appended_trans; appended_leaf.
Qed.

Lemma same_people_refl (db : Db) : same_people db db.
Proof. split; reflexivity. Qed.

Lemma same_people_trans (a b c : Db) : same_people a b → same_people b c → same_people a c.
Proof. intros [H1 H2] [K1 K2]. split; congruence. Qed.

(** ** The audit trail *)

(** X1. Apart from the two admin clean-ups ([deleteMember] and [resetAll]),
    no request ever removes or rewrites a row of the transaction log or of
    the payments: along every sequence of such requests, accepted or
    rejected, the log and the payment table only grow at their end. *)
Theorem log_and_payments_append_only cfg ops db :
  Forall (λ op, is_admin_wipe op = false) ops →
  ∃ l p, transaction_log (run cfg ops db) = transaction_log db ++ l
         ∧ payment (run cfg ops db) = payment db ++ p.
Proof.
  intros Hops.
  assert (H : appended db (run cfg ops db)).
  { revert db. induction Hops as [|op ops Hop Hops IH]; intros db; [apply appended_refl|].
    cbn [run fold_left]. eapply appended_trans; [apply step_appended, Hop | apply IH]. }
  destruct H as [[l Hl] [p Hp]]. exists l, p. split; assumption.
Qed.

Lemma log_and_payments_append_only_witness :
  ∃ l p, transaction_log (run cfg250 [Borrow noon0 borrow_1300; Repay noon0 repay_1430] db_at_limit)
           = transaction_log db_at_limit ++ l
         ∧ payment (run cfg250 [Borrow noon0 borrow_1300; Repay noon0 repay_1430] db_at_limit)
           = payment db_at_limit ++ p.
Proof.
  apply (log_and_payments_append_only cfg250
           [Borrow noon0 borrow_1300; Repay noon0 repay_1430] db_at_limit).
  repeat constructor.
Defined.

(** ** Members and their ids *)

Lemma step_same_people cfg op db :
  match op with CreateMember _ | DeleteMember _ => False | _ => True end →
  same_people db (step cfg op db).
Proof.
  intros Hop. destruct op; try destruct Hop; cbn [step]; handlers_unfold;
    tx_rel_walk same_people_refl same_people_trans; split; reflexivity.
Qed.

Lemma createMember_inv cfg req db i db' :
  createMember cfg req db = (inr i, db') →
  i = next_person_id db ∧
  cm_name req ≠ "" ∧
  cm_adminPassword req = Some (ENV_ADMIN_PASSWORD cfg) ∧ ENV_ADMIN_PASSWORD cfg ≠ "" ∧
  person db' = <[i := cm_name req]> (person db) ∧
  next_person_id db' = (i + 1)%Z ∧
  personal_balance db' = <[i := mkPersonal 0.00 0.00]> (personal_balance db) ∧
  group_main db' = group_main db ∧ group_validity db' = group_validity db ∧
  borrowing db' = borrowing db ∧ next_borrowing_id db' = next_borrowing_id db ∧
  payment db' = payment db ∧ daily_summary db' = daily_summary db.
Proof.
  unfold createMember, refuse.
  destruct (bool_decide (cm_name req = "")) eqn:Hname; [discriminate|].
  destruct (falsy (cm_adminPassword req)) eqn:Hf; [discriminate|]. cbn [orb].
  destruct (bool_decide (cm_adminPassword req = Some (ENV_ADMIN_PASSWORD cfg))) eqn:Hpw;
    [|discriminate].
  cbn [negb]. unfold transaction, bind, query, exec, ret. intros [= <- <-].
  apply bool_decide_eq_false_1 in Hname. apply bool_decide_eq_true_1 in Hpw.
  split; [reflexivity|]. split; [exact Hname|]. split; [exact Hpw|].
  split.
  { intros E. rewrite Hpw, E in Hf. discriminate Hf. }
  repeat split.
Qed.

Lemma step_next_person_id cfg op db :
  (next_person_id db ≤ next_person_id (step cfg op db))%Z.
Proof.
  destruct op as [now req|now req|now req|now|now|req|pw|req|now req|now req].
  6: { cbn [step]. unfold deleteMember, refuse.
       destruct (falsy (dm_password req) || _); [reflexivity|].
       destruct (dm_person_id req) as [pid|]; [|reflexivity].
       destruct (bool_decide (pid = 0%Z)); [reflexivity|].
       unfold transaction, bind, query, reject, exec.
       destruct (person db !! pid); reflexivity. }
  7: { cbn [step]. destruct (createMember cfg req db) as [[e|i] db'] eqn:Hc; cbn [snd].
       - unfold createMember, refuse in Hc. repeat case_match; try (injection Hc as _ <-; lia).
         apply transaction_rollback in Hc. subst db'. lia.
       - destruct (createMember_inv _ _ _ _ _ Hc) as (-> & _ & _ & _ & _ & -> & _). lia. }
  all: match goal with
       | |- context [step ?c ?o ?d] =>
         destruct (step_same_people c o d I) as [_ ->]; lia
       end.
Qed.

Lemma run_next_person_id cfg ops db :
  (next_person_id db ≤ next_person_id (run cfg ops db))%Z.
Proof.
  revert db. induction ops as [|op ops IH]; intros db; [reflexivity|].
  cbn [run fold_left]. etransitivity; [apply step_next_person_id | apply IH].
Qed.

Lemma step_person_ids_fresh cfg op db :
  person_ids_fresh db → person_ids_fresh (step cfg op db).
Proof.
  intros Hf. destruct op as [now req|now req|now req|now|now|req|pw|req|now req|now req].
  6: { cbn [step]. unfold deleteMember, refuse.
       destruct (falsy (dm_password req) || _); [exact Hf|].
       destruct (dm_person_id req) as [pid|]; [|exact Hf].
       destruct (bool_decide (pid = 0%Z)); [exact Hf|].
       unfold transaction, bind, query, reject, exec.
       destruct (person db !! pid); [|exact Hf]. cbn [snd].
       intros k [n Hk]. db_simpl. unfold delete_dependents in *. db_simpl.
       apply lookup_delete_Some in Hk as [_ Hk]. apply Hf. eauto. }
  7: { cbn [step]. destruct (createMember cfg req db) as [[e|i] db'] eqn:Hc; cbn [snd].
       - unfold createMember, refuse in Hc. repeat case_match; try (injection Hc as _ <-; exact Hf).
         apply transaction_rollback in Hc. subst db'. exact Hf.
       - destruct (createMember_inv _ _ _ _ _ Hc) as (-> & _ & _ & _ & Hp & Hn & _).
         intros k [n Hk]. rewrite Hn. rewrite Hp in Hk.
         apply lookup_insert_Some in Hk as [[<- _]|[_ Hk]]; [lia|].
         specialize (Hf k ltac:(eauto)). lia. }
  all: match goal with
       | |- context [step ?c ?o ?d] =>
         destruct (step_same_people c o d I) as [Hp Hn];
         intros k Hk; rewrite Hn; apply Hf; rewrite <- Hp; exact Hk
       end.
Qed.

Lemma run_person_ids_fresh cfg ops db :
  person_ids_fresh db → person_ids_fresh (run cfg ops db).
Proof.
  revert db. induction ops as [|op ops IH]; intros db H; [exact H|].
  cbn [run fold_left]. apply IH, step_person_ids_fresh, H.
Qed.

Lemma init_person_ids_fresh : person_ids_fresh init_db.
Proof. intros k [n Hk]. cbn in Hk. rewrite lookup_empty in Hk. discriminate. Qed.

(** X2. The id of a member is never handed out again: whatever requests
    come between two accepted [createMember] (deleting the first member and
    resetting the ledger included), the second returns a larger id. *)
Theorem member_ids_never_reused cfg req db i db1 ops req2 j db2 :
  createMember cfg req db = (inr i, db1) →
  createMember cfg req2 (run cfg ops db1) = (inr j, db2) →
  (i < j)%Z.
Proof.
  intros H1 H2.
  destruct (createMember_inv _ _ _ _ _ H1) as (-> & _ & _ & _ & _ & Hn & _).
  destruct (createMember_inv _ _ _ _ _ H2) as (-> & _).
  pose proof (run_next_person_id cfg ops db1). lia.
Qed.

(** X3. In every state reached from the seeded database, an accepted
    [createMember] returns an id that no member has, registers the name under
    it with a personal balance of 0.00 / 0.00, keeps every other member as
    they were and moves no money: pools, borrowings, payments and daily
    summaries stay as they were. *)
Theorem createMember_adds_one_member cfg ops req i db1 :
  let db := run cfg ops init_db in
  createMember cfg req db = (inr i, db1) →
  person db !! i = None ∧
  person db1 !! i = Some (cm_name req) ∧
  (∀ k, k ≠ i → person db1 !! k = person db !! k
                 ∧ personal_balance db1 !! k = personal_balance db !! k) ∧
  (∃ p, personal_balance db1 !! i = Some p
        ∧ main_savings_balance p == 0 ∧ validity_savings_balance p == 0) ∧
  getGroupPools db1 = getGroupPools db ∧
  borrowing db1 = borrowing db ∧ payment db1 = payment db ∧
  daily_summary db1 = daily_summary db.
Proof.
  intros db H.
  destruct (createMember_inv _ _ _ _ _ H)
    as (Hi & _ & _ & _ & Hp & _ & Hb & Hgm & Hgv & Hbor & _ & Hpay & Hd).
  pose proof (run_person_ids_fresh cfg ops init_db init_person_ids_fresh) as Hf.
  fold db in Hf.
  split.
  { destruct (person db !! i) as [n|] eqn:E; [|reflexivity].
    specialize (Hf i ltac:(eauto)). lia. }
  split; [rewrite Hp; apply lookup_insert_eq|].
  split.
  { intros k Hk. rewrite Hp, Hb. rewrite !lookup_insert_ne by congruence. split; reflexivity. }
  split.
  { exists (mkPersonal 0.00 0.00). rewrite Hb. split; [apply lookup_insert_eq|].
    split; reflexivity. }
  unfold getGroupPools. rewrite Hgm, Hgv. repeat split; assumption.
Qed.

Lemma member_ids_never_reused_witness :
  ∃ i db1 j db2,
    createMember cfg250 (mkCreateReq "ann" secret) init_db = (inr i, db1) ∧
    createMember cfg250 (mkCreateReq "bob" secret)
      (run cfg250 [DeleteMember (mkDeleteReq (Some 1%Z) secret); ResetAll secret] db1)
      = (inr j, db2) ∧
    (i < j)%Z.
Proof.
  destruct (createMember cfg250 (mkCreateReq "ann" secret) init_db) as [[e|i] db1] eqn:H1;
    [vm_compute in H1; discriminate|].
  destruct (createMember cfg250 (mkCreateReq "bob" secret)
              (run cfg250 [DeleteMember (mkDeleteReq (Some 1%Z) secret); ResetAll secret] db1))
    as [[e|j] db2] eqn:H2.
  { vm_compute in H1. injection H1 as <- <-. vm_compute in H2. discriminate. }
  exists i, db1, j, db2. split; [reflexivity|]. split; [exact H2|].
  exact (member_ids_never_reused _ _ _ _ _ _ _ _ _ H1 H2).
Defined.

Lemma createMember_adds_one_member_witness :
  ∃ i db1,
    createMember cfg250 (mkCreateReq "eve" secret) (run cfg250 ops_at_limit init_db)
      = (inr i, db1) ∧
    person (run cfg250 ops_at_limit init_db) !! i = None ∧
    person db1 !! i = Some "eve".
Proof.
  destruct (createMember cfg250 (mkCreateReq "eve" secret) (run cfg250 ops_at_limit init_db))
    as [[e|i] db1] eqn:H1; [vm_compute in H1; discriminate|].
  exists i, db1. split; [reflexivity|].
  destruct (createMember_adds_one_member cfg250 ops_at_limit _ i db1 H1) as (W1 & W2 & _).
  split; [exact W1 | exact W2].
Defined.

(** ** Rows of [borrowing] along requests *)

Lemma compound_once_nonneg (x : Q) (n : Z) : 0 <= x → 0 <= compound_once x n.
Proof.
  intros Hx. unfold compound_once, Math_pow. apply round2_nonneg.
  apply fmul_nonneg; [exact Hx|]. apply fl_nonneg, Qpower_0_le, fl_nonneg. discriminate.
Qed.

Lemma compound_each_nonneg (x : Q) (n : Z) : 0 <= x → 0 <= compound_each x n.
Proof.
  intros Hx. unfold compound_each. induction (Z.to_nat n) as [|k IH]; [exact Hx|].
  cbn [Nat.iter nat_rect]. apply round2_nonneg.
  apply fmul_nonneg; [exact IH|]. vm_compute. discriminate.
Qed.

Lemma same_id_same_row (rows : list Borrowing) (x y : Borrowing) :
  List.NoDup (List.map id rows) → In x rows → In y rows → id x = id y → x = y.
Proof.
  intros Hnd Hx Hy E.
  pose proof (find_by_unique_id rows x Hnd Hx) as F1.
  pose proof (find_by_unique_id rows y Hnd Hy) as F2.
  rewrite E, F2 in F1. congruence.
Qed.

Lemma borrowing_by_id_In (k : Z) (db : Db) (b : Borrowing) :
  borrowing_by_id k db = Some b → In b (borrowing db).
Proof. unfold borrowing_by_id. intros H. apply find_some in H. apply H. Qed.

Lemma filter_none {A} (l : list A) : List.filter (λ _, false) l = [].
Proof. induction l; [reflexivity | assumption]. Qed.

Lemma amount_positive (x : Q) : Qle_bool x 0 = false → 0 < x.
Proof.
  intros H. apply Qnot_le_lt. intros Hle. apply Qle_bool_iff in Hle. congruence.
Qed.

(** What a request does to the table of borrowings: it rewrites rows in
    place, keeping ids, PAID rows and the sign of the amounts; or it appends
    one row under the next id; or, for an admin clean-up, it deletes rows. *)
Lemma step_borrowing_shape cfg op db :
  ids_fresh db →
  (∃ t, borrowing (step cfg op db) = List.map t (borrowing db) ∧
        ∀ r, In r (borrowing db) →
          id (t r) = id r ∧ (status r = PAID → t r = r) ∧
          (0 <= outstanding_amount r → 0 <= outstanding_amount (t r)))
  ∨ (∃ row, borrowing (step cfg op db) = borrowing db ++ [row] ∧
            id row = next_borrowing_id db ∧ 0 <= outstanding_amount row)
  ∨ (∃ q, is_admin_wipe op = true ∧
          borrowing (step cfg op db) = List.filter q (borrowing db)).
Proof.
  intros [Hnd Hlt].
  assert (Hsame : ∀ db', borrowing db' = borrowing db →
            ∃ t, borrowing db' = List.map t (borrowing db) ∧
                 ∀ r, In r (borrowing db) →
                   id (t r) = id r ∧ (status r = PAID → t r = r) ∧
                   (0 <= outstanding_amount r → 0 <= outstanding_amount (t r))).
  { intros db' E. exists (λ r, r). rewrite E, map_id. split; [reflexivity|].
    intros r _. repeat split; auto. }
  destruct op as [now req|now req|now req|now|now|req|pw|req|now req|now req]; cbn [step].
  - destruct (borrow cfg now req db) as [[e|ok] db'] eqn:Hb; cbn [snd].
    + left. apply Hsame. rewrite (borrow_rejected_unchanged _ _ _ _ _ _ Hb). reflexivity.
    + right. left.
      destruct (borrow_success_inv _ _ _ _ _ _ Hb)
        as (P & personal & g & isAdm & _ & Hamt & _ & _ & _ & _ & _ & Hall).
      cbv zeta in Hall. destruct Hall as (_ & Hrows & _).
      eexists. split; [exact Hrows|]. split; [reflexivity|]. cbn [outstanding_amount].
      apply amount_positive in Hamt. apply round2_nonneg.
      assert (0 <= round2 (fmul (br_amount req) BORROW_INTEREST_PCT)).
      { apply round2_nonneg. apply fmul_nonneg; [lra | discriminate]. }
      lra.
  - destruct (repay now req db) as [[e|ok] db'] eqn:Hb; cbn [snd].
    + left. apply Hsame. rewrite (repay_rejected_unchanged _ _ _ _ _ Hb). reflexivity.
    + left.
      destruct (repay_success_inv _ _ _ _ _ Hb) as (b & Hfind & _ & Hopen & _ & Hle & Hall).
      cbv zeta in Hall. destruct Hall as (_ & Hrows & _).
      eexists. split; [exact Hrows|]. intros r Hr. unfold touch.
      destruct (bool_decide (id r = rp_borrowingId req)) eqn:E; [|repeat split; auto].
      apply bool_decide_eq_true_1 in E.
      assert (r = b) as ->.
      { unfold borrowing_by_id in Hfind. rewrite <- E in Hfind.
        rewrite (find_by_unique_id _ r Hnd Hr) in Hfind. congruence. }
      split; [reflexivity|]. split; [congruence|]. intros _. cbn [settle outstanding_amount].
      apply round2_nonneg. apply Qgtb_false in Hle. lra.
  - unfold payFull, refuse.
    destruct (parse_pool (pf_poolType req)) as [P|] eqn:HP; [|left; apply Hsame; reflexivity].
    destruct (open_borrowings (pf_personId req) P db) as [|b rest] eqn:Hrows.
    + unfold transaction, bind, query, reject. rewrite Hrows. left. apply Hsame. reflexivity.
    + destruct (payFull_accept now req db P b rest HP Hrows) as (db' & Hpay & Hb & _).
      unfold payFull in Hpay. rewrite HP in Hpay. rewrite Hpay. cbn [snd]. left.
      eexists. split; [exact Hb|]. intros r Hr. unfold touch.
      destruct (bool_decide (id r = id b)) eqn:E; [|repeat split; auto].
      apply bool_decide_eq_true_1 in E.
      assert (Hin : In b (List.filter (is_open_of (pf_personId req) P) (borrowing db))).
      { unfold open_borrowings in Hrows. rewrite Hrows. left. reflexivity. }
      apply filter_In in Hin as [Hin Hq].
      assert (r = b) as -> by (eapply same_id_same_row; eassumption).
      unfold is_open_of in Hq. apply andb_prop in Hq as [Hq _]. apply andb_prop in Hq as [_ Hq].
      apply bool_decide_eq_true_1 in Hq.
      split; [reflexivity|]. split; [congruence|]. intros _. cbn [settle outstanding_amount].
      discriminate.
  - destruct (runPenalties_rows now db Hnd) as (db' & -> & Hrows). cbn [snd]. left.
    exists (swept now). split; [exact Hrows|]. intros r _. unfold swept.
    destruct (bool_decide (status r = OPEN)) eqn:E; [|repeat split; auto].
    apply bool_decide_eq_true_1 in E.
    destruct (fullPeriods_of now r) as [n|]; [|repeat split; auto].
    split; [reflexivity|]. split; [congruence|]. cbn [penalize outstanding_amount].
    apply compound_once_nonneg.
  - destruct (admin_runPenalties_rows cfg now db Hnd) as (db' & -> & Hrows). cbn [snd]. left.
    exists (admin_swept cfg now). split; [exact Hrows|]. intros r _. unfold admin_swept.
    destruct (bool_decide (status r = OPEN)) eqn:E; [|repeat split; auto].
    apply bool_decide_eq_true_1 in E.
    destruct (admin_periods_of cfg now r) as [n|]; [|repeat split; auto].
    split; [reflexivity|]. split; [congruence|]. cbn [penalize outstanding_amount].
    apply compound_each_nonneg.
  - pose proof (deleteMember_outcome cfg req db) as Ho.
    destruct (deleteMember cfg req db) as [[e|ok] db']; cbn [snd].
    + left. apply Hsame. rewrite Ho. reflexivity.
    + right. right. destruct Ho as (pid & Hrows & _). eexists. split; [reflexivity|exact Hrows].
  - pose proof (resetAll_outcome cfg pw db) as Ho.
    destruct (resetAll cfg pw db) as [[e|ok] db']; cbn [snd].
    + left. apply Hsame. rewrite Ho. reflexivity.
    + right. right. destruct Ho as (Hrows & _). exists (λ _, false).
      split; [reflexivity|]. rewrite Hrows. symmetry. apply filter_none.
  - pose proof (createMember_outcome cfg req db) as Ho. left. apply Hsame.
    destruct (createMember cfg req db) as [[e|ok] db']; cbn [snd].
    + rewrite Ho. reflexivity.
    + apply Ho.
  - left. apply Hsame. apply save_borrowing.
  - left. apply Hsame. apply retro_borrowing.
Qed.

Lemma step_debts_nonneg cfg op db :
  ids_fresh db → debts_nonneg db → debts_nonneg (step cfg op db).
Proof.
  intros Hids Hnn. unfold debts_nonneg in *. rewrite List.Forall_forall in Hnn.
  apply List.Forall_forall. intros r Hr.
  destruct (step_borrowing_shape cfg op db Hids)
    as [(t & E & Ht) | [(row & E & _ & Hrow) | (q & _ & E)]]; rewrite E in Hr.
  - apply in_map_iff in Hr as (r0 & <- & Hr0). apply (Ht r0 Hr0), Hnn, Hr0.
  - apply in_app_iff in Hr as [Hr | [<- | []]]; [apply Hnn, Hr | exact Hrow].
  - apply filter_In in Hr as [Hr _]. apply Hnn, Hr.
Qed.

(** X4. No borrowing ever owes a negative amount: every request keeps the
    outstanding amounts non-negative (on a table whose ids are a primary
    key), so they are non-negative in every state reached from the seeded
    database, whatever was borrowed, repaid, swept or deleted. *)
Theorem outstanding_never_negative cfg :
  (∀ op db, ids_fresh db → debts_nonneg db → debts_nonneg (step cfg op db)) ∧
  (∀ ops b, In b (borrowing (run cfg ops init_db)) → 0 <= outstanding_amount b).
Proof.
  split; [intros op db; apply step_debts_nonneg|].
  intros ops.
  assert (H : ∀ db, ids_fresh db → debts_nonneg db → debts_nonneg (run cfg ops db)).
  { induction ops as [|op ops IH]; intros db Hids Hnn; [exact Hnn|].
    cbn [run fold_left]. apply IH; [apply step_ids_fresh, Hids|].
    apply step_debts_nonneg; assumption. }
  intros b Hb.
  specialize (H init_db init_ids_fresh (List.Forall_nil _)).
  unfold debts_nonneg in H. rewrite List.Forall_forall in H. apply H, Hb.
Qed.

Lemma outstanding_never_negative_witness :
  ∃ b, borrowing_by_id 1 (run cfg250 (ops_debts ++ [RunPenalties overdue_60_days]) init_db)
       = Some b ∧ 0 <= outstanding_amount b.
Proof.
  destruct (borrowing_by_id 1 (run cfg250 (ops_debts ++ [RunPenalties overdue_60_days]) init_db))
    as [b|] eqn:Hb; [|vm_compute in Hb; discriminate].
  exists b. split; [reflexivity|].
  apply (proj2 (outstanding_never_negative cfg250)
           (ops_debts ++ [RunPenalties overdue_60_days]) b).
  exact (borrowing_by_id_In _ _ _ Hb).
Defined.

(** X5. PAID is final.  On a table whose ids are a primary key, no request
    changes a PAID borrowing: after any request, every row that carries its
    id is the row itself, and unless the request is an admin clean-up
    ([deleteMember], [resetAll]) the row is still in the table. *)
Theorem paid_is_final cfg op db r :
  ids_fresh db → In r (borrowing db) → status r = PAID →
  (∀ r', In r' (borrowing (step cfg op db)) → id r' = id r → r' = r) ∧
  (is_admin_wipe op = false → In r (borrowing (step cfg op db))).
Proof.
  intros Hids Hr Hpaid. pose proof Hids as [Hnd Hlt].
  destruct (step_borrowing_shape cfg op db Hids)
    as [(t & -> & Ht) | [(row & -> & Hrow & _) | (q & Hwipe & ->)]].
  - split.
    + intros r' Hr' E. apply in_map_iff in Hr' as (r0 & <- & Hr0).
      destruct (Ht r0 Hr0) as (Hid & _).
      assert (r0 = r) as -> by (eapply same_id_same_row; [exact Hnd|..]; congruence).
      apply (Ht r Hr), Hpaid.
    + intros _. apply in_map_iff. exists r. split; [|exact Hr]. apply (Ht r Hr), Hpaid.
  - split.
    + intros r' Hr' E. apply in_app_iff in Hr' as [Hr' | [<- | []]].
      * eapply same_id_same_row; eassumption.
      * rewrite List.Forall_forall in Hlt.
        specialize (Hlt (id r) (in_map id _ _ Hr)). lia.
    + intros _. apply in_app_iff. left. exact Hr.
  - split.
    + intros r' Hr' E. apply filter_In in Hr' as [Hr' _].
      eapply same_id_same_row; eassumption.
    + congruence.
Qed.

Lemma paid_is_final_witness :
  ∃ r, In r (borrowing (step cfg250 (Repay noon0 repay_1430) db_borrowed)) ∧
       status r = PAID ∧
       In r (borrowing (step cfg250 (RunPenalties overdue_60_days)
                          (step cfg250 (Repay noon0 repay_1430) db_borrowed))).
Proof.
  destruct (borrowing_by_id 1 (step cfg250 (Repay noon0 repay_1430) db_borrowed))
    as [r|] eqn:Hr; [|vm_compute in Hr; discriminate].
  assert (Hin : In r (borrowing (step cfg250 (Repay noon0 repay_1430) db_borrowed)))
    by exact (borrowing_by_id_In _ _ _ Hr).
  assert (Hpaid : status r = PAID) by (vm_compute in Hr; injection Hr as <-; reflexivity).
  assert (Hids : ids_fresh (step cfg250 (Repay noon0 repay_1430) db_borrowed)).
  { apply step_ids_fresh, step_ids_fresh.
    apply (run_ids_fresh cfg250 ops_at_limit init_db init_ids_fresh). }
  exists r. split; [exact Hin|]. split; [exact Hpaid|].
  exact (proj2 (paid_is_final cfg250 (RunPenalties overdue_60_days) _ r Hids Hin Hpaid) eq_refl).
Defined.

(** ** The sweeps, run again *)

Lemma penalty_logged_refl (db : Db) : penalty_logged db db.
Proof.
  split; [reflexivity|]. split; [reflexivity|]. exists []. split; [|constructor].
  symmetry. apply app_nil_r.
Qed.

Lemma penalty_logged_trans (a b c : Db) :
  penalty_logged a b → penalty_logged b c → penalty_logged a c.
Proof.
  intros (H1 & H2 & l1 & H3 & H4) (K1 & K2 & l2 & K3 & K4).
  split; [congruence|]. split; [congruence|]. exists (l1 ++ l2). split.
  - rewrite K3, H3. symmetry. apply app_assoc.
  - apply Forall_app. split; assumption.
Qed.

Lemma sweeps_penalty_logged cfg now db :
  penalty_logged db (snd (runPenalties now db))
  ∧ penalty_logged db (snd (admin_runPenalties cfg now db)).
Proof.
  split; handlers_unfold; tx_rel_walk penalty_logged_refl penalty_logged_trans.
  all: split; [reflexivity|]; split; [reflexivity|]; db_simpl.
  all: first [ exists []; split; [symmetry; apply app_nil_r | constructor]
             | eexists [_]; split; [reflexivity | repeat constructor] ].
Qed.

(** X6. A penalty sweep, standalone or admin, always commits and moves no
    money: personal balances, group pools, payments, daily summaries and
    members stay as they were; every borrowing keeps its id, person, pool
    and status, so a sweep neither settles nor reopens a debt; and the log
    only gains PENALTY rows at its end. *)
Theorem sweeps_move_no_money cfg now db out :
  out = runPenalties now db ∨ out = admin_runPenalties cfg now db →
  fst out = inr tt ∧
  personal_balance (snd out) = personal_balance db ∧
  getGroupPools (snd out) = getGroupPools db ∧
  payment (snd out) = payment db ∧
  daily_summary (snd out) = daily_summary db ∧
  person (snd out) = person db ∧
  List.map (λ b, (id b, person_id b, pool_type b, status b)) (borrowing (snd out))
    = List.map (λ b, (id b, person_id b, pool_type b, status b)) (borrowing db) ∧
  ∃ l, transaction_log (snd out) = transaction_log db ++ l
       ∧ Forall (λ e, transaction_type e = T_PENALTY) l.
Proof.
  intros Hout.
  assert (H : ∃ db', out = (inr tt, db') ∧ penalized_from db db' ∧ penalty_logged db db').
  { destruct (sweeps_penalty_logged cfg now db) as [L1 L2]. destruct Hout as [-> | ->].
    - destruct (runPenalties_penalized now db) as (db' & E & Hp). rewrite E in L1 |- *. eauto.
    - destruct (admin_runPenalties_penalized cfg now db) as (db' & E & Hp).
      rewrite E in L2 |- *. eauto. }
  destruct H as (db' & -> & (Hk & _ & Hd & Hpb & Hgm & Hgv) & (Hpay & Hper & Hlog)).
  cbn [fst snd]. unfold getGroupPools. rewrite Hgm, Hgv.
  repeat split; assumption.
Qed.

Lemma sweeps_move_no_money_witness :
  fst (admin_runPenalties cfg250 overdue_60_days db_debts) = inr tt ∧
  getGroupPools (snd (admin_runPenalties cfg250 overdue_60_days db_debts))
    = getGroupPools db_debts.
Proof.
  destruct (sweeps_move_no_money cfg250 overdue_60_days db_debts
              (admin_runPenalties cfg250 overdue_60_days db_debts) (or_intror eq_refl))
    as (W1 & _ & W2 & _).
  split; [exact W1 | exact W2].
Defined.

Lemma for_each_skip {A} (body : A → Tx unit) (rows : list A) (db : Db) :
  (∀ a, In a rows → body a db = inr (tt, db)) → for_each body rows db = inr (tt, db).
Proof.
  induction rows as [|a rows IH]; intros H; [reflexivity|].
  cbn [for_each]. unfold bind. rewrite (H a (or_introl eq_refl)).
  apply IH. intros b Hb. apply H. right. exact Hb.
Qed.

Lemma find_id_swept (t : Borrowing → Borrowing) (k : Z) (rows : list Borrowing) :
  (∀ r, id (t r) = id r) →
  List.find (λ b, bool_decide (id b = k)) (List.map t rows)
  = t <$> List.find (λ b, bool_decide (id b = k)) rows.
Proof.
  intros Ht. induction rows as [|r rows IH]; [reflexivity|].
  cbn [List.map List.find]. rewrite Ht.
  destruct (bool_decide (id r = k)); [reflexivity | exact IH].
Qed.

Lemma swept_id now r : id (swept now r) = id r.
Proof.
  unfold swept. destruct (bool_decide (status r = OPEN)); [|reflexivity].
  destruct (fullPeriods_of now r); reflexivity.
Qed.

Lemma admin_swept_id cfg now r : id (admin_swept cfg now r) = id r.
Proof.
  unfold admin_swept. destruct (bool_decide (status r = OPEN)); [|reflexivity].
  destruct (admin_periods_of cfg now r); reflexivity.
Qed.

Lemma sql_now_bounds now : (now - 1000 < sql_now now ≤ now)%Z.
Proof.
  unfold sql_now. pose proof (Z.mod_pos_bound now 1000 eq_refl).
  pose proof (Z.div_mod now 1000). lia.
Qed.

(** A row charged at [now] carries the second of [now], so it is not charged
    again by a sweep that comes at most a full period minus one second after
    [now]. *)
Lemma fullPeriods_after_penalty now now2 x r :
  (now2 - now + 1000 ≤ period_days (pool_type r) * msPerDay)%Z →
  fullPeriods_of now2 (penalize x (sql_now now) r) = None.
Proof.
  intros Hlt. unfold fullPeriods_of.
  cbn [penalize due_date pool_type last_penalty_applied_at default from_option].
  unfold Datatypes.id.
  destruct (now2 <=? due_date r * msPerDay)%Z; [reflexivity|].
  pose proof (sql_now_bounds now) as Hs.
  set (e := ((now2 - sql_now now) / msPerDay)%Z).
  assert (He : (e < period_days (pool_type r))%Z).
  { apply Z.div_lt_upper_bound; [reflexivity | lia]. }
  unfold period_days, MAIN_PERIOD_DAYS, VALIDITY_PERIOD_DAYS in He.
  destruct (pool_type r); cbn beta iota in He |- *.
  - assert (e / 30 < 1)%Z by (apply Z.div_lt_upper_bound; lia).
    destruct (Z.leb_spec (e / 30) 0); [reflexivity | lia].
  - assert (e / 7 < 1)%Z by (apply Z.div_lt_upper_bound; lia).
    destruct (Z.leb_spec (e / 7) 0); [reflexivity | lia].
Qed.

(** It is charged again by a sweep that comes a full period after the
    second of [now]. *)
Lemma fullPeriods_next_period now now2 x r n :
  fullPeriods_of now r = Some n →
  (period_days (pool_type r) * msPerDay ≤ now2 - sql_now now)%Z →
  ∃ k, fullPeriods_of now2 (penalize x (sql_now now) r) = Some k ∧ (0 < k)%Z.
Proof.
  intros Hn Hge.
  assert (Hdue : (due_date r * msPerDay ≤ sql_now now)%Z).
  { unfold fullPeriods_of in Hn.
    destruct (Z.leb_spec now (due_date r * msPerDay)) as [|Hlt]; [discriminate|].
    unfold sql_now, msPerDay in *.
    assert (due_date r * (24 * 3600) ≤ now / 1000)%Z by (apply Z.div_le_lower_bound; lia).
    lia. }
  assert (Hp : (0 < period_days (pool_type r))%Z) by (destruct (pool_type r); reflexivity).
  unfold fullPeriods_of.
  cbn [penalize due_date pool_type last_penalty_applied_at default from_option].
  unfold Datatypes.id.
  destruct (Z.leb_spec now2 (due_date r * msPerDay)) as [Hle|_].
  { assert (0 < period_days (pool_type r) * msPerDay)%Z by (apply Z.mul_pos_pos; [exact Hp | reflexivity]).
    lia. }
  set (e := ((now2 - sql_now now) / msPerDay)%Z).
  assert (He : (period_days (pool_type r) ≤ e)%Z).
  { apply Z.div_le_lower_bound; [reflexivity | lia]. }
  unfold period_days, MAIN_PERIOD_DAYS, VALIDITY_PERIOD_DAYS in He.
  destruct (pool_type r); cbn beta iota in He |- *.
  - assert (1 ≤ e / 30)%Z by (apply Z.div_le_lower_bound; lia).
    destruct (Z.leb_spec (e / 30) 0); [lia|]. eexists. split; [reflexivity | lia].
  - assert (1 ≤ e / 7)%Z by (apply Z.div_le_lower_bound; lia).
    destruct (Z.leb_spec (e / 7) 0); [lia|]. eexists. split; [reflexivity | lia].
Qed.

Lemma admin_periods_after_penalty cfg now now2 x r :
  (now2 - now + tz_offset_ms cfg + 1000 ≤ 30 * msPerDay)%Z →
  admin_periods_of cfg now2 (penalize x (admin_stamp cfg now) r) = None.
Proof.
  intros Hlt. unfold admin_periods_of.
  cbn [penalize due_date pool_type last_penalty_applied_at default from_option].
  unfold Datatypes.id.
  destruct (now2 <=? due_date r * msPerDay - tz_offset_ms cfg)%Z; [reflexivity|].
  unfold admin_stamp.
  assert (Hm : (now - 1000 < now / 1000 * 1000)%Z).
  { pose proof (Z.mod_pos_bound now 1000 eq_refl). pose proof (Z.div_mod now 1000). lia. }
  set (e := ((now2 - (now / 1000 * 1000 - tz_offset_ms cfg)) / msPerDay)%Z).
  assert (He : (e < 30)%Z).
  { apply Z.div_lt_upper_bound; [reflexivity | lia]. }
  assert (Hp : (e / 30 < 1)%Z) by (apply Z.div_lt_upper_bound; lia).
  destruct (Z.leb_spec (e / 30) 0); [reflexivity | lia].
Qed.

Lemma swept_settled now r : status r = OPEN → fullPeriods_of now (swept now r) = None.
Proof.
  intros Hopen. unfold swept. rewrite bool_decide_eq_true_2 by exact Hopen.
  destruct (fullPeriods_of now r) as [n|] eqn:E; [|exact E].
  apply fullPeriods_after_penalty.
  replace (now - now + 1000)%Z with 1000%Z by lia.
  destruct (pool_type r); vm_compute; discriminate.
Qed.

Lemma admin_swept_settled cfg now r :
  (tz_offset_ms cfg + 1000 ≤ 30 * msPerDay)%Z → status r = OPEN →
  admin_periods_of cfg now (admin_swept cfg now r) = None.
Proof.
  intros Htz Hopen. unfold admin_swept. rewrite bool_decide_eq_true_2 by exact Hopen.
  destruct (admin_periods_of cfg now r) as [n|] eqn:E; [|exact E].
  apply admin_periods_after_penalty. lia.
Qed.

Lemma swept_status now r : status (swept now r) = status r.
Proof.
  unfold swept. destruct (bool_decide (status r = OPEN)); [|reflexivity].
  destruct (fullPeriods_of now r); reflexivity.
Qed.

Lemma admin_swept_status cfg now r : status (admin_swept cfg now r) = status r.
Proof.
  unfold admin_swept. destruct (bool_decide (status r = OPEN)); [|reflexivity].
  destruct (admin_periods_of cfg now r); reflexivity.
Qed.

(** X7. The standalone sweep charges a period once.  The stamp it leaves on
    a row it charges is the second of the sweep, [now] without its
    milliseconds, as a DATETIME column keeps [NOW()].  On a table whose ids
    are a primary key, running it a second time at the same instant changes
    nothing at all; a borrowing it charged at [now] is left exactly as
    charged by any sweep that comes at most one period of its pool (30 days
    for MAIN, 7 for VALIDITY) minus one second after [now]; and a sweep that
    comes a full period after the second of [now] finds at least one more
    period to charge on it. *)
Theorem runPenalties_charges_a_period_once now db :
  List.NoDup (List.map id (borrowing db)) →
  let db1 := snd (runPenalties now db) in
  runPenalties now db1 = (inr tt, db1) ∧
  ∀ r n,
    In r (borrowing db) → status r = OPEN → fullPeriods_of now r = Some n →
    let charged :=
      penalize (compound_once (outstanding_amount r) n) (now / 1000 * 1000)%Z r in
    borrowing_by_id (id r) db1 = Some charged ∧
    ∀ now2,
      ((now2 - now + 1000 ≤ period_days (pool_type r) * msPerDay)%Z →
       borrowing_by_id (id r) (snd (runPenalties now2 db1)) = Some charged) ∧
      ((period_days (pool_type r) * msPerDay ≤ now2 - now / 1000 * 1000)%Z →
       ∃ k, fullPeriods_of now2 charged = Some k ∧ (0 < k)%Z).
Proof.
  intros Hnd. cbv zeta.
  destruct (runPenalties_rows now db Hnd) as (db1 & E1 & Hrows1). rewrite E1. cbn [snd].
  assert (Hnd1 : List.NoDup (List.map id (borrowing db1))).
  { rewrite Hrows1, map_map. erewrite map_ext; [exact Hnd|]. intros a. apply swept_id. }
  split.
  - unfold runPenalties, transaction, bind, query.
    rewrite for_each_skip; [reflexivity|].
    intros b Hb. apply filter_In in Hb as [Hb Hopen]. apply bool_decide_eq_true_1 in Hopen.
    rewrite Hrows1 in Hb. apply in_map_iff in Hb as (r & <- & Hr).
    rewrite swept_status in Hopen.
    unfold penalty_body. rewrite (swept_settled now r Hopen). reflexivity.
  - intros r n Hr Hopen Hn. fold (sql_now now).
    assert (Hs : swept now r
                 = penalize (compound_once (outstanding_amount r) n) (sql_now now) r).
    { unfold swept. rewrite bool_decide_eq_true_2 by exact Hopen. rewrite Hn. reflexivity. }
    assert (F1 : borrowing_by_id (id r) db1
                 = Some (penalize (compound_once (outstanding_amount r) n) (sql_now now) r)).
    { unfold borrowing_by_id. rewrite Hrows1, (find_id_swept _ _ _ (swept_id now)).
      rewrite (find_by_unique_id _ r Hnd Hr). cbn. rewrite Hs. reflexivity. }
    split; [exact F1|]. intros now2. split.
    + intros Hlt.
      destruct (runPenalties_rows now2 db1 Hnd1) as (db2 & E2 & Hrows2). rewrite E2. cbn [snd].
      unfold borrowing_by_id in *. rewrite Hrows2, (find_id_swept _ _ _ (swept_id now2)), F1.
      cbn. f_equal. unfold swept. cbn [penalize status]. rewrite Hopen.
      rewrite bool_decide_eq_true_2 by reflexivity.
      rewrite (fullPeriods_after_penalty now now2 _ r Hlt). reflexivity.
    + intros Hge. exact (fullPeriods_next_period now now2 _ r n Hn Hge).
Qed.

(** Half a second into the day that lies 14 days after the due date of the
    VALIDITY borrowing of [db_debts]: the sweep charges it and stamps it with
    the start of that second, so a sweep half a second before the end of the
    following period leaves it alone and a sweep one second later charges it
    again. *)
Lemma runPenalties_charges_a_period_once_witness :
  let now := ((day0 + 7 + 14) * msPerDay + 500)%Z in
  let db1 := snd (runPenalties now db_debts) in
  runPenalties now db1 = (inr tt, db1) ∧
  ∃ b, borrowing_by_id 2 db1 = Some b ∧
       last_penalty_applied_at b = Some ((day0 + 7 + 14) * msPerDay)%Z ∧
       outstanding_amount b == 133.10 ∧
       borrowing_by_id 2 (snd (runPenalties (now + 7 * msPerDay - 1000) db1)) = Some b ∧
       ∃ k, fullPeriods_of (now + 7 * msPerDay - 500) b = Some k ∧ (0 < k)%Z.
Proof.
  intros now db1.
  assert (Hnd : List.NoDup (List.map id (borrowing db_debts))).
  { vm_compute. repeat constructor; cbn; intuition discriminate. }
  destruct (borrowing_by_id 2 db_debts) as [r|] eqn:Hr; [|vm_compute in Hr; discriminate].
  destruct (runPenalties_charges_a_period_once now db_debts Hnd) as [W1 W2].
  split; [exact W1|].
  pose proof (borrowing_by_id_In _ _ _ Hr) as Hin.
  vm_compute in Hr. injection Hr as <-.
  destruct (W2 _ 2%Z Hin eq_refl eq_refl) as [F1 F2].
  eexists. split; [exact F1|].
  split; [reflexivity|]. split; [vm_compute; reflexivity|].
  split.
  - apply (proj1 (F2 (now + 7 * msPerDay - 1000)%Z)). vm_compute. discriminate.
  - apply (proj2 (F2 (now + 7 * msPerDay - 500)%Z)). vm_compute. discriminate.
Defined.

(** X8. The admin sweep charges a period once, given a server clock whose
    offset from UTC is below 30 days (every real time zone).  On a table
    whose ids are a primary key, running it a second time at the same
    instant changes nothing at all, and a borrowing it charged at [now] is
    left exactly as charged by any sweep at [now2] less than 30 days, minus
    the offset and one second, after [now]. *)
Theorem admin_runPenalties_charges_a_period_once cfg now db :
  List.NoDup (List.map id (borrowing db)) →
  let db1 := snd (admin_runPenalties cfg now db) in
  ((tz_offset_ms cfg + 1000 ≤ 30 * msPerDay)%Z →
   admin_runPenalties cfg now db1 = (inr tt, db1)) ∧
  ∀ r n now2,
    In r (borrowing db) → status r = OPEN → admin_periods_of cfg now r = Some n →
    (now2 - now + tz_offset_ms cfg + 1000 ≤ 30 * msPerDay)%Z →
    let charged :=
      penalize (compound_each (outstanding_amount r) n) (admin_stamp cfg now) r in
    borrowing_by_id (id r) db1 = Some charged ∧
    borrowing_by_id (id r) (snd (admin_runPenalties cfg now2 db1)) = Some charged.
Proof.
  intros Hnd. cbv zeta.
  destruct (admin_runPenalties_rows cfg now db Hnd) as (db1 & E1 & Hrows1).
  rewrite E1. cbn [snd].
  assert (Hnd1 : List.NoDup (List.map id (borrowing db1))).
  { rewrite Hrows1, map_map. erewrite map_ext; [exact Hnd|]. intros a. apply admin_swept_id. }
  split.
  - intros Htz. unfold admin_runPenalties, transaction, bind, query.
    rewrite for_each_skip; [reflexivity|].
    intros b Hb. apply filter_In in Hb as [Hb Hopen]. apply bool_decide_eq_true_1 in Hopen.
    rewrite Hrows1 in Hb. apply in_map_iff in Hb as (r & <- & Hr).
    rewrite admin_swept_status in Hopen.
    unfold admin_penalty_body. rewrite (admin_swept_settled cfg now r Htz Hopen). reflexivity.
  - intros r n now2 Hr Hopen Hn Hlt.
    assert (Hs : admin_swept cfg now r
                 = penalize (compound_each (outstanding_amount r) n) (admin_stamp cfg now) r).
    { unfold admin_swept. rewrite bool_decide_eq_true_2 by exact Hopen. rewrite Hn.
      reflexivity. }
    assert (F1 : borrowing_by_id (id r) db1
                 = Some (penalize (compound_each (outstanding_amount r) n)
                           (admin_stamp cfg now) r)).
    { unfold borrowing_by_id. rewrite Hrows1, (find_id_swept _ _ _ (admin_swept_id cfg now)).
      rewrite (find_by_unique_id _ r Hnd Hr). cbn. rewrite Hs. reflexivity. }
    split; [exact F1|].
    destruct (admin_runPenalties_rows cfg now2 db1 Hnd1) as (db2 & E2 & Hrows2).
    rewrite E2. cbn [snd].
    unfold borrowing_by_id in *.
    rewrite Hrows2, (find_id_swept _ _ _ (admin_swept_id cfg now2)), F1.
    cbn. f_equal. unfold admin_swept. cbn [penalize status]. rewrite Hopen.
    rewrite bool_decide_eq_true_2 by reflexivity.
    rewrite (admin_periods_after_penalty cfg now now2 _ r Hlt). reflexivity.
Qed.

Lemma admin_runPenalties_charges_a_period_once_witness :
  admin_runPenalties cfg250 overdue_60_days
    (snd (admin_runPenalties cfg250 overdue_60_days db_debts))
  = (inr tt, snd (admin_runPenalties cfg250 overdue_60_days db_debts)).
Proof.
  apply (admin_runPenalties_charges_a_period_once cfg250 overdue_60_days db_debts).
  - vm_compute. repeat constructor; cbn; intuition discriminate.
  - vm_compute. discriminate.
Defined.

(** ** borrow, once more *)

Lemma find_app_last {A} (f : A → bool) (l : list A) (x : A) :
  List.find f (l ++ [x])
  = match List.find f l with Some y => Some y | None => if f x then Some x else None end.
Proof.
  induction l as [|a l IH]; [reflexivity|].
  cbn [app List.find]. destruct (f a); [reflexivity | exact IH].
Qed.

Lemma amount_check (x : Q) : 0 < x → Qle_bool x 0 = false.
Proof.
  intros Hpos. apply not_true_iff_false. rewrite Qle_bool_iff. apply Qlt_not_le, Hpos.
Qed.

Lemma count_unit_payments_frame (pid : Z) (db db' : Db) :
  payment db' = payment db → count_unit_payments pid db' = count_unit_payments pid db.
Proof. unfold count_unit_payments. intros ->. reflexivity. Qed.

(** X9. In every state reached from the seeded database, the id that an
    accepted [borrow] returns is new and names the borrowing just created:
    no row carried it before, the row found under it afterwards is OPEN and
    belongs to the caller with the requested principal, the outstanding
    amount and the due date of the response, and every other id finds the
    row it found before. *)
Theorem borrow_returns_the_new_row cfg ops now req ok db' :
  let db := run cfg ops init_db in
  borrow cfg now req db = (inr ok, db') →
  borrowing_by_id (bo_borrowingId ok) db = None ∧
  (∃ b, borrowing_by_id (bo_borrowingId ok) db' = Some b ∧
        person_id b = br_personId req ∧ principal b = br_amount req ∧
        parse_pool (br_poolType req) = Some (pool_type b) ∧ status b = OPEN ∧
        outstanding_amount b = bo_outstanding ok ∧ due_date b = bo_dueDate ok) ∧
  (∀ k, k ≠ bo_borrowingId ok → borrowing_by_id k db' = borrowing_by_id k db).
Proof.
  intros db Hb.
  destruct (borrow_success_inv _ _ _ _ _ _ Hb)
    as (P & personal & g & isAdm & HP & _ & _ & _ & _ & _ & _ & Hall).
  cbv zeta in Hall. destruct Hall as (-> & Hrows & _).
  cbn [bo_borrowingId bo_outstanding bo_dueDate].
  destruct (run_ids_fresh cfg ops init_db init_ids_fresh) as [Hnd Hlt]. fold db in Hnd, Hlt.
  assert (Hnone : borrowing_by_id (next_borrowing_id db) db = None).
  { apply find_id_none. intros Hin. rewrite List.Forall_forall in Hlt.
    specialize (Hlt _ Hin). lia. }
  split; [exact Hnone|]. split.
  - eexists. split.
    + unfold borrowing_by_id in *. rewrite Hrows, find_app_last, Hnone.
      cbn [id]. rewrite bool_decide_eq_true_2 by reflexivity. reflexivity.
    + cbn. repeat split. exact HP.
  - intros k Hk. unfold borrowing_by_id. rewrite Hrows, find_app_last.
    destruct (List.find _ (borrowing db)); [reflexivity|].
    cbn [id]. rewrite bool_decide_eq_false_2 by congruence. reflexivity.
Qed.

Lemma borrow_returns_the_new_row_witness :
  ∃ ok db' b,
    borrow cfg250 noon0 borrow_1300 (run cfg250 ops_at_limit init_db) = (inr ok, db') ∧
    borrowing_by_id (bo_borrowingId ok) db' = Some b ∧ person_id b = 1%Z.
Proof.
  destruct (borrow cfg250 noon0 borrow_1300 (run cfg250 ops_at_limit init_db))
    as [[e|ok] db'] eqn:Hb; [vm_compute in Hb; discriminate|].
  destruct (borrow_returns_the_new_row cfg250 ops_at_limit noon0 borrow_1300 ok db' Hb)
    as (_ & (b & W1 & W2 & _) & _).
  exists ok, db', b. split; [reflexivity|]. split; [exact W1 | exact W2].
Defined.

(** X10. One debt per pool without override: after an accepted [borrow]
    that did not ask for the admin override, a further request of the same
    person on the same pool, again without override and for any positive
    amount at any time, is rejected with OPEN_DEBT_EXISTS and changes
    nothing. *)
Theorem second_borrow_is_blocked cfg now req db ok db' now2 req2 :
  borrow cfg now req db = (inr ok, db') →
  br_adminOverride req = false →
  br_personId req2 = br_personId req →
  parse_pool (br_poolType req2) = parse_pool (br_poolType req) →
  br_adminOverride req2 = false →
  0 < br_amount req2 →
  borrow cfg now2 req2 db' = (inl OPEN_DEBT_EXISTS, db').
Proof.
  intros Hb Hov Hpid Hpool Hov2 Hpos.
  destruct (borrow_success_inv _ _ _ _ _ _ Hb)
    as (P & personal & g & isAdm & HP & _ & Hper & Hg & Hchk & Hel & _ & Hall).
  cbv zeta in Hall.
  destruct Hall as (_ & Hrows & _ & Hg' & _ & Hpb & Hpay & _).
  rewrite (check_override_false _ _ _ Hov) in Hchk. injection Hchk as <-.
  destruct (Hel eq_refl) as (Hcnt & _ & _).
  rewrite HP in Hpool.
  pose proof (borrow_checks cfg now2 req2 db' P personal (g - br_amount req) false Hpool) as Hc.
  cbn [negb andb] in Hc. cbv zeta in Hc.
  rewrite Hpid, (count_unit_payments_frame _ _ _ Hpay), Hcnt in Hc.
  assert (Hopen : bool_decide (open_borrowings (br_personId req) P db' = []) = false).
  { apply bool_decide_eq_false_2. unfold open_borrowings. rewrite Hrows, List.filter_app.
    cbn [List.filter]. unfold is_open_of at 2. cbn [person_id status pool_type].
    rewrite !bool_decide_eq_true_2 by reflexivity. cbn [andb].
    intros E. apply app_eq_nil in E as [_ E]. discriminate E. }
  rewrite Hopen in Hc. cbn [negb] in Hc. apply Hc.
  - apply amount_check, Hpos.
  - rewrite Hpb. exact Hper.
  - exact Hg'.
  - apply check_override_false, Hov2.
Qed.

Lemma second_borrow_is_blocked_witness :
  borrow cfg250 noon0 (mkBorrowReq 1 "MAIN" 10 false None) db_borrowed
  = (inl OPEN_DEBT_EXISTS, db_borrowed).
Proof.
  destruct (borrow cfg250 noon0 borrow_1300 db_at_limit) as [[e|ok] db'] eqn:Hb;
    [vm_compute in Hb; discriminate|].
  assert (E : db' = db_borrowed).
  { change db_borrowed with (snd (borrow cfg250 noon0 borrow_1300 db_at_limit)).
    rewrite Hb. reflexivity. }
  rewrite <- E.
  apply (second_borrow_is_blocked cfg250 noon0 borrow_1300 db_at_limit ok db' noon0
           (mkBorrowReq 1 "MAIN" 10 false None) Hb); reflexivity.
Defined.



(** X12. The admin override skips the three eligibility checks.  With the
    override flag and the configured, non-empty password, a request for a
    positive amount by a person with a personal balance row is accepted as
    soon as the pool holds the amount - whatever the person saved, owes or
    holds - and the response reports the override. *)
Theorem override_skips_eligibility cfg now req db P g pw :
  parse_pool (br_poolType req) = Some P →
  0 < br_amount req →
  is_Some (personal_balance db !! br_personId req) →
  group_balance P db = Some g →
  br_adminOverride req = true → br_adminPassword req = Some pw →
  pw ≠ "" → pw = ENV_ADMIN_PASSWORD cfg →
  br_amount req <= g →
  ∃ ok db', borrow cfg now req db = (inr ok, db') ∧ bo_adminOverride ok = true.
Proof.
  intros HP Hpos [personal Hper] Hg Hov Hpw Hne Hcfg Hle.
  pose proof (check_override_valid cfg req db pw Hov Hpw Hne Hcfg) as Hchk.
  pose proof (borrow_checks cfg now req db P personal g true HP) as Hc.
  cbn [negb andb] in Hc. rewrite (proj2 (Qgtb_false _ _) Hle) in Hc.
  destruct Hc as (ok & db' & Hb); try assumption.
  { apply amount_check, Hpos. }
  exists ok, db'. split; [exact Hb|].
  destruct (borrow_success_inv _ _ _ _ _ _ Hb)
    as (P' & personal' & g' & isAdm & _ & _ & _ & _ & Hchk' & _ & _ & Hall).
  cbv zeta in Hall. destruct Hall as (-> & _).
  rewrite Hchk in Hchk'. injection Hchk' as <-. reflexivity.
Qed.

Lemma override_skips_eligibility_witness :
  ∃ ok db', borrow cfg500 noon0 override_100 db_one_payment = (inr ok, db')
            ∧ bo_adminOverride ok = true.
Proof.
  destruct (group_balance MAIN db_one_payment) as [g|] eqn:Hg;
    [|vm_compute in Hg; discriminate].
  apply (override_skips_eligibility cfg500 noon0 override_100 db_one_payment MAIN g "secret").
  - reflexivity.
  - reflexivity.
  - vm_compute. eexists. reflexivity.
  - exact Hg.
  - reflexivity.
  - reflexivity.
  - discriminate.
  - reflexivity.
  - vm_compute in Hg. injection Hg as <-. vm_compute. discriminate.
Defined.

(** X13. With [ADMIN_PASSWORD] unset, the savings and borrowing controllers
    compare against the empty string, which no password passes: every
    [createMember] with a name and every [borrow] asking for the override
    is refused.  The admin controller falls back to the password "admin":
    [resetAll] and [deleteMember] accept it. *)
Theorem unset_admin_password cfg :
  ENV_ADMIN_PASSWORD cfg = "" →
  (∀ req db, cm_name req ≠ "" → createMember cfg req db = (inl BAD_CREDENTIAL, db)) ∧
  (∀ now req db, br_adminOverride req = true →
     ∃ e, borrow cfg now req db = (inl e, db) ∧
          (is_Some (parse_pool (br_poolType req)) → 0 < br_amount req →
           is_Some (personal_balance db !! br_personId req) →
           (∀ P, is_Some (group_balance P db)) → e = BAD_CREDENTIAL)) ∧
  (∀ db, ∃ db', resetAll cfg (Some "admin") db = (inr tt, db')) ∧
  (∀ db pid, pid ≠ 0%Z → is_Some (person db !! pid) →
     ∃ db', deleteMember cfg (mkDeleteReq (Some pid) (Some "admin")) db = (inr tt, db')).
Proof.
  intros Henv.
  assert (Hadm : ADMIN_PASSWORD cfg = "admin").
  { unfold ADMIN_PASSWORD. rewrite Henv. reflexivity. }
  split; [|split; [|split]].
  - intros req db Hname. unfold createMember, refuse.
    rewrite bool_decide_eq_false_2 by exact Hname. rewrite Henv.
    destruct (cm_adminPassword req) as [pw|]; [|reflexivity]. cbn [falsy].
    destruct (bool_decide (pw = "")) eqn:E; [reflexivity|]. cbn [orb].
    apply bool_decide_eq_false_1 in E.
    rewrite bool_decide_eq_false_2 by congruence. reflexivity.
  - intros now req db Hov.
    assert (Hchk : check_override cfg req db = inl BAD_CREDENTIAL).
    { unfold check_override. rewrite Hov, Henv.
      destruct (br_adminPassword req) as [pw|]; [|reflexivity]. cbn [falsy].
      destruct (bool_decide (pw = "")) eqn:E; [reflexivity|]. cbn [orb].
      apply bool_decide_eq_false_1 in E.
      rewrite bool_decide_eq_false_2 by congruence. reflexivity. }
    destruct (borrow cfg now req db) as [[e|ok] db'] eqn:Hb.
    + rewrite (borrow_rejected_unchanged _ _ _ _ _ _ Hb). exists e. split; [reflexivity|].
      intros [P HP] Hpos [personal Hper] Hgrp. destruct (Hgrp P) as [g Hg].
      unfold borrow in Hb. rewrite HP in Hb.
      rewrite (amount_check _ Hpos) in Hb.
      unfold transaction, bind, query in Hb. rewrite Hper, Hg, Hchk in Hb.
      congruence.
    + destruct (borrow_success_inv _ _ _ _ _ _ Hb)
        as (P' & personal' & g' & isAdm & _ & _ & _ & _ & Hchk' & _).
      rewrite Hchk in Hchk'. discriminate.
  - intros db. unfold resetAll. rewrite Hadm. cbn [falsy].
    rewrite bool_decide_eq_false_2 by discriminate.
    rewrite bool_decide_eq_true_2 by reflexivity. cbn [orb negb].
    unfold transaction, bind, exec. eexists. reflexivity.
  - intros db pid Hpid [n Hn]. unfold deleteMember. rewrite Hadm. cbn [falsy dm_password dm_person_id].
    rewrite (bool_decide_eq_false_2 ("admin" = "")) by discriminate.
    rewrite (bool_decide_eq_true_2 (Some "admin" = Some "admin")) by reflexivity.
    cbn [orb negb].
    rewrite bool_decide_eq_false_2 by exact Hpid.
    unfold transaction, bind, query, exec. rewrite Hn. eexists. reflexivity.
Qed.

Lemma unset_admin_password_witness :
  createMember (mkConfig "" 250 100 500 0) (mkCreateReq "ann" (Some "admin")) init_db
    = (inl BAD_CREDENTIAL, init_db) ∧
  ∃ db', resetAll (mkConfig "" 250 100 500 0) (Some "admin") init_db = (inr tt, db').
Proof.
  destruct (unset_admin_password (mkConfig "" 250 100 500 0) eq_refl) as (W1 & _ & W2 & _).
  split; [apply W1; discriminate | apply W2].
Defined.

(** ** The admin clean-ups *)

Lemma ADMIN_PASSWORD_nonempty cfg : ADMIN_PASSWORD cfg ≠ "".
Proof.
  unfold ADMIN_PASSWORD. case_bool_decide as E; [discriminate | exact E].
Qed.

Lemma admin_gate cfg (password : option string) :
  password = Some (ADMIN_PASSWORD cfg) →
  falsy password || negb (bool_decide (password = Some (ADMIN_PASSWORD cfg))) = false.
Proof.
  intros ->. cbn [falsy].
  rewrite (bool_decide_eq_false_2 _ (ADMIN_PASSWORD_nonempty cfg)).
  rewrite bool_decide_eq_true_2 by reflexivity. reflexivity.
Qed.

Lemma filter_filter_implied {A} (f g : A → bool) (l : list A) :
  (∀ x, f x = true → g x = true) →
  List.filter f (List.filter g l) = List.filter f l.
Proof.
  intros H. induction l as [|a l IH]; [reflexivity|].
  cbn [List.filter]. destruct (g a) eqn:Eg.
  - cbn [List.filter]. rewrite IH. reflexivity.
  - destruct (f a) eqn:Ef; [|exact IH]. rewrite (H a Ef) in Eg. discriminate.
Qed.

(** X14. An accepted [deleteMember] removes the member and every row that
    names them - balance, borrowings, payments, daily summaries, log rows -
    and leaves every other member's name, balance, OPEN borrowings, saved
    count and daily summaries as they were.  It never touches the group
    pools: what the member saved stays in the pools and what they still
    owed is not paid back. *)
Theorem deleteMember_removes_one_member cfg req db pid :
  dm_password req = Some (ADMIN_PASSWORD cfg) →
  dm_person_id req = Some pid → pid ≠ 0%Z → is_Some (person db !! pid) →
  ∃ db',
    deleteMember cfg req db = (inr tt, db') ∧
    person db' !! pid = None ∧ personal_balance db' !! pid = None ∧
    (∀ b, In b (borrowing db') → person_id b ≠ pid) ∧
    (∀ p, In p (payment db') → pay_person_id p ≠ pid) ∧
    (∀ date, daily_summary db' !! (pid, date) = None) ∧
    (∀ l, In l (transaction_log db') → log_person_id l ≠ Some pid) ∧
    (∀ q, q ≠ pid →
       person db' !! q = person db !! q ∧
       personal_balance db' !! q = personal_balance db !! q ∧
       (∀ P, open_borrowings q P db' = open_borrowings q P db) ∧
       getPersonMeta q db' = getPersonMeta q db ∧
       (∀ date, daily_summary db' !! (q, date) = daily_summary db !! (q, date))) ∧
    getGroupPools db' = getGroupPools db.
Proof.
  intros Hpw Hid Hpid [n Hn]. unfold deleteMember.
  rewrite (admin_gate cfg _ Hpw), Hid. rewrite bool_decide_eq_false_2 by exact Hpid.
  unfold transaction, bind, query, exec. rewrite Hn.
  eexists. split; [reflexivity|]. unfold delete_dependents. db_simpl.
  split; [apply lookup_delete_eq|]. split; [apply lookup_delete_eq|].
  split.
  { intros b Hb. apply filter_In in Hb as [_ Hb]. apply negb_true_iff in Hb.
    apply bool_decide_eq_false_1 in Hb. exact Hb. }
  split.
  { intros p Hp. apply filter_In in Hp as [_ Hp]. apply negb_true_iff in Hp.
    apply bool_decide_eq_false_1 in Hp. exact Hp. }
  split.
  { intros date. apply map_lookup_filter_None_2.
    destruct (daily_summary db !! (pid, date)) as [d|]; [right | left; reflexivity].
    intros x _ Hx. apply Hx. reflexivity. }
  split.
  { intros l Hl. apply in_app_iff in Hl as [Hl | [<- | []]]; [|discriminate].
    apply filter_In in Hl as [_ Hl]. apply negb_true_iff in Hl.
    apply bool_decide_eq_false_1 in Hl. exact Hl. }
  split; [|reflexivity].
  intros q Hq. split; [apply lookup_delete_ne; congruence|].
  split; [apply lookup_delete_ne; congruence|].
  split.
  { intros P. unfold open_borrowings. db_simpl. apply filter_filter_implied.
    intros b Hb. unfold is_open_of in Hb. apply andb_prop in Hb as [Hb _].
    apply andb_prop in Hb as [Hb _]. apply bool_decide_eq_true_1 in Hb.
    apply negb_true_iff, bool_decide_eq_false_2. congruence. }
  split.
  { unfold getPersonMeta, count_unit_payments. db_simpl. f_equal. f_equal.
    apply filter_filter_implied.
    intros p Hp. apply andb_prop in Hp as [Hp _]. apply bool_decide_eq_true_1 in Hp.
    apply negb_true_iff, bool_decide_eq_false_2. congruence. }
  intros date. destruct (daily_summary db !! (q, date)) as [d|] eqn:E.
  - apply map_lookup_filter_Some_2; [exact E | exact Hq].
  - apply map_lookup_filter_None_2. left. exact E.
Qed.

Lemma deleteMember_removes_one_member_witness :
  ∃ db', deleteMember cfg250 (mkDeleteReq (Some 1%Z) secret) db_debts = (inr tt, db') ∧
         getGroupPools db' = getGroupPools db_debts ∧
         person db' !! 1%Z = None.
Proof.
  destruct (deleteMember_removes_one_member cfg250 (mkDeleteReq (Some 1%Z) secret) db_debts 1)
    as (db' & W1 & W2 & _ & _ & _ & _ & _ & _ & W3).
  - reflexivity.
  - reflexivity.
  - discriminate.
  - vm_compute. eexists. reflexivity.
  - exists db'. split; [exact W1|]. split; [exact W3 | exact W2].
Defined.

(** X15. An accepted [resetAll] keeps the members and wipes the ledger:
    every personal balance that existed is 0 / 0, every pool that was seeded
    holds 0, there is no borrowing, payment or daily summary left, and the
    log consists of the one ADMIN_RESET row.  The savings history goes with
    it: every saved count is 0, so every [borrow] without admin override is
    rejected in the state the reset leaves. *)
Theorem resetAll_wipes_the_ledger cfg password db :
  password = Some (ADMIN_PASSWORD cfg) →
  ∃ db',
    resetAll cfg password db = (inr tt, db') ∧
    person db' = person db ∧
    (∀ k, personal_balance db' !! k = (λ _, mkPersonal 0 0) <$> personal_balance db !! k) ∧
    getGroupPools db' = List.map (λ p, (fst p, 0)) (getGroupPools db) ∧
    borrowing db' = [] ∧ payment db' = [] ∧ daily_summary db' = ∅ ∧
    (∃ entry, transaction_log db' = [entry] ∧ transaction_type entry = T_ADMIN_RESET) ∧
    (∀ q, getPersonMeta q db' = 0%Z) ∧
    (∀ now req, br_adminOverride req = false → ∃ e, borrow cfg now req db' = (inl e, db')).
Proof.
  intros Hpw. unfold resetAll. rewrite (admin_gate cfg _ Hpw).
  unfold transaction, bind, exec. eexists. split; [reflexivity|].
  unfold reset_tables. db_simpl.
  split; [reflexivity|].
  split; [intros k; apply lookup_fmap|].
  split.
  { unfold getGroupPools. db_simpl. destruct (group_main db), (group_validity db); reflexivity. }
  split; [reflexivity|]. split; [reflexivity|]. split; [reflexivity|].
  split; [eexists; split; reflexivity|].
  split; [reflexivity|].
  intros now req Hov.
  match goal with
  | |- ∃ e, borrow cfg now req ?d = _ =>
    destruct (borrow cfg now req d) as [[e|ok] db''] eqn:Hb
  end.
  - rewrite (borrow_rejected_unchanged _ _ _ _ _ _ Hb). eauto.
  - destruct (borrow_success_inv _ _ _ _ _ _ Hb)
      as (P & personal & g & isAdm & _ & _ & _ & _ & Hchk & Hel & _).
    rewrite (check_override_false _ _ _ Hov) in Hchk. injection Hchk as <-.
    destruct (Hel eq_refl) as (Hcnt & _). discriminate Hcnt.
Qed.

Lemma resetAll_wipes_the_ledger_witness :
  ∃ db', resetAll cfg250 secret db_debts = (inr tt, db') ∧ borrowing db' = [] ∧
         getPersonMeta 1 db' = 0%Z ∧ getPersonMeta 1 db_debts = 3%Z.
Proof.
  destruct (resetAll_wipes_the_ledger cfg250 secret db_debts eq_refl)
    as (db' & W1 & _ & _ & _ & W2 & _ & _ & _ & W3 & _).
  exists db'. split; [exact W1|]. split; [exact W2|]. split; [apply W3|].
  vm_compute. reflexivity.
Defined.

(** ** A settled borrowing *)

(** X16. A settled borrowing takes no further payment.  After [repay]
    (with an amount that settles the debt) or [payFull] reports a borrowing
    PAID, every later [repay] of a positive amount on it by its owner is
    rejected with NOT_OPEN and changes nothing; for [payFull] this holds on a
    table whose ids are a primary key. *)
Theorem no_payment_after_settlement now2 req2 :
  0 < rp_amount req2 →
  (∀ now req db ok db',
     repay now req db = (inr ok, db') → ro_status ok = PAID →
     rp_borrowingId req2 = rp_borrowingId req → rp_personId req2 = rp_personId req →
     repay now2 req2 db' = (inl NOT_OPEN, db')) ∧
  (∀ now req db ok db',
     List.NoDup (List.map id (borrowing db)) →
     payFull now req db = (inr ok, db') →
     rp_borrowingId req2 = po_borrowingId ok → rp_personId req2 = pf_personId req →
     repay now2 req2 db' = (inl NOT_OPEN, db')).
Proof.
  intros Hpos. pose proof (amount_check _ Hpos) as Hamt. split.
  - intros now req db ok db' Hr Hpaid Hid Hpid.
    destruct (repay_success_inv _ _ _ _ _ Hr) as (b & Hfind & Hown & _ & _ & _ & Hall).
    cbv zeta in Hall. destruct Hall as (-> & Hrows & _). cbn [ro_status] in Hpaid.
    pose proof (repay_rejections now2 req2 db') as Hrej.
    rewrite Hamt, Hid in Hrej. unfold borrowing_by_id in Hrej, Hfind.
    rewrite Hrows, find_id_map, Hfind in Hrej by reflexivity. cbn [fmap option_fmap option_map] in Hrej.
    cbn [settle person_id status] in Hrej. rewrite Hpaid, Hpid, Hown in Hrej.
    rewrite bool_decide_eq_true_2 in Hrej by reflexivity.
    rewrite bool_decide_eq_false_2 in Hrej by discriminate. exact Hrej.
  - intros now req db ok db' Hnd Hp Hid Hpid.
    unfold payFull, refuse in Hp.
    destruct (parse_pool (pf_poolType req)) as [P|] eqn:HP; [|discriminate].
    destruct (open_borrowings (pf_personId req) P db) as [|b rest] eqn:Hsel.
    { unfold transaction, bind, query, reject in Hp. rewrite Hsel in Hp. discriminate. }
    destruct (payFull_accept now req db P b rest HP Hsel) as (db1 & Hpay & Hrows & _).
    unfold payFull in Hpay. rewrite HP in Hpay. rewrite Hpay in Hp. injection Hp as <- <-.
    cbn [po_borrowingId] in Hid.
    assert (Hin : In b (List.filter (is_open_of (pf_personId req) P) (borrowing db))).
    { unfold open_borrowings in Hsel. rewrite Hsel. left. reflexivity. }
    apply filter_In in Hin as [Hin Hq].
    unfold is_open_of in Hq. apply andb_prop in Hq as [Hq _]. apply andb_prop in Hq as [Hq _].
    apply bool_decide_eq_true_1 in Hq.
    pose proof (repay_rejections now2 req2 db1) as Hrej.
    rewrite Hamt, Hid in Hrej. unfold borrowing_by_id in Hrej.
    rewrite Hrows, find_id_map, (find_by_unique_id _ b Hnd Hin) in Hrej by reflexivity.
    cbn [fmap option_fmap option_map] in Hrej.
    cbn [settle person_id status] in Hrej. rewrite Hpid, Hq in Hrej.
    rewrite bool_decide_eq_true_2 in Hrej by reflexivity.
    rewrite bool_decide_eq_false_2 in Hrej by discriminate. exact Hrej.
Qed.

Lemma no_payment_after_settlement_witness :
  repay noon0 (mkRepayReq 1 1 5) (snd (repay noon0 repay_1430 db_borrowed))
  = (inl NOT_OPEN, snd (repay noon0 repay_1430 db_borrowed)).
Proof.
  destruct (repay noon0 repay_1430 db_borrowed) as [[e|ok] db'] eqn:Hr;
    [vm_compute in Hr; discriminate|].
  cbn [snd].
  apply (proj1 (no_payment_after_settlement noon0 (mkRepayReq 1 1 5) eq_refl)
           noon0 repay_1430 db_borrowed ok db' Hr); [|reflexivity|reflexivity].
  vm_compute in Hr. injection Hr as <- _. reflexivity.
Defined.

(** ** Savings: where the money goes *)

Lemma ensure_personal_row (pid : Z) (db : Db) :
  ∃ db0 p0,
    ensure_personal pid db = inr (tt, db0) ∧
    personal_balance db0 !! pid = Some p0 ∧
    main_savings_balance p0
      == main_savings_balance (default (mkPersonal 0 0) (personal_balance db !! pid)) ∧
    validity_savings_balance p0
      == validity_savings_balance (default (mkPersonal 0 0) (personal_balance db !! pid)) ∧
    (∀ q, q ≠ pid → personal_balance db0 !! q = personal_balance db !! q) ∧
    daily_summary db0 = daily_summary db ∧
    group_main db0 = group_main db ∧ group_validity db0 = group_validity db ∧
    payment db0 = payment db.
Proof.
  unfold ensure_personal, bind, query, ret, exec.
  destruct (personal_balance db !! pid) as [p|] eqn:Hp.
  - exists db, p. rewrite Hp. repeat split; reflexivity.
  - eexists _, _. split; [reflexivity|]. db_simpl.
    split; [apply lookup_insert_eq|]. split; [reflexivity|]. split; [reflexivity|].
    split; [intros q Hq; apply lookup_insert_ne; congruence|]. repeat split.
Qed.

(** The money a save books, once the day's row is known. *)
Lemma save_apply_money cfg pid date units pv existing db0 r db1 :
  save_apply cfg pid date units pv existing db0 = inr (r, db1) →
  let charged := pv && negb (from_option validity_paid false existing) in
  let bought := (units >? 0)%Z in
  let fee := VALIDITY_FEE cfg in
  let uA := round2 (inject_Z units * UNIT_PRICE cfg) in
  r = (if bought then units else 0%Z, if charged then fee else 0) ∧
  personal_balance db1 =
    (if bought then alter (add_main uA) pid else λ m, m)
      ((if charged then alter (add_validity fee) pid else λ m, m) (personal_balance db0)) ∧
  group_main db1 = (if bought then fmap (λ g, g + uA) else λ g, g) (group_main db0) ∧
  group_validity db1 = (if charged then fmap (λ g, g + fee) else λ g, g) (group_validity db0) ∧
  payment db1 =
    payment db0
    ++ (if charged then [mkPayment pid P_VALIDITY fee (Some date) None] else [])
    ++ (if bought then [mkPayment pid P_UNIT uA (Some date) None] else []).
Proof.
  intros H. cbv zeta. tx_unfold.
  destruct existing as [d|]; cbn [from_option].
  - destruct pv, (validity_paid d); cbn [andb negb] in *;
      destruct (units_count d + units >? 4)%Z; try discriminate H;
      destruct (units >? 0)%Z; injection H as <- <-; db_simpl;
      rewrite <- ?app_assoc, ?app_nil_r; repeat split.
  - destruct pv; cbn [andb negb] in *;
      destruct (units >? 0)%Z; injection H as <- <-; db_simpl;
      rewrite <- ?app_assoc, ?app_nil_r; repeat split.
Qed.

(** The money a retroactive fill books, the fine apart. *)
Lemma retro_apply_money cfg pid date addUnits pv existing db0 r db1 :
  retro_apply cfg pid date addUnits pv existing db0 = inr (r, db1) →
  let charged := pv && negb (from_option validity_paid false existing) in
  let bought := (addUnits >? 0)%Z in
  let fee := VALIDITY_FEE cfg in
  let uA := round2 (inject_Z addUnits * UNIT_PRICE cfg) in
  r = (if bought then addUnits else 0%Z, if bought then uA else 0,
       if charged then fee else 0, if bought then FINE_AMOUNT cfg else 0) ∧
  personal_balance db1 =
    (if bought then alter (add_main uA) pid else λ m, m)
      ((if charged then alter (add_validity fee) pid else λ m, m) (personal_balance db0)) ∧
  group_main db1 = (if bought then fmap (λ g, g + uA) else λ g, g) (group_main db0) ∧
  group_validity db1 = (if charged then fmap (λ g, g + fee) else λ g, g) (group_validity db0) ∧
  payment db1 =
    payment db0
    ++ (if charged then [mkPayment pid P_VALIDITY fee (Some date) None] else [])
    ++ (if bought then [mkPayment pid P_UNIT uA (Some date) None] else []).
Proof.
  intros H. cbv zeta. tx_unfold.
  destruct existing as [d|]; cbn [from_option].
  - destruct (units_count d + addUnits >? 4)%Z; try discriminate H.
    destruct pv, (validity_paid d); cbn [andb negb] in *;
      destruct (addUnits >? 0)%Z; injection H as <- <-; db_simpl;
      rewrite <- ?app_assoc, ?app_nil_r; repeat split.
  - destruct pv; cbn [andb negb] in *;
      destruct (addUnits >? 0)%Z; injection H as <- <-; db_simpl;
      rewrite <- ?app_assoc, ?app_nil_r; repeat split.
Qed.

Lemma lookup_credited (pid : Z) (bought charged : bool) (uA fee : Q)
    (m : gmap Z PersonalBalance) (p0 : PersonalBalance) :
  m !! pid = Some p0 →
  let m1 := (if bought then alter (add_main uA) pid else λ m, m)
              ((if charged then alter (add_validity fee) pid else λ m, m) m) in
  (∃ p1, m1 !! pid = Some p1 ∧
         main_savings_balance p1 == main_savings_balance p0 + (if bought then uA else 0) ∧
         validity_savings_balance p1
           == validity_savings_balance p0 + (if charged then fee else 0)) ∧
  (∀ q, q ≠ pid → m1 !! q = m !! q).
Proof.
  intros Hp. cbv zeta. split.
  - destruct bought, charged; rewrite ?lookup_alter_eq, Hp; eexists; (split; [reflexivity|]);
      cbn [add_main add_validity main_savings_balance validity_savings_balance];
      split; ring.
  - intros q Hq. destruct bought, charged; rewrite ?lookup_alter_ne by congruence; reflexivity.
Qed.

Lemma count_after_saving (pid q date : Z) (bought charged : bool) (uA fee : Q)
    (db db1 : Db) :
  payment db1 =
    payment db
    ++ (if charged then [mkPayment pid P_VALIDITY fee (Some date) None] else [])
    ++ (if bought then [mkPayment pid P_UNIT uA (Some date) None] else []) →
  count_unit_payments q db1
  = (count_unit_payments q db + (if bool_decide (pid = q) && bought then 1 else 0))%Z.
Proof.
  intros E. unfold count_unit_payments. rewrite E, !List.filter_app, !List.length_app.
  destruct charged, bought; cbn [List.filter pay_person_id pay_type];
    rewrite ?(bool_decide_eq_false_2 (P_VALIDITY = P_UNIT)) by discriminate;
    rewrite ?(bool_decide_eq_true_2 (P_UNIT = P_UNIT)) by reflexivity;
    rewrite ?andb_false_r, ?andb_true_r; destruct (bool_decide (pid = q));
    cbn [length andb]; lia.
Qed.

Lemma no_units_no_amount (units : Z) :
  (0 ≤ units)%Z → (units >? 0)%Z = false → units = 0%Z.
Proof. intros H0 H. destruct (Z.gtb_spec units 0); [discriminate | lia]. Qed.



Lemma charge_fine_spec (pid date : Z) (fine : Q) (db1 : Db) :
  ∃ db2,
    when (Qgtb fine 0) (charge_fine pid date fine) db1 = inr (tt, db2) ∧
    personal_balance db2 = personal_balance db1 ∧
    group_main db2 = (if Qgtb fine 0 then fmap (λ g, g + fine) else λ g, g) (group_main db1) ∧
    group_validity db2 = group_validity db1 ∧
    payment db2 =
      payment db1
      ++ (if Qgtb fine 0 then [mkPayment pid P_FINE fine (Some date) None] else []).
Proof.
  unfold when, charge_fine, bind, query, exec, ret.
  destruct (Qgtb fine 0); eexists; (split; [reflexivity|]); db_simpl;
    rewrite ?app_nil_r; repeat split.
Qed.

Lemma retro_accept_inv cfg now req db ok db' :
  retroactiveFill cfg now req db = (inr ok, db') →
  ∃ date, rf_date req = Some date ∧ (date < today_of now)%Z ∧
          (0 ≤ rf_addUnits req ≤ 4)%Z ∧
          (rf_addUnits req = 0%Z → rf_payValidityIfMissing req = true).
Proof.
  unfold retroactiveFill, refuse. intros H.
  destruct (rf_date req) as [date|]; [|discriminate]. exists date.
  destruct (Z.geb_spec date (today_of now)); [discriminate|].
  destruct (Z.ltb_spec (rf_addUnits req) 0); [discriminate|].
  destruct (Z.gtb_spec (rf_addUnits req) 4); [discriminate|]. cbn [orb] in H.
  split; [reflexivity|]. split; [lia|]. split; [lia|].
  intros E. rewrite (bool_decide_eq_true_2 _ E) in H.
  destruct (rf_payValidityIfMissing req); [reflexivity | discriminate].
Qed.

(** X18. An accepted retroactive fill books the late units and the
    validity fee like a save, and the fine on top of it for the pool only.
    The fine is [FINE_AMOUNT] when units are added and nothing otherwise;
    the validity fee is applied only if asked for and not yet paid for that
    day.  The person's main balance grows by the amount for the units, the
    MAIN pool by that amount plus the fine, the validity balance and the
    VALIDITY pool by the validity amount; the late purchase counts once
    towards the saved count and the fine payment does not count.  The fill
    is only accepted for a date before today, for 0 to 4 units, and when it
    asks for units or for the fee. *)
Theorem retro_fine_goes_to_the_pool cfg now req db ok db' gm gv :
  0 <= FINE_AMOUNT cfg →
  group_main db = Some gm → group_validity db = Some gv →
  retroactiveFill cfg now req db = (inr ok, db') →
  let pid := rf_personId req in
  let before := default (mkPersonal 0 0) (personal_balance db !! pid) in
  let a := rf_applied ok in
  let late := (rf_addUnits req >? 0)%Z in
  (∃ date, rf_date req = Some date ∧ (date < today_of now)%Z ∧
     let paid := from_option validity_paid false (daily_summary db !! (pid, date)) in
     rf_appliedValidityAmount a
       = if rf_payValidityIfMissing req && negb paid then VALIDITY_FEE cfg else 0) ∧
  (0 ≤ rf_addUnits req ≤ 4)%Z ∧
  (rf_addUnits req = 0%Z → rf_payValidityIfMissing req = true) ∧
  fineApplied a = (if late then FINE_AMOUNT cfg else 0) ∧
  rf_appliedUnitsAmount a == round2 (inject_Z (rf_addUnits req) * UNIT_PRICE cfg) ∧
  personal_balance db' !! pid = Some (rf_newBalances ok) ∧
  main_savings_balance (rf_newBalances ok)
    == main_savings_balance before + rf_appliedUnitsAmount a ∧
  validity_savings_balance (rf_newBalances ok)
    == validity_savings_balance before + rf_appliedValidityAmount a ∧
  group_main db' = Some (rf_groupPools_MAIN ok) ∧
  rf_groupPools_MAIN ok == gm + rf_appliedUnitsAmount a + fineApplied a ∧
  group_validity db' = Some (rf_groupPools_VALIDITY ok) ∧
  rf_groupPools_VALIDITY ok == gv + rf_appliedValidityAmount a ∧
  getPersonMeta pid db' = (getPersonMeta pid db + (if late then 1 else 0))%Z.
Proof.
  intros Hfine Hgm Hgv H. cbv zeta.
  destruct (retro_accept_inv _ _ _ _ _ _ H) as (date & Hdate & Hpast & [Hlo Hhi] & Hask).
  unfold retroactiveFill, refuse in H. rewrite Hdate in H.
  destruct (date >=? today_of now)%Z; [discriminate|].
  destruct ((rf_addUnits req <? 0)%Z || (rf_addUnits req >? 4)%Z); [discriminate|].
  destruct (bool_decide (rf_addUnits req = 0%Z) && negb (rf_payValidityIfMissing req));
    [discriminate|].
  unfold transaction in H. unfold bind at 1 in H.
  destruct (ensure_personal_row (rf_personId req) db)
    as (db0 & p0 & E0 & Hp0 & Hm0 & Hv0 & Hoth0 & Hd0 & Hgm0 & Hgv0 & Hpay0).
  rewrite E0 in H. unfold bind at 1 in H. unfold query at 1 in H. unfold bind at 1 in H.
  destruct (retro_apply cfg _ _ _ _ _ db0) as [e|[[[[aU aUA] aV] fine] db1]] eqn:Hs;
    [discriminate|].
  destruct (retro_apply_money _ _ _ _ _ _ _ _ _ Hs) as (Hr & Hpb & Hgm1 & Hgv1 & Hpay1).
  cbv zeta in Hr, Hpb, Hgm1, Hgv1, Hpay1. rewrite Hd0 in Hr, Hpb, Hgv1, Hpay1.
  set (charged := rf_payValidityIfMissing req
                  && negb (from_option validity_paid false
                             (daily_summary db !! (rf_personId req, date)))) in *.
  set (late := (rf_addUnits req >? 0)%Z) in *.
  set (uA := round2 (inject_Z (rf_addUnits req) * UNIT_PRICE cfg)) in *.
  injection Hr as -> -> -> ->.
  assert (Hlate : (if late then uA else 0) == uA).
  { destruct late eqn:Eb; [reflexivity|]. unfold uA.
    rewrite (no_units_no_amount _ Hlo Eb).
    rewrite (round2_zero (inject_Z 0 * UNIT_PRICE cfg)) by ring. reflexivity. }
  destruct (lookup_credited (rf_personId req) late charged uA (VALIDITY_FEE cfg)
              (personal_balance db0) p0 Hp0) as [(p1 & Hp1 & Hm1 & Hv1) Hoth1].
  cbv zeta in Hp1, Hoth1. rewrite <- Hpb in Hp1, Hoth1.
  cbn beta iota in H. unfold bind at 1 in H.
  destruct (charge_fine_spec (rf_personId req) date (if late then FINE_AMOUNT cfg else 0) db1)
    as (db2 & E2 & Hpb2 & Hgm2 & Hgv2 & Hpay2).
  rewrite E2 in H.
  assert (Hg1 : ∃ g1, group_main db2 = Some g1
                      ∧ g1 == gm + (if late then uA else 0)
                                 + (if late then FINE_AMOUNT cfg else 0)).
  { rewrite Hgm2, Hgm1, Hgm0, Hgm. destruct late.
    - destruct (Qgtb (FINE_AMOUNT cfg) 0) eqn:Ef; eexists; (split; [reflexivity|]).
      + reflexivity.
      + apply Qgtb_false in Ef. lra.
    - change (Qgtb 0 0) with false. eexists. split; [reflexivity|]. ring. }
  destruct Hg1 as (g1 & Hg1 & Hg1v).
  assert (Hg2 : ∃ g2, group_validity db2 = Some g2
                      ∧ g2 == gv + (if charged then VALIDITY_FEE cfg else 0)).
  { rewrite Hgv2, Hgv1, Hgv0, Hgv. destruct charged; eexists; (split; [reflexivity|]).
    - reflexivity.
    - ring. }
  destruct Hg2 as (g2 & Hg2 & Hg2v).
  rewrite <- Hpb2 in Hp1.
  unfold fetch_balances, bind, query, ret, when, exec in H. cbn beta iota in H.
  unfold group_balance in H. rewrite Hp1, Hg1, Hg2 in H. cbn [default from_option] in H.
  unfold Datatypes.id in H.
  assert (Hfinal : ok = mkRetroOk
                          (mkRetroApplied (if late then rf_addUnits req else 0%Z)
                             (if late then uA else 0)
                             (if charged then VALIDITY_FEE cfg else 0)
                             (if late then FINE_AMOUNT cfg else 0)) p1 g1 g2
                   ∧ personal_balance db' = personal_balance db2
                   ∧ group_main db' = group_main db2
                   ∧ group_validity db' = group_validity db2
                   ∧ payment db' = payment db2).
  { destruct (Qgtb _ 0) in H; injection H as <- <-; repeat split. }
  destruct Hfinal as (-> & Fpb & Fgm & Fgv & Fpay).
  cbn [rf_applied rf_appliedUnits rf_appliedUnitsAmount rf_appliedValidityAmount fineApplied
       rf_newBalances rf_groupPools_MAIN rf_groupPools_VALIDITY].
  split; [exists date; split; [exact Hdate|]; split; [exact Hpast | reflexivity]|].
  split; [split; assumption|].
  split; [exact Hask|].
  split; [reflexivity|].
  split; [exact Hlate|].
  split; [rewrite Fpb; exact Hp1|].
  split; [rewrite Hm1, Hm0; reflexivity|].
  split; [rewrite Hv1, Hv0; reflexivity|].
  split; [rewrite Fgm; exact Hg1|].
  split; [exact Hg1v|].
  split; [rewrite Fgv; exact Hg2|].
  split; [exact Hg2v|].
  unfold getPersonMeta.
  rewrite (count_unit_payments_frame _ db2 db' Fpay).
  assert (Hc2 : count_unit_payments (rf_personId req) db2
                = count_unit_payments (rf_personId req) db1).
  { unfold count_unit_payments. rewrite Hpay2, List.filter_app, List.length_app.
    destruct (Qgtb (if late then FINE_AMOUNT cfg else 0) 0);
      cbn [List.filter pay_person_id pay_type];
      rewrite ?(bool_decide_eq_false_2 (P_FINE = P_UNIT)) by discriminate;
      rewrite ?andb_false_r; cbn [length]; rewrite Nat.add_0_r; reflexivity. }
  rewrite Hc2, (count_after_saving _ (rf_personId req) _ late charged _ _ db0 db1 Hpay1).
  rewrite (count_unit_payments_frame _ db db0 Hpay0).
  rewrite bool_decide_eq_true_2 by reflexivity. reflexivity.
Qed.

Lemma retro_fine_goes_to_the_pool_witness :
  ∃ ok db' x,
    retroactiveFill cfg500 noon0 (mkRetroReq 1 (Some (day0 - 1)%Z) 1 true) db_one_payment
      = (inr ok, db') ∧
    fineApplied (rf_applied ok) = 500 ∧
    group_main db' = Some x ∧ x == 4000.
Proof.
  destruct (retroactiveFill cfg500 noon0 (mkRetroReq 1 (Some (day0 - 1)%Z) 1 true)
              db_one_payment) as [[e|ok] db'] eqn:H; [vm_compute in H; discriminate|].
  destruct (group_main db_one_payment) as [gm|] eqn:Hgm; [|vm_compute in Hgm; discriminate].
  destruct (group_validity db_one_payment) as [gv|] eqn:Hgv;
    [|vm_compute in Hgv; discriminate].
  destruct (retro_fine_goes_to_the_pool cfg500 noon0
              (mkRetroReq 1 (Some (day0 - 1)%Z) 1 true) db_one_payment ok db' gm gv
              ltac:(discriminate) Hgm Hgv H)
    as (_ & _ & _ & W1 & W2 & _ & _ & _ & W3 & W4 & _).
  exists ok, db', (rf_groupPools_MAIN ok).
  split; [reflexivity|]. split; [exact W1|]. split; [exact W3|].
  rewrite W4, W2, W1. vm_compute in Hgm. injection Hgm as <-. vm_compute. reflexivity.
Defined.

(** ** getShare *)

Lemma fold_units_insert (m : gmap (Z * Z) DailySummary) (k : Z * Z) (d : DailySummary) :
  m !! k = None →
  map_fold (λ _ d acc, (units_count d + acc)%Z) 0%Z (<[k := d]> m)
  = (units_count d + map_fold (λ _ d acc, (units_count d + acc)%Z) 0%Z m)%Z.
Proof.
  intros Hk. apply (map_fold_insert_L (λ _ d acc, (units_count d + acc)%Z)); [|exact Hk].
  intros. lia.
Qed.

Lemma units_sold_fold (db : Db) :
  units_sold db = map_fold (λ _ d acc, (units_count d + acc)%Z) 0%Z (daily_summary db).
Proof.
  unfold units_sold, sum_units. case_bool_decide as E; [|reflexivity].
  rewrite E. reflexivity.
Qed.

(** Changing one row of [daily_summary] changes the sum by the difference of
    the row's counts. *)
Lemma fold_units_update (m m' : gmap (Z * Z) DailySummary) (k : Z * Z) (d1 : DailySummary) :
  m' !! k = Some d1 → (∀ k', k' ≠ k → m' !! k' = m !! k') →
  map_fold (λ _ d acc, (units_count d + acc)%Z) 0%Z m'
  = (map_fold (λ _ d acc, (units_count d + acc)%Z) 0%Z m
     - from_option units_count 0%Z (m !! k) + units_count d1)%Z.
Proof.
  intros Hk Hoth.
  assert (Hm' : m' = <[k := d1]> (delete k m)).
  { apply map_eq. intros j. destruct (decide (j = k)) as [->|Hj].
    - rewrite lookup_insert_eq. exact Hk.
    - rewrite lookup_insert_ne, lookup_delete_ne by congruence. apply Hoth, Hj. }
  rewrite Hm', fold_units_insert by apply lookup_delete_eq.
  destruct (m !! k) as [d|] eqn:E; cbn [from_option].
  - rewrite <- (insert_delete_id m k d E) at 2.
    rewrite fold_units_insert by apply lookup_delete_eq. lia.
  - rewrite (delete_id m k E). lia.
Qed.

Lemma fold_units_nonneg (m : gmap (Z * Z) DailySummary) :
  (∀ k d, m !! k = Some d → (0 ≤ units_count d)%Z) →
  (0 ≤ map_fold (λ _ d acc, (units_count d + acc)%Z) 0%Z m)%Z.
Proof.
  induction m as [|k d m Hk IH] using map_ind; intros H.
  - rewrite map_fold_empty. lia.
  - rewrite fold_units_insert by exact Hk.
    assert (0 ≤ units_count d)%Z by (apply (H k); apply lookup_insert_eq).
    assert (0 ≤ map_fold (λ _ d acc, (units_count d + acc)%Z) 0%Z m)%Z.
    { apply IH. intros j dj Hj. apply (H j).
      rewrite lookup_insert_ne; [exact Hj|]. intros ->. congruence. }
    lia.
Qed.

Lemma step_same_days cfg op db :
  is_saving op = false → is_admin_wipe op = false → same_days db (step cfg op db).
Proof.
  assert (Hrefl : ∀ d, same_days d d) by reflexivity.
  assert (Htrans : ∀ a b c, same_days a b → same_days b c → same_days a c)
    by (unfold same_days; congruence).
  intros H1 H2. destruct op; try discriminate H1; try discriminate H2; cbn [step];
    handlers_unfold; tx_rel_walk Hrefl Htrans; reflexivity.
Qed.

Lemma step_units_nonneg cfg op db : units_nonneg db → units_nonneg (step cfg op db).
Proof.
  intros Hnn.
  destruct (is_saving op) eqn:Hs; [|destruct (is_admin_wipe op) eqn:Hw].
  - destruct op as [| | | | | | | |now req|now req]; try discriminate Hs; cbn [step].
    + destruct (decide (0 ≤ sv_units req ≤ 4)%Z) as [Hr|Hr].
      * pose proof (save_spec cfg now req db Hr) as S. cbv zeta in S.
        destruct (saveUnitsAndValidity cfg now req db) as [[e|ok] db']; cbn [snd].
        -- destruct S as [-> _]. exact Hnn.
        -- destruct S as (_ & _ & _ & (d1 & Hd1 & Hcount & _) & Hoth & _).
           intros k d Hk.
           destruct (decide (k = (sv_personId req,
                                  default (today_of now) (sv_effectiveDate req))))
             as [->|Hne].
           ++ rewrite Hd1 in Hk. injection Hk as <-. rewrite Hcount.
              destruct (daily_summary db !! _) as [d0|] eqn:E; cbn [from_option]; [|lia].
              specialize (Hnn _ _ E). lia.
           ++ rewrite (Hoth k Hne) in Hk. exact (Hnn k d Hk).
      * rewrite (save_out_of_range cfg now req db Hr). exact Hnn.
    + pose proof (retroactiveFill_daily cfg now req db) as S.
      destruct (retroactiveFill cfg now req db) as [[e|ok] db']; cbn [snd].
      * rewrite S. exact Hnn.
      * destruct S as (date & _ & [Hlo _] & S). cbv zeta in S.
        destruct S as (_ & (d1 & Hd1 & Hcount) & Hoth & _).
        intros k d Hk. destruct (decide (k = (rf_personId req, date))) as [->|Hne].
        -- rewrite Hd1 in Hk. injection Hk as <-. rewrite Hcount.
           destruct (daily_summary db !! _) as [d0|] eqn:E; cbn [from_option]; [|lia].
           specialize (Hnn _ _ E). lia.
        -- rewrite (Hoth k Hne) in Hk. exact (Hnn k d Hk).
  - destruct op as [| | | | |req|pw| | |]; try discriminate Hw; cbn [step].
    + pose proof (deleteMember_outcome cfg req db) as Ho.
      destruct (deleteMember cfg req db) as [[e|ok] db']; cbn [snd].
      * rewrite Ho. exact Hnn.
      * destruct Ho as (pid & _ & _ & Hd). unfold units_nonneg. rewrite Hd.
        intros k d Hk. apply map_lookup_filter_Some in Hk as [Hk _]. exact (Hnn k d Hk).
    + pose proof (resetAll_outcome cfg pw db) as Ho.
      destruct (resetAll cfg pw db) as [[e|ok] db']; cbn [snd].
      * rewrite Ho. exact Hnn.
      * destruct Ho as (_ & _ & Hd). unfold units_nonneg. rewrite Hd.
        intros k d Hk. rewrite lookup_empty in Hk. discriminate.
  - unfold units_nonneg. rewrite (step_same_days cfg op db Hs Hw). exact Hnn.
Qed.

(** X19. The units that [getShare] reports are the units sold: an accepted
    save adds its units to the total, an accepted retroactive fill adds its
    late units, every request other than a save, a fill or an admin
    clean-up leaves the total as it was, and in no state reached from the
    seeded database is the total negative. *)
Theorem getShare_counts_every_unit cfg :
  (∀ now req db ok db',
     saveUnitsAndValidity cfg now req db = (inr ok, db') →
     total_units (getShare db') = (total_units (getShare db) + sv_units req)%Z) ∧
  (∀ now req db ok db',
     retroactiveFill cfg now req db = (inr ok, db') →
     total_units (getShare db') = (total_units (getShare db) + rf_addUnits req)%Z) ∧
  (∀ op db, is_saving op = false → is_admin_wipe op = false →
     total_units (getShare (step cfg op db)) = total_units (getShare db)) ∧
  (∀ ops, (0 ≤ total_units (getShare (run cfg ops init_db)))%Z).
Proof.
  assert (Hfold : ∀ db, total_units (getShare db)
            = map_fold (λ _ d acc, (units_count d + acc)%Z) 0%Z (daily_summary db)).
  { intros db. rewrite <- units_sold_fold. reflexivity. }
  split; [|split; [|split]].
  - intros now req db ok db' H. rewrite !Hfold.
    pose proof (save_spec cfg now req db (save_success_in_range _ _ _ _ _ _ H)) as S.
    cbv zeta in S. rewrite H in S.
    destruct S as (_ & _ & _ & (d1 & Hd1 & Hcount & _) & Hoth & _).
    rewrite (fold_units_update _ _ _ d1 Hd1 Hoth), Hcount. lia.
  - intros now req db ok db' H. rewrite !Hfold.
    pose proof (retroactiveFill_daily cfg now req db) as S. rewrite H in S.
    destruct S as (date & _ & _ & S). cbv zeta in S.
    destruct S as (_ & (d1 & Hd1 & Hcount) & Hoth & _).
    rewrite (fold_units_update _ _ _ d1 Hd1 Hoth), Hcount. lia.
  - intros op db Hs Hw. rewrite !Hfold, (step_same_days cfg op db Hs Hw). reflexivity.
  - intros ops. rewrite Hfold. apply fold_units_nonneg.
    assert (H : ∀ db, units_nonneg db → units_nonneg (run cfg ops db)).
    { induction ops as [|op ops IH]; intros db Hnn; [exact Hnn|].
      cbn [run fold_left]. apply IH, step_units_nonneg, Hnn. }
    apply H. intros k d Hk. cbn in Hk. rewrite lookup_empty in Hk. discriminate.
Qed.

Lemma getShare_counts_every_unit_witness :
  ∃ ok db',
    saveUnitsAndValidity cfg500 noon0 (mkSaveReq 1 2 true None) db_one_payment = (inr ok, db') ∧
    total_units (getShare db') = (total_units (getShare db_one_payment) + 2)%Z.
Proof.
  destruct (saveUnitsAndValidity cfg500 noon0 (mkSaveReq 1 2 true None) db_one_payment)
    as [[e|ok] db'] eqn:H; [vm_compute in H; discriminate|].
  exists ok, db'. split; [reflexivity|].
  exact (proj1 (getShare_counts_every_unit cfg500) noon0 (mkSaveReq 1 2 true None)
           db_one_payment ok db' H).
Defined.

(** X20. What [getShare] reports.  With both pools seeded, the total
    savings reported are the sum of the two pools up to half a cent; with no
    unit sold the share per unit is 0 and nothing is divided; and with
    units sold, paying the reported share for every unit hands out the sum
    of the pools up to half a cent per unit. *)
Theorem getShare_shares_the_pools db gm gv :
  group_main db = Some gm → group_validity db = Some gv →
  let s := getShare db in
  let units := inject_Z (total_units s) in
  gm + gv - 0.005 <= total_savings s <= gm + gv + 0.005 ∧
  (total_units s = 0%Z → share_per_unit s == 0) ∧
  ((0 < total_units s)%Z →
   gm + gv - 0.005 * units <= share_per_unit s * units <= gm + gv + 0.005 * units).
Proof.
  intros Hgm Hgv. cbv zeta. unfold getShare, getGroupPools. rewrite Hgm, Hgv.
  cbn [from_option app fold_left snd total_savings total_units share_per_unit].
  fold (units_sold db).
  assert (Hsum : 0 + gm + gv == gm + gv) by ring.
  split; [|split].
  - pose proof (round2_close (0 + gm + gv)) as H. split; lra.
  - intros ->. rewrite bool_decide_eq_true_2 by reflexivity. reflexivity.
  - intros Hpos. rewrite bool_decide_eq_false_2 by lia.
    set (u := inject_Z (units_sold db)).
    assert (Hu : 0 < u).
    { unfold u. change 0 with (inject_Z 0). rewrite <- Zlt_Qlt. exact Hpos. }
    set (q := (0 + gm + gv) / u).
    assert (Hq : q * u == gm + gv) by (unfold q; field; lra).
    pose proof (round2_close q) as [H1 H2].
    assert (K1 : (q - 0.005) * u <= round2 q * u) by (apply Qmult_le_compat_r; lra).
    assert (K2 : round2 q * u <= (q + 0.005) * u) by (apply Qmult_le_compat_r; lra).
    assert (E1 : (q - 0.005) * u == gm + gv - 0.005 * u) by (rewrite <- Hq; ring).
    assert (E2 : (q + 0.005) * u == gm + gv + 0.005 * u) by (rewrite <- Hq; ring).
    split; lra.
Qed.

Lemma getShare_shares_the_pools_witness :
  ∃ gm gv,
    group_main db_debts = Some gm ∧ group_validity db_debts = Some gv ∧
    (0 < total_units (getShare db_debts))%Z ∧
    gm + gv - 0.005 * inject_Z (total_units (getShare db_debts))
      <= share_per_unit (getShare db_debts) * inject_Z (total_units (getShare db_debts)).
Proof.
  destruct (group_main db_debts) as [gm|] eqn:Hgm; [|vm_compute in Hgm; discriminate].
  destruct (group_validity db_debts) as [gv|] eqn:Hgv; [|vm_compute in Hgv; discriminate].
  pose proof (getShare_shares_the_pools db_debts gm gv Hgm Hgv) as W. cbv zeta in W.
  assert (Hpos : (0 < total_units (getShare db_debts))%Z) by (vm_compute; reflexivity).
  exists gm, gv. split; [reflexivity|]. split; [reflexivity|]. split; [exact Hpos|].
  exact (proj1 (proj2 (proj2 W) Hpos)).
Defined.

(** ** A partial repayment *)




(** ** The first penalty of a loan *)

Lemma fullPeriods_in_first_period now r :
  last_penalty_applied_at r = None →
  (now < (due_date r + period_days (pool_type r)) * msPerDay)%Z →
  fullPeriods_of now r = None.
Proof.
  intros Hlast Hlt. unfold fullPeriods_of. rewrite Hlast. cbn [default from_option].
  destruct (Z.leb_spec now (due_date r * msPerDay)) as [|Hdue]; [reflexivity|].
  assert (Hd : (0 ≤ (now - due_date r * msPerDay) / msPerDay < period_days (pool_type r))%Z).
  { split.
    - apply Z.div_pos; [lia | reflexivity].
    - apply Z.div_lt_upper_bound; [reflexivity | lia]. }
  assert (Hz : ((now - due_date r * msPerDay) / msPerDay / period_days (pool_type r) = 0)%Z)
    by (apply Z.div_small; exact Hd).
  unfold period_days, MAIN_PERIOD_DAYS, VALIDITY_PERIOD_DAYS in Hz.
  destruct (pool_type r); cbn beta iota in Hz |- *; rewrite Hz; reflexivity.
Qed.

Lemma admin_periods_in_first_period cfg now r :
  last_penalty_applied_at r = None →
  (now < (due_date r + 30) * msPerDay - tz_offset_ms cfg)%Z →
  admin_periods_of cfg now r = None.
Proof.
  intros Hlast Hlt. unfold admin_periods_of. rewrite Hlast. cbn [default from_option].
  destruct (Z.leb_spec now (due_date r * msPerDay - tz_offset_ms cfg)) as [|Hdue];
    [reflexivity|].
  set (e := ((now - (due_date r * msPerDay - tz_offset_ms cfg)) / msPerDay)%Z).
  assert (He : (e < 30)%Z) by (apply Z.div_lt_upper_bound; [reflexivity | lia]).
  assert (Hp : (e / 30 < 1)%Z) by (apply Z.div_lt_upper_bound; lia).
  destruct (Z.leb_spec (e / 30) 0); [reflexivity | lia].
Qed.

(** X22. No penalty before a full period past the due date.  On a table
    whose ids are a primary key, the borrowing an accepted [borrow] creates
    on day [today] falls due after one period of its pool, and the
    standalone sweep leaves it exactly as created at every instant before
    the start of day [today + 2 * period] (60 days for MAIN, 14 for
    VALIDITY); the admin sweep leaves it as created before local midnight
    of day [today + period + 30]. *)
Theorem no_penalty_in_the_first_periods cfg now req db ok db1 P :
  ids_fresh db →
  borrow cfg now req db = (inr ok, db1) →
  parse_pool (br_poolType req) = Some P →
  ∃ b,
    borrowing_by_id (bo_borrowingId ok) db1 = Some b ∧
    due_date b = (today_of now + period_days P)%Z ∧
    (∀ now2, (now2 < (today_of now + 2 * period_days P) * msPerDay)%Z →
       borrowing_by_id (bo_borrowingId ok) (snd (runPenalties now2 db1)) = Some b) ∧
    (∀ now2,
       (now2 < (today_of now + period_days P + 30) * msPerDay - tz_offset_ms cfg)%Z →
       borrowing_by_id (bo_borrowingId ok) (snd (admin_runPenalties cfg now2 db1)) = Some b).
Proof.
  intros Hids Hb HP.
  destruct (borrow_success_inv _ _ _ _ _ _ Hb)
    as (P' & personal & g & isAdm & HP' & _ & _ & _ & _ & _ & _ & Hall).
  rewrite HP in HP'. injection HP' as <-.
  cbv zeta in Hall. destruct Hall as (-> & Hrows & Hnext & _).
  cbn [bo_borrowingId].
  set (row := mkBorrowing (next_borrowing_id db) (br_personId req) P (br_amount req)
                (round2 (fmul (br_amount req) BORROW_INTEREST_PCT))
                (round2 (br_amount req + round2 (fmul (br_amount req) BORROW_INTEREST_PCT)))
                OPEN (dateAddDays (today_of now) (period_days P)) None None) in *.
  assert (Hids1 : ids_fresh db1) by exact (ids_fresh_insert db db1 row Hrows eq_refl Hnext Hids).
  destruct Hids1 as [Hnd1 _].
  assert (Hin : In row (borrowing db1))
    by (rewrite Hrows; apply in_app_iff; right; left; reflexivity).
  assert (Hfind : borrowing_by_id (next_borrowing_id db) db1 = Some row)
    by exact (find_by_unique_id _ row Hnd1 Hin).
  exists row. split; [exact Hfind|]. split; [reflexivity|]. split.
  - intros now2 Hlt.
    destruct (runPenalties_rows now2 db1 Hnd1) as (db2 & -> & Hrows2). cbn [snd].
    unfold borrowing_by_id in *. rewrite Hrows2, (find_id_swept _ _ _ (swept_id now2)), Hfind.
    cbn [fmap option_fmap option_map]. f_equal. unfold swept.
    rewrite fullPeriods_in_first_period; [destruct (bool_decide _); reflexivity | reflexivity |].
    cbn [row due_date pool_type]. unfold dateAddDays. lia.
  - intros now2 Hlt.
    destruct (admin_runPenalties_rows cfg now2 db1 Hnd1) as (db2 & -> & Hrows2). cbn [snd].
    unfold borrowing_by_id in *.
    rewrite Hrows2, (find_id_swept _ _ _ (admin_swept_id cfg now2)), Hfind.
    cbn [fmap option_fmap option_map]. f_equal. unfold admin_swept.
    rewrite admin_periods_in_first_period; [destruct (bool_decide _); reflexivity | reflexivity |].
    cbn [row due_date]. unfold dateAddDays. lia.
Qed.

Lemma no_penalty_in_the_first_periods_witness :
  ∃ ok db1 b,
    borrow cfg250 noon0 borrow_1300 db_at_limit = (inr ok, db1) ∧
    borrowing_by_id (bo_borrowingId ok)
      (snd (runPenalties ((day0 + 59) * msPerDay) db1)) = Some b ∧
    due_date b = (day0 + 30)%Z.
Proof.
  destruct (borrow cfg250 noon0 borrow_1300 db_at_limit) as [[e|ok] db1] eqn:Hb;
    [vm_compute in Hb; discriminate|].
  destruct (no_penalty_in_the_first_periods cfg250 noon0 borrow_1300 db_at_limit ok db1 MAIN
              (run_ids_fresh cfg250 ops_at_limit init_db init_ids_fresh) Hb eq_refl)
    as (b & _ & W1 & W2 & _).
  exists ok, db1, b. split; [reflexivity|]. split.
  - apply W2. vm_compute. reflexivity.
  - rewrite W1. vm_compute. reflexivity.
Defined.

(** ** getPersonBalance *)

Lemma open_split (pid : Z) (rows : list Borrowing) :
  length (List.filter (λ b, bool_decide (person_id b = pid) && bool_decide (status b = OPEN))
            rows)
  = (length (List.filter (is_open_of pid MAIN) rows)
     + length (List.filter (is_open_of pid VALIDITY) rows))%nat.
Proof.
  induction rows as [|b rows IH]; [reflexivity|].
  cbn [List.filter].
  assert (E : ∀ P, is_open_of pid P b
                   = bool_decide (person_id b = pid) && bool_decide (status b = OPEN)
                     && bool_decide (pool_type b = P)) by reflexivity.
  rewrite !E.
  destruct (bool_decide (person_id b = pid) && bool_decide (status b = OPEN));
    cbn [andb]; [|exact IH].
  destruct (pool_type b);
    rewrite ?(bool_decide_eq_true_2 (MAIN = MAIN)), ?(bool_decide_eq_true_2 (VALIDITY = VALIDITY)),
      ?(bool_decide_eq_false_2 (MAIN = VALIDITY)), ?(bool_decide_eq_false_2 (VALIDITY = MAIN))
      by (reflexivity || discriminate);
    cbn [length]; rewrite IH; lia.
Qed.

Lemma at_most_one_element {A} (l : list A) (a b : A) :
  (length l ≤ 1)%nat → In a l → In b l → a = b.
Proof.
  destruct l as [|x [|y l]]; cbn [length]; intros Hl Ha Hb; [destruct Ha| |lia].
  destruct Ha as [<-|[]], Hb as [<-|[]]. reflexivity.
Qed.

Lemma run_one_open cfg ops :
  Forall (λ op, override_granted cfg op = false) ops →
  at_most_one_open (run cfg ops init_db).
Proof.
  intros Hops.
  assert (H : ∀ db, ids_fresh db → at_most_one_open db → at_most_one_open (run cfg ops db)).
  { induction Hops as [|op ops Hop Hops IH]; intros db Hids Hone; [exact Hone|].
    cbn [run fold_left]. apply IH; [apply step_ids_fresh, Hids|].
    apply step_one_open; assumption. }
  apply H; [apply init_ids_fresh|]. intros p pt. cbn. lia.
Qed.

(** X23. What [getPersonBalance] lists.  The open borrowings of the
    response are exactly the OPEN rows of the person; in every state reached
    from the seeded database without a granted admin override they are at
    most two, no two of them in one pool; a person without a balance row is
    reported with balances of 0; and the pools are those of
    [getGroupPools]. *)
Theorem getPersonBalance_lists_open_debts cfg ops pid :
  Forall (λ op, override_granted cfg op = false) ops →
  let db := run cfg ops init_db in
  let r := getPersonBalance pid db in
  (∀ b, In b (bal_openBorrowings r)
        ↔ In b (borrowing db) ∧ person_id b = pid ∧ status b = OPEN) ∧
  (∀ b1 b2, In b1 (bal_openBorrowings r) → In b2 (bal_openBorrowings r) →
            pool_type b1 = pool_type b2 → b1 = b2) ∧
  (length (bal_openBorrowings r) ≤ 2)%nat ∧
  (personal_balance db !! pid = None →
   main_savings_balance (bal_person r) == 0 ∧ validity_savings_balance (bal_person r) == 0) ∧
  bal_groupPools r = getGroupPools db.
Proof.
  intros Hops db r. pose proof (run_one_open cfg ops Hops) as Hone. fold db in Hone.
  assert (Hin : ∀ b, In b (bal_openBorrowings r)
                     ↔ In b (borrowing db) ∧ person_id b = pid ∧ status b = OPEN).
  { intros b. unfold r, getPersonBalance. cbn [bal_openBorrowings].
    rewrite filter_In, andb_true_iff, !bool_decide_eq_true. reflexivity. }
  split; [exact Hin|]. split; [|split; [|split]].
  - intros b1 b2 H1 H2 Hpool.
    apply Hin in H1 as (H1 & Hp1 & Ho1). apply Hin in H2 as (H2 & Hp2 & Ho2).
    apply (at_most_one_element (open_borrowings pid (pool_type b1) db)); [apply Hone|..];
      unfold open_borrowings; apply filter_In; (split; [assumption|]); unfold is_open_of;
      rewrite !andb_true_iff, !bool_decide_eq_true; repeat split; congruence.
  - unfold r, getPersonBalance. cbn [bal_openBorrowings]. rewrite open_split.
    pose proof (Hone pid MAIN). pose proof (Hone pid VALIDITY).
    unfold open_borrowings in *. lia.
  - intros Hnone. unfold r, getPersonBalance. cbn [bal_person]. rewrite Hnone.
    split; reflexivity.
  - reflexivity.
Qed.

Lemma getPersonBalance_lists_open_debts_witness :
  (length (bal_openBorrowings (getPersonBalance 1 (run cfg250 ops_debts init_db))) ≤ 2)%nat.
Proof.
  apply (getPersonBalance_lists_open_debts cfg250 ops_debts 1).
  repeat constructor.
Defined.

(** ** The validity fee, across the two handlers *)

Lemma tail_same_days (personId date : Z) (fine : Q) (db1 db2 : Db) :
  when (Qgtb fine 0) (charge_fine personId date fine) db1 = inr (tt, db2) →
  daily_summary db2 = daily_summary db1.
Proof.
  unfold when, charge_fine, bind, query, exec, ret.
  destruct (Qgtb fine 0); intros [= <-]; reflexivity.
Qed.

(** The validity fee a retroactive fill applies, and the flag it leaves. *)
Lemma retro_validity_inv cfg now req db ok db' :
  retroactiveFill cfg now req db = (inr ok, db') →
  ∃ date d1,
    rf_date req = Some date ∧
    let paid := from_option validity_paid false (daily_summary db !! (rf_personId req, date)) in
    rf_appliedValidityAmount (rf_applied ok)
      = (if rf_payValidityIfMissing req && negb paid then VALIDITY_FEE cfg else 0) ∧
    daily_summary db' !! (rf_personId req, date) = Some d1 ∧
    validity_paid d1 = rf_payValidityIfMissing req || paid.
Proof.
  intros H. unfold retroactiveFill, refuse in H.
  destruct (rf_date req) as [date|]; [|discriminate].
  destruct (date >=? today_of now)%Z; [discriminate|].
  destruct ((rf_addUnits req <? 0)%Z || (rf_addUnits req >? 4)%Z); [discriminate|].
  destruct (bool_decide (rf_addUnits req = 0%Z) && negb (rf_payValidityIfMissing req));
    [discriminate|].
  unfold transaction in H. unfold bind at 1 in H.
  destruct (ensure_personal_row (rf_personId req) db)
    as (db0 & p0 & E0 & _ & _ & _ & _ & Hd0 & _).
  rewrite E0 in H. unfold bind at 1 in H. unfold query at 1 in H. unfold bind at 1 in H.
  rewrite Hd0 in H.
  destruct (retro_apply cfg _ _ _ _ _ db0) as [e|[[[[aU aUA] aV] fine] db1]] eqn:Hs;
    [discriminate|].
  assert (Hflag : ∃ d1, daily_summary db1 !! (rf_personId req, date) = Some d1 ∧
            validity_paid d1
            = rf_payValidityIfMissing req
              || from_option validity_paid false (daily_summary db !! (rf_personId req, date))).
  { clear H. revert Hs. rewrite <- Hd0. clear Hd0.
    generalize (eq_refl (daily_summary db0 !! (rf_personId req, date))).
    generalize (daily_summary db0 !! (rf_personId req, date)) at 2 3 4 as existing.
    intros existing Hex Hs. tx_unfold.
    destruct existing as [d|]; cbn [from_option].
    - destruct (units_count d + rf_addUnits req >? 4)%Z; [discriminate|].
      destruct (rf_payValidityIfMissing req), (validity_paid d) eqn:Hp; cbn [andb negb] in Hs;
        destruct (rf_addUnits req >? 0)%Z; injection Hs as _ _ _ _ <-; db_simpl;
        eexists; (split; [lookup_norm Hex; reflexivity|]); cbn; congruence.
    - destruct (rf_payValidityIfMissing req); cbn [andb negb] in Hs;
        destruct (rf_addUnits req >? 0)%Z; injection Hs as _ _ _ _ <-; db_simpl;
        eexists; (split; [lookup_norm Hex; reflexivity|]); reflexivity. }
  destruct (retro_apply_money _ _ _ _ _ _ _ _ _ Hs) as (Hr & _).
  cbv zeta in Hr. injection Hr as -> -> -> ->.
  cbn beta iota in H. unfold bind at 1 in H.
  destruct (when _ _ db1) as [e|[[] db2]] eqn:E2; [discriminate|].
  pose proof (tail_same_days _ _ _ _ _ E2) as Hd2.
  destruct Hflag as (d1 & Hd1 & Hpaid1). exists date, d1. split; [reflexivity|]. cbv zeta.
  unfold fetch_balances, bind, query, ret, when, exec in H. cbn beta iota in H.
  destruct (Qgtb _ 0) in H; injection H as <- <-;
    cbn [rf_applied rf_appliedValidityAmount]; db_simpl; rewrite Hd2;
    (split; [reflexivity|]); split; assumption.
Qed.

(** X24. The validity fee of a day is charged once, whichever handler
    books it.  After an accepted save that asked for the fee of a day, an
    accepted retroactive fill for that person and day applies a validity
    amount of 0; and after an accepted retroactive fill that asked for the
    fee, an accepted save for that person and day applies a validity amount
    of 0. *)
Theorem validity_fee_once_across_handlers cfg :
  (∀ now1 req1 db ok1 db1 now2 req2 ok2 db2,
     saveUnitsAndValidity cfg now1 req1 db = (inr ok1, db1) →
     sv_payValidity req1 = true →
     retroactiveFill cfg now2 req2 db1 = (inr ok2, db2) →
     rf_personId req2 = sv_personId req1 →
     rf_date req2 = Some (default (today_of now1) (sv_effectiveDate req1)) →
     rf_appliedValidityAmount (rf_applied ok2) = 0) ∧
  (∀ now1 req1 db ok1 db1 now2 req2 ok2 db2,
     retroactiveFill cfg now1 req1 db = (inr ok1, db1) →
     rf_payValidityIfMissing req1 = true →
     saveUnitsAndValidity cfg now2 req2 db1 = (inr ok2, db2) →
     sv_personId req2 = rf_personId req1 →
     Some (default (today_of now2) (sv_effectiveDate req2)) = rf_date req1 →
     appliedValidityAmount (applied ok2) = 0).
Proof.
  split.
  - intros now1 req1 db ok1 db1 now2 req2 ok2 db2 H1 Hpv H2 Hpid Hdate.
    pose proof (save_spec cfg now1 req1 db (save_success_in_range _ _ _ _ _ _ H1)) as S1.
    cbv zeta in S1. rewrite H1, Hpv in S1. cbn [orb] in S1.
    destruct S1 as (_ & _ & _ & (d1 & Hd1 & _ & Hpaid1) & _).
    destruct (retro_validity_inv _ _ _ _ _ _ H2) as (date & d2 & Hdate2 & Hall).
    cbv zeta in Hall. destruct Hall as (HaV & _).
    rewrite Hdate in Hdate2. injection Hdate2 as <-.
    rewrite Hpid, Hd1 in HaV. cbn [from_option] in HaV. rewrite Hpaid1 in HaV.
    rewrite andb_false_r in HaV. exact HaV.
  - intros now1 req1 db ok1 db1 now2 req2 ok2 db2 H1 Hpv H2 Hpid Hdate.
    destruct (retro_validity_inv _ _ _ _ _ _ H1) as (date & d1 & Hdate1 & Hall).
    cbv zeta in Hall. destruct Hall as (_ & Hd1 & Hpaid1).
    rewrite Hpv in Hpaid1. cbn [orb] in Hpaid1.
    rewrite Hdate1 in Hdate. injection Hdate as Hdate.
    pose proof (save_spec cfg now2 req2 db1 (save_success_in_range _ _ _ _ _ _ H2)) as S2.
    cbv zeta in S2. rewrite H2, Hpid, Hdate, Hd1 in S2. cbn [from_option] in S2.
    rewrite Hpaid1, andb_false_r in S2.
    destruct S2 as (_ & _ & HaV & _). exact HaV.
Qed.

Lemma validity_fee_once_across_handlers_witness :
  ∃ ok1 db1 ok2 db2,
    saveUnitsAndValidity cfg500 noon0 (mkSaveReq 1 0 true (Some (day0 - 1)%Z)) db_one_payment
      = (inr ok1, db1) ∧
    retroactiveFill cfg500 noon0 (mkRetroReq 1 (Some (day0 - 1)%Z) 1 true) db1
      = (inr ok2, db2) ∧
    appliedValidityAmount (applied ok1) = VALIDITY_FEE cfg500 ∧
    rf_appliedValidityAmount (rf_applied ok2) = 0.
Proof.
  destruct (saveUnitsAndValidity cfg500 noon0 (mkSaveReq 1 0 true (Some (day0 - 1)%Z))
              db_one_payment) as [[e|ok1] db1] eqn:H1; [vm_compute in H1; discriminate|].
  destruct (retroactiveFill cfg500 noon0 (mkRetroReq 1 (Some (day0 - 1)%Z) 1 true) db1)
    as [[e|ok2] db2] eqn:H2.
  { vm_compute in H1. injection H1 as <- <-. vm_compute in H2. discriminate. }
  exists ok1, db1, ok2, db2. split; [reflexivity|]. split; [exact H2|]. split.
  - vm_compute in H1. injection H1 as <- _. reflexivity.
  - exact (proj1 (validity_fee_once_across_handlers cfg500) _ _ _ _ _ _ _ _ _
             H1 eq_refl H2 eq_refl eq_refl).
Defined.

(** ** The pools against the payments and the loans *)

Lemma Qsum_app (l1 l2 : list Q) : Qsum (l1 ++ l2) == Qsum l1 + Qsum l2.
Proof.
  unfold Qsum. induction l1 as [|x l1 IH]; cbn [app fold_right].
  - symmetry. apply Qplus_0_l.
  - rewrite IH. apply Qplus_assoc.
Qed.

Lemma paid_in_snoc (db db' : Db) (l : list Payment) :
  payment db' = payment db ++ l →
  paid_in db' == paid_in db + Qsum (List.map pay_amount l).
Proof. unfold paid_in. intros ->. rewrite map_app. apply Qsum_app. Qed.

Lemma map_principal_touch (k : Z) (f : Borrowing → Borrowing) (rows : list Borrowing) :
  (∀ b, principal (f b) = principal b) →
  List.map principal (List.map (touch k f) rows) = List.map principal rows.
Proof.
  intros Hf. rewrite map_map. apply map_ext. intros b. unfold touch.
  destruct (bool_decide (id b = k)); [apply Hf | reflexivity].
Qed.

Lemma same_ledger_refl (db : Db) : same_ledger db db.
Proof. repeat split. Qed.

Lemma same_ledger_trans (a b c : Db) : same_ledger a b → same_ledger b c → same_ledger a c.
Proof. intros (H1 & H2 & H3 & H4) (K1 & K2 & K3 & K4). repeat split; congruence. Qed.

Lemma same_ledger_balanced (db db' : Db) : same_ledger db db' → balanced db → balanced db'.
Proof.
  intros (H1 & H2 & H3 & H4). unfold balanced, pools_total, paid_in, lent_out.
  rewrite H1, H2, H3, H4. tauto.
Qed.

Lemma sweeps_same_ledger cfg now db :
  same_ledger db (snd (runPenalties now db))
  ∧ same_ledger db (snd (admin_runPenalties cfg now db)).
Proof.
  split; handlers_unfold; tx_rel_walk same_ledger_refl same_ledger_trans.
  all: unfold same_ledger; db_simpl; rewrite ?map_principal_touch by reflexivity; repeat split.
Qed.

(** The payments and the pools after an accepted [repay] or [payFull]. *)
Lemma repay_money now req db ok db' :
  repay now req db = (inr ok, db') →
  ∃ b, is_Some (borrowing_by_id (rp_borrowingId req) db) ∧
    payment db' = payment db ++ [mkPayment (rp_personId req) P_DEBT_PAYMENT (rp_amount req)
                                   None (Some (rp_borrowingId req))] ∧
    group_main db' = on_pool (pool_type b) MAIN (λ g, g + rp_amount req) (group_main db) ∧
    group_validity db'
      = on_pool (pool_type b) VALIDITY (λ g, g + rp_amount req) (group_validity db) ∧
    List.map principal (borrowing db') = List.map principal (borrowing db).
Proof.
  unfold repay, refuse, transaction, bind, query, reject, exec, ret. intros H.
  destruct (Qle_bool (rp_amount req) 0); [discriminate|].
  destruct (borrowing_by_id (rp_borrowingId req) db) as [b|]; [|discriminate].
  destruct (negb (bool_decide (person_id b = rp_personId req))); [discriminate|].
  destruct (negb (bool_decide (status b = OPEN))); [discriminate|].
  destruct (Qgtb (rp_amount req) (outstanding_amount b)); [discriminate|].
  injection H as _ <-. exists b. db_simpl.
  rewrite map_principal_touch by reflexivity. repeat split. eauto.
Qed.

Lemma payFull_money now req db ok db' :
  payFull now req db = (inr ok, db') →
  ∃ P, payment db' = payment db ++ [mkPayment (pf_personId req) P_DEBT_PAYMENT
                                      (po_paidAmount ok) None (Some (po_borrowingId ok))] ∧
    group_main db' = on_pool P MAIN (λ g, g + po_paidAmount ok) (group_main db) ∧
    group_validity db' = on_pool P VALIDITY (λ g, g + po_paidAmount ok) (group_validity db) ∧
    List.map principal (borrowing db') = List.map principal (borrowing db).
Proof.
  unfold payFull, refuse, transaction, bind, query, reject, exec, ret. intros H.
  destruct (parse_pool (pf_poolType req)) as [P|]; [|discriminate].
  destruct (open_borrowings (pf_personId req) P db) as [|b rest]; [discriminate|].
  injection H as <- <-. exists P. db_simpl. cbn [po_paidAmount po_borrowingId].
  rewrite map_principal_touch by reflexivity. repeat split.
Qed.

Lemma on_pool_total (P : PoolType) (x : Q) (gm gv : option Q) :
  is_Some gm → is_Some gv →
  is_Some (on_pool P MAIN (λ g, g + x) gm) ∧ is_Some (on_pool P VALIDITY (λ g, g + x) gv) ∧
  default 0 (on_pool P MAIN (λ g, g + x) gm) + default 0 (on_pool P VALIDITY (λ g, g + x) gv)
  == default 0 gm + default 0 gv + x.
Proof.
  intros [m ->] [v ->]. unfold on_pool.
  destruct P;
    rewrite ?(bool_decide_eq_true_2 (MAIN = MAIN)), ?(bool_decide_eq_true_2 (VALIDITY = VALIDITY)),
      ?(bool_decide_eq_false_2 (MAIN = VALIDITY)), ?(bool_decide_eq_false_2 (VALIDITY = MAIN))
      by (reflexivity || discriminate);
    cbn [fmap option_fmap option_map default from_option]; unfold Datatypes.id;
    (split; [eauto|]); (split; [eauto|]); ring.
Qed.

(** The payments and the pools after an accepted save or retroactive fill. *)
Lemma save_money cfg now req db ok db' :
  saveUnitsAndValidity cfg now req db = (inr ok, db') →
  ∃ (bought charged : bool) (uA : Q) p1 p2,
    payment db' = payment db ++ (if charged then [p1] else []) ++ (if bought then [p2] else []) ∧
    pay_amount p1 = VALIDITY_FEE cfg ∧ pay_amount p2 = uA ∧
    group_main db' = (if bought then fmap (λ g, g + uA) else λ g, g) (group_main db) ∧
    group_validity db'
      = (if charged then fmap (λ g, g + VALIDITY_FEE cfg) else λ g, g) (group_validity db) ∧
    borrowing db' = borrowing db.
Proof.
  intros H. pose proof (save_borrowing cfg now req db) as [Hbor _]. rewrite H in Hbor.
  unfold saveUnitsAndValidity, refuse in H.
  destruct ((sv_units req <? 0)%Z || (sv_units req >? 4)%Z); [discriminate|].
  unfold transaction in H. unfold bind at 1 in H.
  destruct (ensure_personal_row (sv_personId req) db)
    as (db0 & p0 & E0 & _ & _ & _ & _ & _ & Hgm0 & Hgv0 & Hpay0).
  rewrite E0 in H. unfold bind at 1 in H. unfold query at 1 in H. unfold bind at 1 in H.
  destruct (save_apply cfg _ _ _ _ _ db0) as [e|[[aU aV] db1]] eqn:Hs; [discriminate|].
  destruct (save_apply_money _ _ _ _ _ _ _ _ _ Hs) as (_ & _ & Hgm1 & Hgv1 & Hpay1).
  cbv zeta in Hgm1, Hgv1, Hpay1.
  unfold fetch_balances, bind, query, ret, when, exec in H. cbn beta iota in H.
  eexists _, _, _, _, _.
  destruct (Qgtb _ 0) in H; injection H as _ <-; db_simpl;
    rewrite Hpay1, Hgm1, Hgv1, Hpay0, Hgm0, Hgv0;
    (split; [reflexivity|]); repeat split; exact Hbor.
Qed.

Lemma retro_money cfg now req db ok db' :
  retroactiveFill cfg now req db = (inr ok, db') →
  ∃ (bought charged fined : bool) (uA fine : Q) p1 p2 p3,
    payment db' = payment db ++ (if charged then [p1] else []) ++ (if bought then [p2] else [])
                             ++ (if fined then [p3] else []) ∧
    pay_amount p1 = VALIDITY_FEE cfg ∧ pay_amount p2 = uA ∧ pay_amount p3 = fine ∧
    group_main db'
      = (if fined then fmap (λ g, g + fine) else λ g, g)
          ((if bought then fmap (λ g, g + uA) else λ g, g) (group_main db)) ∧
    group_validity db'
      = (if charged then fmap (λ g, g + VALIDITY_FEE cfg) else λ g, g) (group_validity db) ∧
    borrowing db' = borrowing db.
Proof.
  intros H. pose proof (retro_borrowing cfg now req db) as [Hbor _]. rewrite H in Hbor.
  unfold retroactiveFill, refuse in H.
  destruct (rf_date req) as [date|]; [|discriminate].
  destruct (date >=? today_of now)%Z; [discriminate|].
  destruct ((rf_addUnits req <? 0)%Z || (rf_addUnits req >? 4)%Z); [discriminate|].
  destruct (bool_decide (rf_addUnits req = 0%Z) && negb (rf_payValidityIfMissing req));
    [discriminate|].
  unfold transaction in H. unfold bind at 1 in H.
  destruct (ensure_personal_row (rf_personId req) db)
    as (db0 & p0 & E0 & _ & _ & _ & _ & _ & Hgm0 & Hgv0 & Hpay0).
  rewrite E0 in H. unfold bind at 1 in H. unfold query at 1 in H. unfold bind at 1 in H.
  destruct (retro_apply cfg _ _ _ _ _ db0) as [e|[[[[aU aUA] aV] fine] db1]] eqn:Hs;
    [discriminate|].
  destruct (retro_apply_money _ _ _ _ _ _ _ _ _ Hs) as (_ & _ & Hgm1 & Hgv1 & Hpay1).
  cbv zeta in Hgm1, Hgv1, Hpay1.
  cbn beta iota in H. unfold bind at 1 in H.
  destruct (charge_fine_spec (rf_personId req) date fine db1)
    as (db2 & E2 & _ & Hgm2 & Hgv2 & Hpay2).
  rewrite E2 in H.
  unfold fetch_balances, bind, query, ret, when, exec in H. cbn beta iota in H.
  eexists _, _, (Qgtb fine 0), _, fine, _, _, _.
  destruct (Qgtb (round2 _) 0) in H; injection H as _ <-; db_simpl;
    rewrite Hpay2, Hgm2, Hgv2, Hpay1, Hgm1, Hgv1, Hpay0, Hgm0, Hgv0, <- !app_assoc;
    (split; [reflexivity|]); repeat split; exact Hbor.
Qed.

Lemma step_balanced cfg op db : is_delete op = false → balanced db → balanced (step cfg op db).
Proof.
  intros Hop Hbal. pose proof Hbal as (Hm & Hv & Hsum).
  destruct op as [now req|now req|now req|now|now|req|pw|req|now req|now req];
    try discriminate Hop; cbn [step].
  - destruct (borrow cfg now req db) as [[e|ok] db'] eqn:Hb; cbn [snd].
    + rewrite (borrow_rejected_unchanged _ _ _ _ _ _ Hb). exact Hbal.
    + destruct (borrow_success_inv _ _ _ _ _ _ Hb)
        as (P & personal & g & isAdm & _ & _ & _ & Hg & _ & _ & _ & Hall).
      cbv zeta in Hall. destruct Hall as (_ & Hrows & _ & Hg' & Hoth & _ & Hpay & _).
      destruct Hm as [m Hm], Hv as [v Hv].
      unfold balanced, pools_total, paid_in, lent_out in *.
      rewrite Hpay, Hrows, map_app, Qsum_app. cbn [List.map principal Qsum fold_right].
      rewrite Hm, Hv in Hsum. cbn [default from_option] in Hsum. unfold Datatypes.id in Hsum.
      destruct P.
      * assert (E1 : group_main db' = Some (g - br_amount req)) by exact Hg'.
        assert (E2 : group_validity db' = group_validity db)
          by exact (Hoth VALIDITY ltac:(discriminate)).
        assert (E3 : group_main db = Some g) by exact Hg.
        rewrite E1, E2, Hv. rewrite Hm in E3. injection E3 as <-.
        split; [eauto|]. split; [eauto|]. cbn. lra.
      * assert (E1 : group_validity db' = Some (g - br_amount req)) by exact Hg'.
        assert (E2 : group_main db' = group_main db)
          by exact (Hoth MAIN ltac:(discriminate)).
        assert (E3 : group_validity db = Some g) by exact Hg.
        rewrite E1, E2, Hm. rewrite Hv in E3. injection E3 as <-.
        split; [eauto|]. split; [eauto|]. cbn. lra.
  - destruct (repay now req db) as [[e|ok] db'] eqn:Hb; cbn [snd].
    + rewrite (repay_rejected_unchanged _ _ _ _ _ Hb). exact Hbal.
    + destruct (repay_money _ _ _ _ _ Hb) as (b & _ & Hpay & Hgm & Hgv & Hpr).
      destruct (on_pool_total (pool_type b) (rp_amount req) _ _ Hm Hv) as (S1 & S2 & S3).
      unfold balanced, pools_total, lent_out in *.
      rewrite Hgm, Hgv, Hpr, (paid_in_snoc _ _ _ Hpay), S3.
      split; [exact S1|]. split; [exact S2|]. cbn. lra.
  - destruct (payFull now req db) as [[e|ok] db'] eqn:Hb; cbn [snd].
    + pose proof (payFull_outcome now req db) as Ho. rewrite Hb in Ho. rewrite Ho. exact Hbal.
    + destruct (payFull_money _ _ _ _ _ Hb) as (P & Hpay & Hgm & Hgv & Hpr).
      destruct (on_pool_total P (po_paidAmount ok) _ _ Hm Hv) as (S1 & S2 & S3).
      unfold balanced, pools_total, lent_out in *.
      rewrite Hgm, Hgv, Hpr, (paid_in_snoc _ _ _ Hpay), S3.
      split; [exact S1|]. split; [exact S2|]. cbn. lra.
  - exact (same_ledger_balanced _ _ (proj1 (sweeps_same_ledger cfg now db)) Hbal).
  - exact (same_ledger_balanced _ _ (proj2 (sweeps_same_ledger cfg now db)) Hbal).
  - destruct (resetAll cfg pw db) as [[e|ok] db'] eqn:Hr; cbn [snd].
    + pose proof (resetAll_outcome cfg pw db) as Ho. rewrite Hr in Ho. rewrite Ho. exact Hbal.
    + unfold resetAll, refuse in Hr. destruct (falsy pw || _); [discriminate|].
      unfold transaction, bind, exec in Hr. injection Hr as _ <-.
      destruct Hm as [m Hm], Hv as [v Hv].
      unfold balanced, pools_total, paid_in, lent_out, reset_tables. db_simpl.
      rewrite Hm, Hv. cbn. split; [eauto|]. split; [eauto|]. reflexivity.
  - destruct (createMember cfg req db) as [[e|i] db'] eqn:Hc; cbn [snd].
    + pose proof (createMember_outcome cfg req db) as Ho. rewrite Hc in Ho. rewrite Ho.
      exact Hbal.
    + destruct (createMember_inv _ _ _ _ _ Hc)
        as (_ & _ & _ & _ & _ & _ & _ & Hgm & Hgv & Hbor & _ & Hpay & _).
      apply (same_ledger_balanced db); [|exact Hbal].
      unfold same_ledger. rewrite Hpay, Hgm, Hgv, Hbor. repeat split.
  - destruct (saveUnitsAndValidity cfg now req db) as [[e|ok] db'] eqn:Hs; cbn [snd].
    + destruct (decide (0 ≤ sv_units req ≤ 4)%Z) as [Hr|Hr].
      * pose proof (save_spec cfg now req db Hr) as S. cbv zeta in S. rewrite Hs in S.
        destruct S as [-> _]. exact Hbal.
      * rewrite (save_out_of_range cfg now req db Hr) in Hs. injection Hs as _ <-. exact Hbal.
    + destruct (save_money _ _ _ _ _ _ Hs)
        as (bought & charged & uA & p1 & p2 & Hpay & Hp1 & Hp2 & Hgm & Hgv & Hbor).
      destruct Hm as [m Hm], Hv as [v Hv].
      unfold balanced, pools_total, lent_out in *.
      rewrite Hgm, Hgv, Hbor, (paid_in_snoc _ _ _ Hpay), Hm, Hv.
      rewrite Hm, Hv in Hsum. cbn [default from_option] in Hsum. unfold Datatypes.id in Hsum.
      destruct bought, charged; cbn; rewrite ?Hp1, ?Hp2;
        (split; [eauto|]); (split; [eauto|]); lra.
  - destruct (retroactiveFill cfg now req db) as [[e|ok] db'] eqn:Hs; cbn [snd].
    + pose proof (retroactiveFill_daily cfg now req db) as Ho. rewrite Hs in Ho. rewrite Ho.
      exact Hbal.
    + destruct (retro_money _ _ _ _ _ _ Hs)
        as (bought & charged & fined & uA & fine & p1 & p2 & p3
            & Hpay & Hp1 & Hp2 & Hp3 & Hgm & Hgv & Hbor).
      destruct Hm as [m Hm], Hv as [v Hv].
      unfold balanced, pools_total, lent_out in *.
      rewrite Hgm, Hgv, Hbor, (paid_in_snoc _ _ _ Hpay), Hm, Hv.
      rewrite Hm, Hv in Hsum. cbn [default from_option] in Hsum. unfold Datatypes.id in Hsum.
      destruct bought, charged, fined; cbn; rewrite ?Hp1, ?Hp2, ?Hp3;
        (split; [eauto|]); (split; [eauto|]); lra.
Qed.

(** X25. The pools are accounted for.  As long as no member is deleted,
    every request keeps the two pools seeded and holding, together, the sum
    of all recorded payments minus the sum of the principals of all
    borrowings; so this holds in every state reached from the seeded
    database without [deleteMember].  Interest and penalties only reach a
    pool when a repayment is recorded. *)
Theorem pools_are_accounted_for cfg :
  (∀ op db, is_delete op = false → balanced db → balanced (step cfg op db)) ∧
  (∀ ops, Forall (λ op, is_delete op = false) ops →
     ∃ gm gv,
       group_main (run cfg ops init_db) = Some gm ∧
       group_validity (run cfg ops init_db) = Some gv ∧
       gm + gv == paid_in (run cfg ops init_db) - lent_out (run cfg ops init_db)).
Proof.
  split; [intros op db; apply step_balanced|].
  intros ops Hops.
  assert (H : ∀ db, balanced db → balanced (run cfg ops db)).
  { induction Hops as [|op ops Hop Hops IH]; intros db Hbal; [exact Hbal|].
    cbn [run fold_left]. apply IH, step_balanced; assumption. }
  destruct (H init_db) as ([gm Hgm] & [gv Hgv] & Hsum).
  { split; [eexists; reflexivity|]. split; [eexists; reflexivity|]. reflexivity. }
  exists gm, gv. split; [exact Hgm|]. split; [exact Hgv|].
  unfold pools_total in Hsum. rewrite Hgm, Hgv in Hsum. exact Hsum.
Qed.

Lemma pools_are_accounted_for_witness :
  ∃ gm gv,
    group_main (run cfg250 ops_debts init_db) = Some gm ∧
    group_validity (run cfg250 ops_debts init_db) = Some gv ∧
    gm + gv == paid_in (run cfg250 ops_debts init_db) - lent_out (run cfg250 ops_debts init_db).
Proof.
  apply (proj2 (pools_are_accounted_for cfg250) ops_debts).
  repeat constructor.
Defined.
